(** * Reconciliation engine of the zkPoll front end

    A shallow embedding of the TypeScript sources that decode contract
    query results, resolve the identifier of a freshly created poll, merge
    contract data with the IndexedDB cache and watch for the confirmation of
    a creation, together with the properties stated about them.

    Sources embedded:
    - [utils/database.ts]          ([savePollMetadata], [getPollMetadata],
                                    [updatePollMetadata])
    - [utils/contract-metadata.ts] ([getPollMetadataFromContract],
                                    [syncPollMetadata])
    - [components/PollList.tsx]    ([getTotalPolls], the confirmation effect)
    - [components/CreatePollForm]  (the identifier extraction of
                                    [handleSubmit] and its caching step) *)

From Stdlib Require Import Ascii String.
From stdpp Require Import base numbers list strings gmap pretty.

Local Open Scope string_scope.
Local Open Scope Z_scope.

(** ** The fragment of JavaScript the sources rely on *)

Module Js.

(** Numbers. The ledger only produces integers (counts, identifiers,
    timestamps), so a JavaScript number is modelled as an exact integer or
    [NaN]; fractions, infinities and the rounding of doubles above 2^53 are
    outside the model. *)
Inductive num : Type :=
| NaN
| Num (z : Z).

(** Outcome of an expression that may throw. *)
Inductive res (A : Type) : Type :=
| Val (a : A)
| Throw.
Global Arguments Val {A} a.
Global Arguments Throw {A}.

Definition bind {A B} (r : res A) (k : A -> res B) : res B :=
  match r with Val a => k a | Throw => Throw end.

(** [try { r } catch { d }] *)
Definition catch {A} (r : res A) (d : A) : A :=
  match r with Val a => a | Throw => d end.

(** Values. An object lists its own enumerable properties in enumeration
    order and carries the three methods the sources call: [toHuman] and
    [toNumber] (absent, returning, or throwing) and a custom [toString]. *)
#[warnings="-register-all"] Inductive val : Type :=
| Undef
| Null
| Bool (b : bool)
| Number (n : num)
| Str (s : string)
| Arr (items : list val)
| Obj (props : list (string * val))
      (toHuman : option (res val))
      (toNumber : option (res num))
      (toStr : option string).

(** An object literal. *)
Definition plain (props : list (string * val)) : val := Obj props None None None.

Global Instance num_eq_dec : EqDecision num.
Proof. solve_decision. Defined.

(** *** Truthiness, [typeof], [in], property access *)

Definition num_truthy (n : num) : bool :=
  match n with NaN => false | Num z => negb (z =? 0) end.

Definition truthy (v : val) : bool :=
  match v with
  | Undef | Null => false
  | Bool b => b
  | Number n => num_truthy n
  | Str s => negb (String.eqb s EmptyString)
  | Arr _ | Obj _ _ _ _ => true
  end.

(** [typeof v === 'object'] *)
Definition is_object (v : val) : bool :=
  match v with Null | Arr _ | Obj _ _ _ _ => true | _ => false end.

Fixpoint assoc (k : string) (ps : list (string * val)) : option val :=
  match ps with
  | [] => None
  | (k', v) :: r => if String.eqb k k' then Some v else assoc k r
  end.

(** [k in v], for the keys the sources test ('Ok', 'ok', 'toHuman',
    'toNumber'); it throws on a value that is not an object. *)
Definition has (k : string) (v : val) : res bool :=
  match v with
  | Obj ps h n _ =>
      Val (match assoc k ps with
           | Some _ => true
           | None => (String.eqb k "toHuman" && bool_decide (is_Some h))
                     || (String.eqb k "toNumber" && bool_decide (is_Some n))
           end)
  | Arr _ => Val false
  | _ => Throw
  end.

(** [v.k] for a data property; reading a property of [undefined] or
    [null] throws. *)
Definition get (k : string) (v : val) : res val :=
  match v with
  | Undef | Null => Throw
  | Obj ps _ _ _ => Val (default Undef (assoc k ps))
  | _ => Val Undef
  end.

(** [v?.k] *)
Definition get_opt (k : string) (v : val) : val :=
  match v with
  | Obj ps _ _ _ => default Undef (assoc k ps)
  | _ => Undef
  end.

(** [v.toHuman()] and [v.toNumber()]: calling what is not a function throws. *)
Definition call_toHuman (v : val) : res val :=
  match v with Obj _ (Some r) _ _ => r | _ => Throw end.

Definition call_toNumber (v : val) : res num :=
  match v with Obj _ _ (Some r) _ => r | _ => Throw end.

(** [Object.values(v)] of an object that passed [typeof v === 'object'] and
    is truthy. *)
Definition values (v : val) : list val :=
  match v with
  | Obj ps _ _ _ => ps.*2
  | Arr l => l
  | _ => []
  end.

(** *** Strings to numbers *)

Definition is_space (c : ascii) : bool :=
  let n := nat_of_ascii c in
  ((9 <=? n)%nat && (n <=? 13)%nat) || (n =? 32)%nat.

Definition digit_of (c : ascii) : option Z :=
  let n := Z.of_nat (nat_of_ascii c) in
  if (48 <=? n) && (n <=? 57) then Some (n - 48) else None.

Definition hex_of (c : ascii) : option Z :=
  let n := Z.of_nat (nat_of_ascii c) in
  if (48 <=? n) && (n <=? 57) then Some (n - 48)
  else if (97 <=? n) && (n <=? 102) then Some (n - 87)
  else if (65 <=? n) && (n <=? 70) then Some (n - 55)
  else None.

Fixpoint drop_spaces (s : string) : string :=
  match s with
  | String c r => if is_space c then drop_spaces r else s
  | EmptyString => s
  end.

Definition rev_string (s : string) : string :=
  string_of_list_ascii (rev (list_ascii_of_string s)).

Definition trim (s : string) : string :=
  rev_string (drop_spaces (rev_string (drop_spaces s))).

(** Value of a string made only of digits in the given base; [None] when
    another character occurs. *)
Fixpoint all_digits (dig : ascii -> option Z) (base : Z) (acc : Z) (s : string)
  : option Z :=
  match s with
  | EmptyString => Some acc
  | String c r =>
      match dig c with
      | Some d => all_digits dig base (base * acc + d) r
      | None => None
      end
  end.

(** Value of the longest prefix of digits, and whether it is non-empty. *)
Fixpoint leading_digits (dig : ascii -> option Z) (base : Z) (acc : Z)
         (seen : bool) (s : string) : option Z :=
  match s with
  | String c r =>
      match dig c with
      | Some d => leading_digits dig base (base * acc + d) true r
      | None => if seen then Some acc else None
      end
  | EmptyString => if seen then Some acc else None
  end.

Definition nonempty_digits dig base (s : string) : num :=
  match s with
  | EmptyString => NaN
  | _ => match all_digits dig base 0 s with Some z => Num z | None => NaN end
  end.

(** [Number(s)] on the integer literals: blank is 0, [0x] introduces
    hexadecimal digits, an optional sign precedes decimal digits, anything
    else (a thousands separator, a letter, ...) is [NaN]. *)
Definition Number_str (s : string) : num :=
  match trim s with
  | EmptyString => Num 0
  | String "0" (String "x" r) | String "0" (String "X" r) =>
      nonempty_digits hex_of 16 r
  | String "-" r =>
      match nonempty_digits digit_of 10 r with Num z => Num (- z) | NaN => NaN end
  | String "+" r => nonempty_digits digit_of 10 r
  | t => nonempty_digits digit_of 10 t
  end.

(** [parseInt(s, 16)]: leading blanks, a sign, an optional [0x], then the
    longest run of hexadecimal digits. *)
Definition strip_0x (s : string) : string :=
  match s with
  | String "0" (String "x" r) | String "0" (String "X" r) => r
  | _ => s
  end.

Definition parseInt16 (s : string) : num :=
  let t := drop_spaces s in
  let '(neg, u) :=
    match t with
    | String "-" r => (true, r)
    | String "+" r => (false, r)
    | _ => (false, t)
    end in
  match leading_digits hex_of 16 0 false (strip_0x u) with
  | Some z => Num (if neg then - z else z)
  | None => NaN
  end.

(** [s.replace('0x', '')]: the first occurrence only. *)
Fixpoint replace_0x (s : string) : string :=
  match s with
  | String "0" (String "x" r) => r
  | String c r => String c (replace_0x r)
  | EmptyString => EmptyString
  end.

(** *** Conversions of values *)

Definition num_to_string (n : num) : string :=
  match n with NaN => "NaN" | Num z => pretty z end.

(** [String(v)], also [v.toString()] for a [v] that is neither [undefined]
    nor [null]. *)
Fixpoint ToString (v : val) : string :=
  match v with
  | Undef => "undefined"
  | Null => "null"
  | Bool true => "true"
  | Bool false => "false"
  | Number n => num_to_string n
  | Str s => s
  | Arr l =>
      (fix join (l : list val) : string :=
         match l with
         | [] => EmptyString
         | [x] => match x with Undef | Null => EmptyString | _ => ToString x end
         | x :: r =>
             (match x with Undef | Null => EmptyString | _ => ToString x end)
               +:+ "," +:+ join r
         end) l
  | Obj _ _ _ (Some s) => s
  | Obj _ _ _ None => "[object Object]"
  end.

(** [Number(v)] *)
Definition ToNumber (v : val) : num :=
  match v with
  | Undef => NaN
  | Null => Num 0
  | Bool b => Num (if b then 1 else 0)
  | Number n => n
  | Str s => Number_str s
  | Arr _ => Number_str (ToString v)
  | Obj _ _ _ (Some s) => Number_str s
  | Obj _ _ _ None => NaN
  end.

Definition isNaN (n : num) : bool :=
  match n with NaN => true | Num _ => false end.

(** [n || 0] on numbers, [n > 0] and [n === 0]. *)
Definition or0 (n : num) : num := if num_truthy n then n else Num 0.

Definition gt0 (n : num) : bool :=
  match n with NaN => false | Num z => 0 <? z end.

Definition is0 (n : num) : bool :=
  match n with NaN => false | Num z => z =? 0 end.

(** [a || b] on values. *)
Definition or_val (a b : val) : val := if truthy a then a else b.

End Js.
Import Js.

Notation "'let*' x := e 'in' k" := (bind e (fun x => k))
  (at level 10, x name, e at level 100, k at level 200, only parsing).

(** ** [PollList.tsx]: decoding the result of [getTotalPolls] *)

Module PollList.

(** [typeof v === 'object' && k in v] *)
Definition obj_has (k : string) (v : val) : res bool :=
  if is_object v then has k v else Val false.

Definition is_number (v : val) : bool :=
  match v with Number _ => true | _ => false end.

(** [let output = result.output;
     if (!output && result.result?.output) output = result.result.output] *)
Definition pick_output (result : val) : res val :=
  let* output := get "output" result in
  let inner := get_opt "output" (get_opt "result" result) in
  Val (if negb (truthy output) && truthy inner then inner else output).

(** The three-way test applied to the value under [Ok]/[ok] of the
    human-readable form; [total] is 0 when none applies. *)
Definition human_ok_value (okValue : val) : res num :=
  match okValue with
  | Str s => Val (or0 (Number_str s))
  | Number n => Val n
  | _ =>
      if truthy okValue then
        let* m := obj_has "toNumber" okValue in
        if (m : bool) then let* n := call_toNumber okValue in Val (or0 n)
        else Val (Num 0)
      else Val (Num 0)
  end.

(** [for (const val of values) ...]: the first number, or the first string
    that [Number] does not send to [NaN]. *)
Fixpoint scan_values (vs : list val) : num :=
  match vs with
  | [] => Num 0
  | Number n :: _ => n
  | Str s :: r => if negb (isNaN (Number_str s)) then Number_str s else scan_values r
  | _ :: r => scan_values r
  end.

(** Body of the first [try]: the value assigned to [total], which starts
    at 0. *)
Definition parse_human (output : val) : res num :=
  if truthy output then
    let* h := obj_has "toHuman" output in
    if (h : bool) then
      let* humanOutput := call_toHuman output in
      if truthy humanOutput && is_object humanOutput then
        let* up := has "Ok" humanOutput in
        if (up : bool) then
          let* okValue := get "Ok" humanOutput in human_ok_value okValue
        else
          let* low := has "ok" humanOutput in
          if (low : bool) then
            let* okValue := get "ok" humanOutput in human_ok_value okValue
          else if is_number humanOutput then
            match humanOutput with Number n => Val n | _ => Val (Num 0) end
          else Val (scan_values (values humanOutput))
      else if is_number humanOutput then
        match humanOutput with Number n => Val n | _ => Val (Num 0) end
      else Val (Num 0)
    else Val (Num 0)
  else Val (Num 0).

(** The test applied to the value under [ok]/[Ok] of the raw output. *)
Definition raw_ok_value (okValue : val) : res num :=
  if is_number okValue then
    match okValue with Number n => Val n | _ => Val (Num 0) end
  else
    let* m := obj_has "toNumber" okValue in
    if (m : bool) then let* n := call_toNumber okValue in Val (or0 n)
    else Val (Num 0).

(** Body of [if (total === 0 && output) { ... }]. *)
Definition parse_raw (output : val) : res num :=
  let* low := obj_has "ok" output in
  if (low : bool) then
    let* okValue := get "ok" output in raw_ok_value okValue
  else
    let* up := obj_has "Ok" output in
    if (up : bool) then
      let* okValue := get "Ok" output in raw_ok_value okValue
    else
      let* m := obj_has "toNumber" output in
      if (m : bool) then
        let* numValue := call_toNumber output in
        Val (if gt0 numValue then numValue else Num 0)
      else if is_number output then
        match output with Number n => Val n | _ => Val (Num 0) end
      else Val (Num 0).

(** The parsing that follows the query, from the query result. *)
Definition parse_total (result : val) : res num :=
  let* output := pick_output result in
  let total := catch (parse_human output) (Num 0) in
  let* total :=
    (if is0 total && truthy output then parse_raw output else Val total) in
  Val (if gt0 total then total else Num 0).

(** [getTotalPolls]: [queryAddress] is the component's state, [query] the
    answer of [contract.query.getTotalPolls(queryAddress, ...)], which
    throws on a transport failure. *)
Definition getTotalPolls (queryAddress : option string)
           (query : string -> res val) : num :=
  match queryAddress with
  | None => Num 0
  | Some address =>
      if String.eqb address EmptyString then Num 0
      else catch (let* result := query address in parse_total result) (Num 0)
  end.

(** [getCurrentTotal] of the confirmation effect. *)
Definition getCurrentTotal (queryAddress : option string)
           (query : string -> res val) : num :=
  getTotalPolls queryAddress query.

(** *** The strategies, one by one

    Each strategy reads the raw output and yields [Some n] when its shape
    test matches ([n] is what it extracts, 0 when the extraction finds
    nothing usable) and [None] when it does not. *)

(** The human-readable conversion, when there is one and it returns. *)
Definition human_of (output : val) : option val :=
  if truthy output then
    match obj_has "toHuman" output with
    | Val true => match call_toHuman output with Val h => Some h | Throw => None end
    | _ => None
    end
  else None.

Definition key_of (h : val) : option val :=
  match has "Ok" h with
  | Val true => Some (get_opt "Ok" h)
  | _ => match has "ok" h with
         | Val true => Some (get_opt "ok" h)
         | _ => None
         end
  end.

(** (1) human-readable conversion with [Ok]/[ok] key extraction *)
Definition strat_human_ok (output : val) : option num :=
  h ← human_of output;
  if truthy h && is_object h then
    okValue ← key_of h; Some (catch (human_ok_value okValue) (Num 0))
  else None.

(** (2) human-readable conversion yielding a bare number *)
Definition strat_human_number (output : val) : option num :=
  h ← human_of output;
  match h with Number n => Some n | _ => None end.

Fixpoint has_numeric (vs : list val) : bool :=
  match vs with
  | [] => false
  | Number _ :: _ => true
  | Str s :: r => negb (isNaN (Number_str s)) || has_numeric r
  | _ :: r => has_numeric r
  end.

(** (3) the first number or numeric string among the values of the
    human-readable object *)
Definition strat_human_scan (output : val) : option num :=
  h ← human_of output;
  if truthy h && is_object h && has_numeric (values h)
  then Some (scan_values (values h)) else None.

(** (4) [ok]/[Ok] key on the raw value *)
Definition strat_raw_ok (output : val) : option num :=
  if truthy output then
    match obj_has "ok" output with
    | Val true => Some (catch (raw_ok_value (get_opt "ok" output)) (Num 0))
    | _ => match obj_has "Ok" output with
           | Val true => Some (catch (raw_ok_value (get_opt "Ok" output)) (Num 0))
           | _ => None
           end
    end
  else None.

(** (5) the numeric conversion of the raw value, accepted when > 0 *)
Definition strat_raw_toNumber (output : val) : option num :=
  if truthy output then
    match obj_has "toNumber" output with
    | Val true =>
        match call_toNumber output with
        | Val n => if gt0 n then Some n else None
        | Throw => None
        end
    | _ => None
    end
  else None.

(** (6) the raw value itself when it is a plain number *)
Definition strat_raw_number (output : val) : option num :=
  match output with Number n => Some n | _ => None end.

Definition strategies : list (val -> option num) :=
  [strat_human_ok; strat_human_number; strat_human_scan;
   strat_raw_ok; strat_raw_toNumber; strat_raw_number].

(** Result of the first strategy of [ss] that yields a value passing
    [definite]; 0 when none does. *)
Fixpoint first_definite (definite : num -> bool)
         (ss : list (val -> option num)) (output : val) : num :=
  match ss with
  | [] => Num 0
  | s :: r =>
      match s output with
      | Some n => if definite n then n else first_definite definite r output
      | None => first_definite definite r output
      end
  end.

(** The single chain of the description: the six strategies in order, the
    first definite value wins. *)
Definition decode_chain (definite : num -> bool) (output : val) : num :=
  first_definite definite strategies output.

Definition any_value (_ : num) : bool := true.
Definition nonzero (n : num) : bool := negb (is0 n).

(** What the code does: the first strategy whose shape test matches. *)
Fixpoint first_match (ss : list (val -> option num)) (output : val)
  : option num :=
  match ss with
  | [] => None
  | s :: r => match s output with Some n => Some n | None => first_match r output end
  end.

Definition clamp (n : num) : num := if gt0 n then n else Num 0.

(** The two phases: the human-readable strategies decide by shape; the raw
    strategies run only when they left the total at 0, and again decide by
    shape. *)
Definition decode_two_phase (output : val) : num :=
  let t := default (Num 0)
             (first_match [strat_human_ok; strat_human_number; strat_human_scan]
                          output) in
  if is0 t && truthy output then
    clamp (default (Num 0)
             (first_match [strat_raw_ok; strat_raw_toNumber; strat_raw_number]
                          output))
  else clamp t.

(** *** Shapes that are not decoded *)

Definition positive_yield (output : val) (s : val -> option num) : bool :=
  match s output with Some n => gt0 n | None => false end.

Definition yields_positive (output : val) : bool :=
  existsb (positive_yield output) strategies.

(** No strategy yields a positive count on the answer of the query, if
    there is an address and an answer at all. *)
Definition unrecognized (queryAddress : option string)
           (query : string -> res val) : Prop :=
  forall address result output,
    queryAddress = Some address -> query address = Val result ->
    pick_output result = Val output -> yields_positive output = false.

(** An explicit failure: the human-readable form of the output is an
    object with an [Err] key and neither [Ok] nor [ok]. *)
Definition explicit_failure (output : val) : bool :=
  match human_of output with
  | Some h =>
      match has "Err" h, key_of h with
      | Val true, None => true
      | _, _ => false
      end
  | None => false
  end.

(** A query that answers with the given output. *)
Definition respond (output : val) : string -> res val :=
  fun _ => Val (plain [("output", output)]).

End PollList.

(** ** [utils/database.ts]: the IndexedDB cache of poll metadata *)

Module Database.

Record ChainMetadata : Type := {
  chainName : string;
  chainId : string;
  specVersion : option string }.

(** [interface PollMetadata] *)
Record PollMetadata : Type := {
  pollId : num;
  title : string;
  description : string;
  optionNames : list string;
  maxOptions : num;
  duration : num;
  endsAt : num;
  createdAt : num;
  blockNumber : option num;
  blockHash : option string;
  transactionHash : option string;
  chainMetadata : option ChainMetadata;
  totalVotes : option num;
  isActive : option bool;
  creator : option string;
  lastSynced : option num }.

(** The database as the code sees it: whether [initDatabase] resolves,
    whether the [polls] object store exists, whether a read and a write
    request succeed, and the rows of the [polls] store under their key
    path [pollId]. *)
Record Idb : Type := {
  opens : bool;
  has_polls : bool;
  reads : bool;
  writes : bool;
  polls : gmap Z PollMetadata }.

Definition with_polls (db : Idb) (rows : gmap Z PollMetadata) : Idb :=
  {| opens := opens db; has_polls := has_polls db; reads := reads db;
     writes := writes db; polls := rows |}.

(** [dataToSave] of [savePollMetadata]: the record with its defaults;
    [now] is [Date.now()]. *)
Definition dataToSave (now : Z) (metadata : PollMetadata) : PollMetadata :=
  {| pollId := pollId metadata;
     title := title metadata;
     description := description metadata;
     optionNames := optionNames metadata;
     maxOptions := or0 (maxOptions metadata);
     duration := or0 (duration metadata);
     endsAt := or0 (endsAt metadata);
     createdAt := if num_truthy (createdAt metadata) then createdAt metadata
                  else Num now;
     blockNumber := blockNumber metadata;
     blockHash := blockHash metadata;
     transactionHash := transactionHash metadata;
     chainMetadata := chainMetadata metadata;
     totalVotes := totalVotes metadata;
     isActive := isActive metadata;
     creator := creator metadata;
     lastSynced := lastSynced metadata |}.

(** [savePollMetadata]: the promise is rejected ([Throw]) or resolved with
    the database after the [put]. *)
Definition savePollMetadata (now : Z) (metadata : PollMetadata) (db : Idb)
  : res Idb :=
  if negb (num_truthy (pollId metadata)) then Throw  (* 'pollId es requerido' *)
  else if negb (opens db) then Throw
  else if negb (has_polls db) then Throw
  else if negb (writes db) then Throw
  else
    match pollId metadata with
    | Num key => Val (with_polls db (<[key := dataToSave now metadata]> (polls db)))
    | NaN => Throw
    end.

(** [getPollMetadata]: [request.result || null]. *)
Definition getPollMetadata (pollId : num) (db : Idb) : res (option PollMetadata) :=
  if negb (opens db) then Throw
  else if negb (has_polls db) then Throw
  else if negb (reads db) then Throw
  else
    match pollId with
    | Num key => Val (polls db !! key)
    | NaN => Throw  (* not a valid key *)
    end.

(** [Partial<PollMetadata>]: the fields an update carries. *)
Record Updates : Type := {
  u_pollId : option num;
  u_title : option string;
  u_description : option string;
  u_optionNames : option (list string);
  u_maxOptions : option num;
  u_duration : option num;
  u_endsAt : option num;
  u_createdAt : option num;
  u_blockNumber : option num;
  u_blockHash : option string;
  u_transactionHash : option string;
  u_chainMetadata : option ChainMetadata;
  u_totalVotes : option num;
  u_isActive : option bool;
  u_creator : option string;
  u_lastSynced : option num }.

(** [{ ...existing, ...updates, pollId }] *)
Definition spread (existing : PollMetadata) (updates : Updates) (id : num)
  : PollMetadata :=
  {| pollId := id;
     title := default (title existing) (u_title updates);
     description := default (description existing) (u_description updates);
     optionNames := default (optionNames existing) (u_optionNames updates);
     maxOptions := default (maxOptions existing) (u_maxOptions updates);
     duration := default (duration existing) (u_duration updates);
     endsAt := default (endsAt existing) (u_endsAt updates);
     createdAt := default (createdAt existing) (u_createdAt updates);
     blockNumber := from_option Some (blockNumber existing) (u_blockNumber updates);
     blockHash := from_option Some (blockHash existing) (u_blockHash updates);
     transactionHash :=
       from_option Some (transactionHash existing) (u_transactionHash updates);
     chainMetadata :=
       from_option Some (chainMetadata existing) (u_chainMetadata updates);
     totalVotes := from_option Some (totalVotes existing) (u_totalVotes updates);
     isActive := from_option Some (isActive existing) (u_isActive updates);
     creator := from_option Some (creator existing) (u_creator updates);
     lastSynced := from_option Some (lastSynced existing) (u_lastSynced updates) |}.

(** [updatePollMetadata]: every failure is logged and thrown again. *)
Definition updatePollMetadata (now : Z) (id : num) (updates : Updates) (db : Idb)
  : res Idb :=
  let* existing := getPollMetadata id db in
  match existing with
  | None => Throw  (* 'Poll ... no encontrada en la BD' *)
  | Some existing => savePollMetadata now (spread existing updates id) db
  end.

(** A healthy, empty database. *)
Definition empty_db : Idb :=
  {| opens := true; has_polls := true; reads := true; writes := true;
     polls := ∅ |}.

End Database.

(** ** [utils/contract-metadata.ts]: reading a poll and merging it with the cache *)

Module ContractMetadata.
Import Database.

(** [interface ContractPollData] *)
Record ContractPollData : Type := {
  exists_ : bool;
  id : num;
  c_title : string;
  c_description : string;
  merkleRoot : string;
  c_maxOptions : num;
  c_creator : string;
  c_isActive : bool;
  c_totalVotes : num;
  c_createdAt : num;
  c_endsAt : num;
  voteTallies : list num }.

(** The collaborators of the module: the contract's read-only messages,
    each throwing on a transport failure, and [getDevAccounts]. *)
Record Contract : Type := {
  getPoll : string -> num -> res val;
  getAllTallies : string -> num -> res val;
  getDevAccounts : res (list string) }.

(** [queryAddress], or the first development account when it is missing. *)
Definition resolve_address (c : Contract) (queryAddress : option string)
  : res string :=
  match queryAddress with
  | Some a => if negb (String.eqb a EmptyString) then Val a
              else let* devAccounts := getDevAccounts c in
                   match devAccounts with a :: _ => Val a | [] => Throw end
  | None => let* devAccounts := getDevAccounts c in
            match devAccounts with a :: _ => Val a | [] => Throw end
  end.

(** [result.output?.toHuman()] *)
Definition human_output (result : val) : res val :=
  let* output := get "output" result in
  match output with
  | Undef | Null => Val Undef
  | _ => call_toHuman output
  end.

(** Array destructuring: what the pattern iterates over, and its
    positions. *)
Definition iterate (v : val) : res (list val) :=
  match v with
  | Arr l => Val l
  | Str s => Val ((fun c => Str (String c EmptyString)) <$> list_ascii_of_string s)
  | _ => Throw
  end.

Definition at_ (i : nat) (l : list val) : val := nth i l Undef.

(** [v === true] *)
Definition is_true (v : val) : bool :=
  match v with Bool true => true | _ => false end.

(** [Number(v || 0)] and [String(v || '')] *)
Definition number_or0 (v : val) : num := ToNumber (or_val v (Number (Num 0))).
Definition string_or_empty (v : val) : string := ToString (or_val v (Str EmptyString)).

(** The creator comes as a string or as an object wrapping the address;
    the cast [as string] of the source is taken at its word, a first value
    that is not a string being rendered by [String]. *)
Definition creator_address (creator : val) : string :=
  if truthy creator then
    if is_object creator then
      match values creator with
      | v :: _ => if truthy v then ToString v else ToString creator
      | [] => ToString creator
      end
    else ToString creator
  else EmptyString.

(** [Array(n).fill(0)]: a [RangeError] unless [n] is a valid length. *)
Definition zero_array (n : num) : res (list num) :=
  match n with
  | Num z => if (0 <=? z) && (z <? 2 ^ 32) then Val (replicate (Z.to_nat z) (Num 0))
             else Throw
  | NaN => Throw
  end.

(** The [try] block that reads the tallies: [voteTallies] starts empty. *)
Definition read_tallies (c : Contract) (address : string) (pollId : num)
  : res (list num) :=
  let* talliesResult := getAllTallies c address pollId in
  let* talliesOutput := human_output talliesResult in
  if truthy talliesOutput then
    let* ok := get "Ok" talliesOutput in
    match ok with
    | Arr l => Val (number_or0 <$> l)
    | _ => Val []
    end
  else Val [].

Definition getPollMetadataFromContract_body (c : Contract) (pollId : num)
           (queryAddress : option string) : res (option ContractPollData) :=
  let* address := resolve_address c queryAddress in
  let* pollResult := getPoll c address pollId in
  let* output := human_output pollResult in
  if negb (truthy output) then Val None
  else
    let* ok := get "Ok" output in
    if negb (truthy ok) then Val None
    else
      let* fields := iterate ok in
      let exists_v := at_ 0 fields in
      let maxOptions_v := at_ 5 fields in
      if negb (truthy exists_v) then Val None
      else
        let creatorAddress := creator_address (at_ 6 fields) in
        let* voteTallies :=
          match read_tallies c address pollId with
          | Val t => Val t
          | Throw => zero_array (number_or0 maxOptions_v)
          end in
        Val (Some
          {| exists_ := is_true exists_v;
             id := number_or0 (at_ 1 fields);
             c_title := string_or_empty (at_ 2 fields);
             c_description := string_or_empty (at_ 3 fields);
             merkleRoot := string_or_empty (at_ 4 fields);
             c_maxOptions := number_or0 maxOptions_v;
             c_creator := creatorAddress;
             c_isActive := is_true (at_ 7 fields);
             c_totalVotes := number_or0 (at_ 8 fields);
             c_createdAt := number_or0 (at_ 9 fields);
             c_endsAt := number_or0 (at_ 10 fields);
             voteTallies := voteTallies |}).

(** [getPollMetadataFromContract]: any exception is logged and gives
    [null]. *)
Definition getPollMetadataFromContract (c : Contract) (pollId : num)
           (queryAddress : option string) : option ContractPollData :=
  catch (getPollMetadataFromContract_body c pollId queryAddress) None.

(** The record [syncedMetadata] built from the contract data and the
    local row; [now] is [Date.now()]. *)
Definition syncedMetadata (now : Z) (contractData : ContractPollData)
           (localMetadata : option PollMetadata) : PollMetadata :=
  {| pollId := id contractData;
     title := c_title contractData;
     description := c_description contractData;
     maxOptions := c_maxOptions contractData;
     isActive := Some (c_isActive contractData);
     totalVotes := Some (c_totalVotes contractData);
     creator := Some (c_creator contractData);
     endsAt := c_endsAt contractData;
     createdAt := c_createdAt contractData;
     optionNames := match localMetadata with Some l => optionNames l | None => [] end;
     duration := match localMetadata with Some l => or0 (duration l) | None => Num 0 end;
     blockNumber := localMetadata ≫= blockNumber;
     blockHash := localMetadata ≫= blockHash;
     transactionHash := localMetadata ≫= transactionHash;
     chainMetadata := localMetadata ≫= chainMetadata;
     lastSynced := Some (Num now) |}.

(** [syncPollMetadata]: the merged record, or [null], and the database it
    leaves. [now] is read when the record is built, [later] inside
    [savePollMetadata]. *)
Definition syncPollMetadata (now later : Z) (c : Contract) (pollId : num)
           (queryAddress : option string) (db : Idb)
  : option PollMetadata * Idb :=
  match getPollMetadataFromContract c pollId queryAddress with
  | None => (None, db)
  | Some contractData =>
      match getPollMetadata pollId db with
      | Throw => (None, db)
      | Val localMetadata =>
          let synced := syncedMetadata now contractData localMetadata in
          match savePollMetadata later synced db with
          | Throw => (None, db)
          | Val db' => (Some synced, db')
          end
      end
  end.

(** The copy of the total's parsing in [syncAllPollsMetadata]: the
    human-readable [Ok]/[ok] first, then the raw [ok], [Ok] and numeric
    conversion; its result bounds the loop over the polls. *)
Definition total_of_human (okValue : val) : num :=
  match okValue with
  | Str s => or0 (Number_str s)
  | Number n => n
  | _ => Num 0
  end.

Definition parse_human_total (output : val) : res num :=
  if truthy output then
    let* h := PollList.obj_has "toHuman" output in
    if (h : bool) then
      let* humanOutput := call_toHuman output in
      if truthy humanOutput && is_object humanOutput then
        let* up := has "Ok" humanOutput in
        if (up : bool) then
          let* okValue := get "Ok" humanOutput in Val (total_of_human okValue)
        else
          let* low := has "ok" humanOutput in
          if (low : bool) then
            let* okValue := get "ok" humanOutput in Val (total_of_human okValue)
          else Val (Num 0)
      else Val (Num 0)
    else Val (Num 0)
  else Val (Num 0).

Definition parse_raw_total (output : val) : res num :=
  let* low := PollList.obj_has "ok" output in
  if (low : bool) then
    let* okValue := get "ok" output in
    match okValue with
    | Number n => Val n
    | _ => Val (or0 (ToNumber okValue))
    end
  else
    let* up := PollList.obj_has "Ok" output in
    if (up : bool) then
      let* okValue := get "Ok" output in
      let* m := PollList.obj_has "toNumber" okValue in
      if (m : bool) then let* n := call_toNumber okValue in Val (or0 n)
      else Val (or0 (ToNumber okValue))
    else
      let* m := PollList.obj_has "toNumber" output in
      if (m : bool) then
        let* numValue := call_toNumber output in
        Val (if gt0 numValue then numValue else Num 0)
      else Val (Num 0).

Definition totalPolls_of (totalResult : val) : res num :=
  let* output := get "output" totalResult in
  let totalPolls := catch (parse_human_total output) (Num 0) in
  if is0 totalPolls && truthy output then parse_raw_total output
  else Val totalPolls.

End ContractMetadata.

(** ** [PollList.tsx]: the effect that waits for a creation to be confirmed

    The effect arms a 3000 ms timeout; its callback reads the baseline count
    and arms a 2000 ms interval; every tick of the interval increments
    [attempts], reads the count and decides. Each [await] is a point where
    the callback is suspended and other timers or the cleanup may run, so
    the effect is a machine stepped by the events of the scheduler. *)

Module Confirmation.

Definition maxAttempts : nat := 20.

(** A tick of the interval that is suspended at an [await]. *)
Inductive Tick : Type :=
| AwaitTotal                       (* await getCurrentTotal() *)
| AwaitLoad (clear_after : bool).  (* await loadPolls(), then clearInterval or not *)

Record Effect : Type := {
  timeoutId_armed : bool;          (* the timeout is scheduled *)
  checkInterval : option bool;     (* null, or the handle and whether it still ticks *)
  baseline_pending : bool;         (* the timeout callback awaits the baseline *)
  attempts : nat;
  previousTotalPolls : Z;
  ticks : list Tick;               (* suspended ticks, oldest first *)
  loads : list nat                 (* calls of loadPolls: [attempts] at each call, last call first *)
}.

Inductive Event : Type :=
| TimeoutFires
| BaselineResolves (total : Z)
| IntervalFires
| TotalResolves (i : nat) (total : Z)
| LoadResolves (i : nat)
| Cleanup.

(** The effect once it has scheduled its timeout. *)
Definition start : Effect :=
  {| timeoutId_armed := true; checkInterval := None; baseline_pending := false;
     attempts := 0; previousTotalPolls := 0; ticks := []; loads := [] |}.

(** The guards of the effect: it schedules nothing without a query
    address or with a [refreshTrigger] that is missing or not positive. *)
Definition mount (queryAddress : option string) (refreshTrigger : option Z)
  : option Effect :=
  match queryAddress, refreshTrigger with
  | Some a, Some t =>
      if String.eqb a EmptyString then None
      else if t <=? 0 then None else Some start
  | _, _ => None
  end.

Definition ticking (w : Effect) : bool :=
  match checkInterval w with Some b => b | None => false end.

(** [if (checkInterval) clearInterval(checkInterval)] *)
Definition clearInterval (h : option bool) : option bool :=
  match h with Some _ => Some false | None => None end.

(** The decision of a tick once its count is known; [i] is the position
    of the tick among the suspended ones. *)
Definition decide_tick (i : nat) (currentTotal : Z) (w : Effect) : Effect :=
  if previousTotalPolls w <? currentTotal then
    {| timeoutId_armed := timeoutId_armed w; checkInterval := checkInterval w;
       baseline_pending := baseline_pending w; attempts := attempts w;
       previousTotalPolls := currentTotal;
       ticks := <[i := AwaitLoad true]> (ticks w);
       loads := attempts w :: loads w |}
  else if (maxAttempts <=? attempts w)%nat then
    {| timeoutId_armed := timeoutId_armed w; checkInterval := checkInterval w;
       baseline_pending := baseline_pending w; attempts := attempts w;
       previousTotalPolls := previousTotalPolls w;
       ticks := <[i := AwaitLoad true]> (ticks w);
       loads := attempts w :: loads w |}
  else if (attempts w mod 3 =? 0)%nat then
    {| timeoutId_armed := timeoutId_armed w; checkInterval := checkInterval w;
       baseline_pending := baseline_pending w; attempts := attempts w;
       previousTotalPolls := previousTotalPolls w;
       ticks := <[i := AwaitLoad false]> (ticks w);
       loads := attempts w :: loads w |}
  else
    {| timeoutId_armed := timeoutId_armed w; checkInterval := checkInterval w;
       baseline_pending := baseline_pending w; attempts := attempts w;
       previousTotalPolls := previousTotalPolls w;
       ticks := delete i (ticks w);
       loads := loads w |}.

(** One event. An event that is not enabled (a timer that was cleared or
    has not been armed, a tick that is not suspended) changes nothing. *)
Definition step (w : Effect) (e : Event) : Effect :=
  match e with
  | TimeoutFires =>
      if timeoutId_armed w then
        {| timeoutId_armed := false; checkInterval := checkInterval w;
           baseline_pending := true; attempts := 0;
           previousTotalPolls := previousTotalPolls w;
           ticks := ticks w; loads := loads w |}
      else w
  | BaselineResolves total =>
      if baseline_pending w then
        {| timeoutId_armed := timeoutId_armed w; checkInterval := Some true;
           baseline_pending := false; attempts := attempts w;
           previousTotalPolls := total;
           ticks := ticks w; loads := loads w |}
      else w
  | IntervalFires =>
      if ticking w then
        {| timeoutId_armed := timeoutId_armed w; checkInterval := checkInterval w;
           baseline_pending := baseline_pending w; attempts := S (attempts w);
           previousTotalPolls := previousTotalPolls w;
           ticks := ticks w ++ [AwaitTotal]; loads := loads w |}
      else w
  | TotalResolves i total =>
      match ticks w !! i with
      | Some AwaitTotal => decide_tick i total w
      | _ => w
      end
  | LoadResolves i =>
      match ticks w !! i with
      | Some (AwaitLoad clear_after) =>
          {| timeoutId_armed := timeoutId_armed w;
             checkInterval := if clear_after then clearInterval (checkInterval w)
                              else checkInterval w;
             baseline_pending := baseline_pending w; attempts := attempts w;
             previousTotalPolls := previousTotalPolls w;
             ticks := delete i (ticks w); loads := loads w |}
      | _ => w
      end
  | Cleanup =>
      {| timeoutId_armed := false;
         checkInterval := clearInterval (checkInterval w);
         baseline_pending := baseline_pending w; attempts := attempts w;
         previousTotalPolls := previousTotalPolls w;
         ticks := ticks w; loads := loads w |}
  end.

Definition run (events : list Event) (w : Effect) : Effect :=
  foldl step w events.

(** A tick whose count and whose reload resolve before the next timer. *)
Definition attempt (currentTotal : Z) : list Event :=
  [IntervalFires; TotalResolves 0 currentTotal; LoadResolves 0].

(** The run in which nothing overlaps: the timeout, the baseline, then one
    attempt per polled count. *)
Definition serial (baseline : Z) (counts : list Z) : list Event :=
  TimeoutFires :: BaselineResolves baseline :: concat (attempt <$> counts).

(** The attempts at which a run without increase reloads before the last
    one: the multiples of 3 up to [n], the latest first. *)
Fixpoint every_third (n : nat) : list nat :=
  match n with
  | O => []
  | S m => if (S m mod 3 =? 0)%nat then S m :: every_third m else every_third m
  end.

End Confirmation.

(** ** [CreatePollForm]: the identifier of the poll just created

    The part of the [signAndSend] callback of [handleSubmit] that runs once
    the transaction is in a block: the search of the events for the
    identifier, the fallback on the total of polls, and the caching of the
    form in IndexedDB. *)

Module CreatePoll.
Import Database.

(** [eventRecord.event]: the module and name of the event, the identifier
    some decoders add, and its data. *)
Record ChainEvent : Type := {
  section : string;
  method : string;
  identifier : option string;
  data : val }.

(** What [contract.abi.decodeEvent] returns: the identifier of the decoded
    event when there is one, and its arguments ([args || []]). *)
Record Decoded : Type := {
  d_identifier : option string;
  d_args : list val }.

(** An event record with the outcome of decoding it against the ABI,
    which throws on an event the ABI does not know. *)
Record EventRecord : Type := {
  event : option ChainEvent;
  decodeEvent : res (option Decoded) }.

(** The elements of a value used as an array ([v.length], [v[i]]);
    objects with a [length] of their own are outside the model. *)
Definition elements (v : val) : list val :=
  match v with
  | Arr l => l
  | Str s => (fun c => Str (String c EmptyString)) <$> list_ascii_of_string s
  | _ => []
  end.

(** [Number(t) || parseInt(t.toString().replace('0x', ''), 16) || 0] *)
Definition topic_number (t : val) : res num :=
  if num_truthy (ToNumber t) then Val (ToNumber t)
  else
    match t with
    | Undef | Null => Throw
    | _ => Val (or0 (parseInt16 (replace_0x (ToString t))))
    end.

(** The decoding attempt: [Some candidate] when the decoded event is
    [PollCreated] and has an argument (the loop is then left), [None]
    otherwise, also when decoding throws. *)
Definition decoded_candidate (r : EventRecord) : option num :=
  match decodeEvent r with
  | Val (Some decoded) =>
      match d_identifier decoded with
      | Some i =>
          if String.eqb i "PollCreated" then
            match d_args decoded with
            | a :: _ => Some (or0 (ToNumber a))
            | [] => None
            end
          else None
      | None => None
      end
  | _ => None
  end.

(** The search in the topics of the event data, inside the first [try]. *)
Definition topics_of_data (ev : ChainEvent) (pollId : num) : num * bool :=
  if is0 pollId && truthy (data ev) then
    let topics := elements (or_val (get_opt "topics" (data ev)) (Arr [])) in
    if (1 <? length topics)%nat then
      let pollIdTopic := nth 1 topics Undef in
      if truthy pollIdTopic then
        match topic_number pollIdTopic with
        | Val p => (p, gt0 p)
        | Throw => (pollId, false)
        end
      else (pollId, false)
    else (pollId, false)
  else (pollId, false).

(** [if (contract && eventRecord.event) { try { ... } catch { } }]: the
    new [pollId] and whether [break] was reached. *)
Definition decode_block (r : EventRecord) (pollId : num) : num * bool :=
  match event r with
  | None => (pollId, false)
  | Some ev =>
      let isPollCreated :=
        String.eqb (section ev) "contracts"
        && (String.eqb (method ev) "ContractEmitted"
            || String.eqb (method ev) "ContractExecution") in
      if isPollCreated || String.eqb (method ev) "PollCreated" then
        match decoded_candidate r with
        | Some p => (p, true)
        | None => topics_of_data ev pollId
        end
      else (pollId, false)
  end.

(** [if (pollId === 0 && eventRecord.event) { ... }]: the search by
    identifier or method. *)
Definition fallback_block (r : EventRecord) (pollId : num) : num * bool :=
  match event r with
  | None => (pollId, false)
  | Some ev =>
      if is0 pollId then
        let eventIdentifier :=
          if negb (String.eqb (method ev) EmptyString) then Some (method ev)
          else identifier ev in
        if bool_decide (eventIdentifier = Some "PollCreated")
           || bool_decide (eventIdentifier = Some "ContractEmitted") then
          let eventData := data ev in
          if truthy eventData then
            match eventData with
            | Arr (first :: _) =>
                let p := or0 (ToNumber first) in (p, gt0 p)
            | _ =>
                if is_object eventData then
                  match get_opt "topics" eventData with
                  | Arr topics =>
                      if (1 <? length topics)%nat then
                        match topic_number (nth 1 topics Undef) with
                        | Val p => (p, gt0 p)
                        | Throw => (pollId, false)
                        end
                      else (pollId, false)
                  | _ => (pollId, false)
                  end
                else (pollId, false)
            end
          else (pollId, false)
        else (pollId, false)
      else (pollId, false)
  end.

(** [for (const eventRecord of result.events) { ... }] *)
Fixpoint scan_events (events : list EventRecord) (pollId : num) : num :=
  match events with
  | [] => pollId
  | r :: rest =>
      let '(p1, stop1) := decode_block r pollId in
      if stop1 then p1
      else
        let '(p2, stop2) := fallback_block r p1 in
        if stop2 then p2 else scan_events rest p2
  end.

(** The collaborators of the fallback on the total of polls. *)
Record Chain : Type := {
  getDevAccounts : res (list string);
  getTotalPolls : string -> res val }.

(** The value under [Ok]/[ok] of the human-readable total. *)
Definition total_of (okValue : val) : num :=
  match okValue with
  | Str s => or0 (Number_str s)
  | Number n => n
  | _ => Num 0
  end.

(** The body of the [try] of the fallback: the total read from the
    contract. *)
Definition read_total (chain : Chain) : res num :=
  let* devAccounts := getDevAccounts chain in
  match devAccounts with
  | [] => Throw  (* 'No se pudo obtener dirección de query' *)
  | queryAddress :: _ =>
      if String.eqb queryAddress EmptyString then Throw else
      let* totalResult := getTotalPolls chain queryAddress in
      let* output := get "output" totalResult in
      if truthy output then
        let* h := PollList.obj_has "toHuman" output in
        if (h : bool) then
          let* humanOutput := call_toHuman output in
          if truthy humanOutput && is_object humanOutput then
            let* up := has "Ok" humanOutput in
            if (up : bool) then
              let* okValue := get "Ok" humanOutput in Val (total_of okValue)
            else
              let* low := has "ok" humanOutput in
              if (low : bool) then
                let* okValue := get "ok" humanOutput in Val (total_of okValue)
              else Val (Num 0)
          else Val (Num 0)
        else Val (Num 0)
      else Val (Num 0)
  end.

(** [if (pollId === 0 && contract) { try { ... } catch { } }] *)
Definition total_fallback (chain : Chain) (pollId : num) : num :=
  if is0 pollId then
    match read_total chain with
    | Val total => if gt0 total then total else pollId
    | Throw => pollId
    end
  else pollId.

(** The identifier the search of [handleSubmit] arrives at (the loop over
    the events, then the fallback on the total) in a status update that
    gets that far; [pollId] starts at 0.  The returns that come before the
    search (a dispatch error, a [system.ExtrinsicFailed] event, a status
    that is neither in a block nor finalized) are those of
    [Submission.on_status]. *)
Definition resolve (events : list EventRecord) (chain : Chain) : num :=
  total_fallback chain (scan_events events (Num 0)).

(** The state of the form and of the transaction when the caching runs. *)
Record Form : Type := {
  f_title : string;
  f_description : string;
  f_optionNames : list string;
  f_maxOptions : Z;
  f_duration : Z;
  f_blockNumber : option num;
  f_blockHash : option string;
  f_transactionHash : option string;
  f_chainMetadata : option ChainMetadata }.

(** [l.slice(0, n)] *)
Definition slice0 {A} (n : Z) (l : list A) : list A :=
  if 0 <=? n then take (Z.to_nat n) l
  else take (length l - Z.to_nat (- n)) l.

(** [x || undefined] *)
Definition or_undefined_num (x : option num) : option num :=
  match x with Some n => if num_truthy n then Some n else None | None => None end.
Definition or_undefined_str (x : option string) : option string :=
  match x with Some s => if String.eqb s EmptyString then None else Some s | None => None end.

(** The record handed to [savePollMetadata]; [now] is [Date.now()]. *)
Definition form_metadata (now : Z) (form : Form) (pollId : num) : PollMetadata :=
  {| pollId := pollId;
     title := f_title form;
     description := f_description form;
     optionNames := slice0 (f_maxOptions form) (f_optionNames form);
     maxOptions := Num (f_maxOptions form);
     duration := Num (f_duration form);
     endsAt := Num (if 0 <? f_duration form then now + f_duration form * 1000 else 0);
     createdAt := Num now;
     blockNumber := or_undefined_num (f_blockNumber form);
     blockHash := or_undefined_str (f_blockHash form);
     transactionHash := or_undefined_str (f_transactionHash form);
     chainMetadata := f_chainMetadata form;
     totalVotes := None; isActive := None; creator := None; lastSynced := None |}.

(** [if (pollId > 0) { try { await savePollMetadata({...}) } catch { } }]:
    the database after the caching step. *)
Definition cache_step (now later : Z) (form : Form) (pollId : num) (db : Idb) : Idb :=
  if gt0 pollId then
    match savePollMetadata later (form_metadata now form pollId) db with
    | Val db' => db'
    | Throw => db
    end
  else db.

(** The search and the caching step, one after the other: from the events
    of a status update that reaches the search to the identifier and the
    database.  [Submission.on_status] is the whole callback. *)
Definition resolveAndCache (now later : Z) (form : Form)
           (events : list EventRecord) (chain : Chain) (db : Idb) : num * Idb :=
  let pollId := resolve events chain in
  (pollId, cache_step now later form pollId db).

End CreatePoll.

(** ** Invariant of the cache *)

Module Invariant.
Import Database.

(** Every row of the [polls] store sits under its own [pollId], and no
    row sits under 0. *)
Definition keyed (db : Idb) : Prop :=
  forall k row, polls db !! k = Some row -> pollId row = Num k /\ k <> 0.

(** Rows as [savePollMetadata] writes them: the duration is a number. *)
Definition normalized (db : Idb) : Prop :=
  forall k row, polls db !! k = Some row -> duration row <> NaN.

(** The database opens, has its store, and serves reads and writes. *)
Definition healthy (db : Idb) : Prop :=
  opens db = true /\ has_polls db = true /\ reads db = true /\ writes db = true.

(** A field after [{ ...existing, ...updates }]: the value the updates
    carry, or else the existing one. *)
Definition patched {A : Type} (old : A) (new : option A) : A :=
  match new with Some a => a | None => old end.

(** The row an update leaves, field by field: every field but [pollId]
    comes from the updates when they carry it and from the existing row
    otherwise, with the defaults [savePollMetadata] applies; [now] is the
    time of the save. *)
Definition updated (now : Z) (existing : PollMetadata) (updates : Updates)
           (row : PollMetadata) : Prop :=
  title row = patched (title existing) (u_title updates)
  /\ description row = patched (description existing) (u_description updates)
  /\ optionNames row = patched (optionNames existing) (u_optionNames updates)
  /\ maxOptions row = or0 (patched (maxOptions existing) (u_maxOptions updates))
  /\ duration row = or0 (patched (duration existing) (u_duration updates))
  /\ endsAt row = or0 (patched (endsAt existing) (u_endsAt updates))
  /\ createdAt row
     = (let c := patched (createdAt existing) (u_createdAt updates) in
        if num_truthy c then c else Num now)
  /\ blockNumber row
     = patched (blockNumber existing) (Some <$> u_blockNumber updates)
  /\ blockHash row = patched (blockHash existing) (Some <$> u_blockHash updates)
  /\ transactionHash row
     = patched (transactionHash existing) (Some <$> u_transactionHash updates)
  /\ chainMetadata row
     = patched (chainMetadata existing) (Some <$> u_chainMetadata updates)
  /\ totalVotes row = patched (totalVotes existing) (Some <$> u_totalVotes updates)
  /\ isActive row = patched (isActive existing) (Some <$> u_isActive updates)
  /\ creator row = patched (creator existing) (Some <$> u_creator updates)
  /\ lastSynced row = patched (lastSynced existing) (Some <$> u_lastSynced updates).

End Invariant.

(** ** What a merged record takes from each side *)

Module Merge.
Import Database ContractMetadata.

(** The fields the contract also has. *)
Definition remote_fields (view : PollMetadata) (remote : ContractPollData) : Prop :=
  title view = c_title remote
  /\ description view = c_description remote
  /\ maxOptions view = c_maxOptions remote
  /\ isActive view = Some (c_isActive remote)
  /\ totalVotes view = Some (c_totalVotes remote)
  /\ creator view = Some (c_creator remote)
  /\ createdAt view = c_createdAt remote
  /\ endsAt view = c_endsAt remote.

(** The fields only the cache has, against the row of the cache if any. *)
Definition local_fields (view : PollMetadata) (row : option PollMetadata) : Prop :=
  match row with
  | Some l =>
      optionNames view = optionNames l
      /\ duration view = duration l
      /\ blockNumber view = blockNumber l
      /\ blockHash view = blockHash l
      /\ transactionHash view = transactionHash l
      /\ chainMetadata view = chainMetadata l
  | None =>
      optionNames view = []
      /\ duration view = Num 0
      /\ blockNumber view = None
      /\ blockHash view = None
      /\ transactionHash view = None
      /\ chainMetadata view = None
  end.

(** The read of one poll succeeds: the query answers for [address], its
    human-readable output has an [Ok] tuple [fields], and the tuple says
    the poll exists. *)
Definition poll_read (c : Contract) (pollId : num) (queryAddress : option string)
           (address : string) (fields : list val) : Prop :=
  exists pollResult output ok,
    resolve_address c queryAddress = Val address
    /\ getPoll c address pollId = Val pollResult
    /\ human_output pollResult = Val output
    /\ truthy output = true
    /\ get "Ok" output = Val ok
    /\ truthy ok = true
    /\ iterate ok = Val fields
    /\ truthy (at_ 0 fields) = true.

End Merge.

(** ** Sample data *)

Module Fixtures.
Import Database ContractMetadata.

Definition alice : string := "5GrwvaEF5zXb26Fz9rcQpDWS57CtERHpNehXCPcNoHGKutQY".

(** A codec whose [toHuman] returns [h]. *)
Definition codec (h : val) : val := Obj [] (Some (Val h)) None None.

(** The result of a query whose output reads [{ Ok: v }]. *)
Definition answers (v : val) : val :=
  plain [("output", codec (plain [("Ok", v)]))].

(** The tuple of [get_poll] for a poll with the given identifier and
    number of options, as [toHuman] prints it. *)
Definition poll_tuple (id maxOptions : string) : val :=
  Arr [Bool true; Str id; Str "T"; Str "D"; Str "0x00"; Str maxOptions;
       Str alice; Bool true; Str "7"; Str "1700000000000"; Str "0"].

Definition elements_of_tuple (v : val) : list val :=
  match v with Arr l => l | _ => [] end.

(** A contract with one poll of two options and tallies 3 and 4. *)
Definition contract : Contract :=
  {| getPoll := fun _ _ => Val (answers (poll_tuple "1" "2"));
     getAllTallies := fun _ _ => Val (answers (Arr [Str "3"; Str "4"]));
     getDevAccounts := Val [alice] |}.

(** The same contract when the tallies query throws, when it answers
    without output, and when the identifier of the poll prints with a
    thousands separator. *)
Definition contract_tallies_throw : Contract :=
  {| getPoll := getPoll contract;
     getAllTallies := fun _ _ => Throw;
     getDevAccounts := Val [alice] |}.

Definition contract_tallies_empty : Contract :=
  {| getPoll := getPoll contract;
     getAllTallies := fun _ _ => Val (plain [("output", Null)]);
     getDevAccounts := Val [alice] |}.

Definition contract_poll_1234 : Contract :=
  {| getPoll := fun _ _ => Val (answers (poll_tuple "1,234" "2"));
     getAllTallies := getAllTallies contract;
     getDevAccounts := Val [alice] |}.

(** The row the form of poll 1 left in the cache. *)
Definition row1 : PollMetadata :=
  {| pollId := Num 1; title := "draft"; description := EmptyString;
     optionNames := ["A"; "B"]; maxOptions := Num 2; duration := Num 3600;
     endsAt := Num 0; createdAt := Num 1699999990000;
     blockNumber := Some (Num 12); blockHash := Some "0xabc";
     transactionHash := Some "0xdef"; chainMetadata := None;
     totalVotes := None; isActive := None; creator := None;
     lastSynced := None |}.

Definition db1 : Idb := with_polls empty_db {[ 1 := row1 ]}.

(** A database that refuses writes, and one that does not open. *)
Definition db_readonly : Idb :=
  {| opens := true; has_polls := true; reads := true; writes := false;
     polls := {[ 1 := row1 ]} |}.

Definition db_closed : Idb :=
  {| opens := false; has_polls := true; reads := true; writes := true;
     polls := ∅ |}.

Definition contract_thousand_options : Contract :=
  {| getPoll := fun _ _ => Val (answers (poll_tuple "1" "1,000"));
     getAllTallies := fun _ _ => Throw;
     getDevAccounts := Val [alice] |}.

(** Outputs of [getTotalPolls]: a raw object with a string under [ok] and
    a numeric conversion; a codec that prints [{ Ok: "0" }] and converts
    to 7; the codec of a failed call, which prints its error and converts
    to the index 1 of the [Err] variant; the codec of an empty ledger. *)
Definition raw_ok_string : val :=
  Obj [("ok", Str "5")] None (Some (Val (Num 7))) None.

Definition zero_then_seven : val :=
  Obj [] (Some (Val (plain [("Ok", Str "0")]))) (Some (Val (Num 7))) None.

Definition err_codec : val :=
  Obj [] (Some (Val (plain [("Err", Str "CouldNotReadInput")])))
      (Some (Val (Num 1))) None.

Definition err_plain : val :=
  codec (plain [("Err", Str "CouldNotReadInput")]).

Definition empty_ledger : val := codec (plain [("Ok", Str "0")]).

Definition no_updates : Updates :=
  {| u_pollId := None; u_title := None; u_description := None;
     u_optionNames := None; u_maxOptions := None; u_duration := None;
     u_endsAt := None; u_createdAt := None; u_blockNumber := None;
     u_blockHash := None; u_transactionHash := None; u_chainMetadata := None;
     u_totalVotes := None; u_isActive := None; u_creator := None;
     u_lastSynced := None |}.

Definition move_to_9 : Updates :=
  {| u_pollId := Some (Num 9); u_title := Some "renamed"; u_description := None;
     u_optionNames := None; u_maxOptions := None; u_duration := None;
     u_endsAt := None; u_createdAt := None; u_blockNumber := None;
     u_blockHash := None; u_transactionHash := None; u_chainMetadata := None;
     u_totalVotes := None; u_isActive := None; u_creator := None;
     u_lastSynced := None |}.

End Fixtures.

(** ** States of the confirmation effect *)

Module ConfirmationStates.
Import Confirmation.

(** After the baseline and [j] serial attempts without an increase. *)
Definition waiting (baseline : Z) (j : nat) : Effect :=
  {| timeoutId_armed := false; checkInterval := Some true;
     baseline_pending := false; attempts := j;
     previousTotalPolls := baseline; ticks := []; loads := every_third j |}.

(** Nothing is armed and nothing is suspended. *)
Definition inert (w : Effect) : Prop :=
  timeoutId_armed w = false /\ ticking w = false
  /\ baseline_pending w = false /\ ticks w = [].

(** The cleanup runs while the timeout callback awaits the baseline; the
    baseline then resolves and twenty ticks follow, the count never
    moving. *)
Definition cleanup_during_baseline : list Event :=
  [TimeoutFires; Cleanup; BaselineResolves 5]
    ++ concat (attempt <$> replicate 20 5).

(** The cleanup runs while the first tick awaits its count, which then
    shows an increase. *)
Definition cleanup_during_tick : list Event :=
  [TimeoutFires; BaselineResolves 5; IntervalFires; Cleanup;
   TotalResolves 0 6; LoadResolves 0].

(** The first tick sees the increase and its reload is still running
    when the interval ticks again. *)
Definition slow_reload : list Event :=
  [TimeoutFires; BaselineResolves 5; IntervalFires; TotalResolves 0 6;
   IntervalFires; TotalResolves 1 6; LoadResolves 0].

(** Nineteen serial attempts without increase, then the twentieth tick is
    still waiting for its count when the interval ticks again. *)
Definition slow_last_count : list Event :=
  serial 5 (replicate 19 5)
    ++ [IntervalFires; IntervalFires; TotalResolves 0 5; TotalResolves 1 5;
        LoadResolves 0; LoadResolves 0].

End ConfirmationStates.

(** ** Sample receipts *)

Module Receipts.
Import CreatePoll.

(** The [ContractEmitted] event of a creation: signature topic, then the
    identifier 42 as second topic. *)
Definition emitted : ChainEvent :=
  {| section := "contracts"; method := "ContractEmitted"; identifier := None;
     data := plain [("topics",
               Arr [Str "0x315d56ae591770f851cb2b9248304a695ce876d893ba1b8422a266d8eb9d5208";
                    Str "0x2a"])] |}.

(** The event when the ABI decodes it as [PollCreated] with a first
    argument that is 0, when the ABI cannot decode it, and when the ABI
    decodes the identifier 42. *)
Definition decoded_zero : EventRecord :=
  {| event := Some emitted;
     decodeEvent := Val (Some {| d_identifier := Some "PollCreated";
                                 d_args := [Number (Num 0)] |}) |}.

Definition undecoded : EventRecord :=
  {| event := Some emitted; decodeEvent := Throw |}.

Definition decoded_42 : EventRecord :=
  {| event := Some emitted;
     decodeEvent := Val (Some {| d_identifier := Some "PollCreated";
                                 d_args := [Str "42"] |}) |}.

(** A chain whose total cannot be read, and one that reports 7 polls. *)
Definition chain_down : Chain :=
  {| getDevAccounts := Throw; getTotalPolls := fun _ => Throw |}.

Definition chain_7 : Chain :=
  {| getDevAccounts := Val [Fixtures.alice];
     getTotalPolls := fun _ => Val (Fixtures.answers (Str "7")) |}.

Definition form : Form :=
  {| f_title := "T"; f_description := "D"; f_optionNames := ["A"; "B"; EmptyString];
     f_maxOptions := 2; f_duration := 3600;
     f_blockNumber := Some (Num 12); f_blockHash := Some "0xabc";
     f_transactionHash := Some "0xdef"; f_chainMetadata := None |}.

End Receipts.
(** * The rest of the front end

    The functions around the ones above.

    Sources embedded:
    - [utils/logger.ts]            ([Logger]: [log], [clear], [subscribe],
                                    the getters and the helpers)
    - [utils/database.ts]          ([getAllPollMetadata], [saveVoteRecord],
                                    [getVotesForPoll])
    - [utils/contract-metadata.ts] ([syncAllPollsMetadata])
    - [components/PollList.tsx]    ([getVoteTallies], [getPoll], [loadPolls])
    - [components/CreatePollForm]  (the callback of [signAndSend] with its
                                    early returns, the numeric inputs and
                                    the effect on [maxOptions])
    - [components/VoteModal.tsx]   ([loadPollData], the guard of [handleVote])
    - [utils/polkadot.ts]          ([connectPolkadotExtension])
    - [utils/account-id.ts], [utils/ss58-util.ts]
                                   ([AccountId], [h160ToAccountId32],
                                    [accountId32ToH160]) *)

From stdpp Require Import sorting.
Import Js.

Local Open Scope string_scope.
Local Open Scope Z_scope.

(** ** [CreatePollForm]: the callback of [signAndSend]

    Every status update of the transaction runs the same callback: it
    returns on a dispatch error and on a [system.ExtrinsicFailed] event,
    does nothing until the transaction is in a block or finalized, and only
    then reads the block, searches the identifier, caches the form and
    calls [onPollCreated]. *)

Module Submission.
Import Database CreatePoll.

(** What [api.registry.findMetaError] returns. *)
Record MetaError : Type := {
  e_section : string;
  e_name : string;
  e_docs : option (list string)
}.

(** [result.dispatchError]: its decoding and its [toString()]. *)
Record DispatchError : Type := {
  findMetaError : res (option MetaError);
  error_text : res string
}.

(** A status update: the error and the events it carries, its status, the
    block [api.rpc.chain.getBlock] returns for it (the conversions of its
    number and of its hash may throw), the hash of the transaction, and
    whether [JSON.stringify(result)] returns. *)
Record TxResult : Type := {
  dispatchError : option DispatchError;
  events : option (list EventRecord);
  isInBlock : bool;
  isFinalized : bool;
  getBlock : res (res num * res string);
  txHash : res string;
  prints : bool
}.

(** [`${decodedError.docs || ''}`] *)
Definition docs_text (docs : option (list string)) : string :=
  match docs with
  | Some l => String.concat "," l
  | None => EmptyString
  end.

(** The message shown for a dispatch error; [api] says whether the API
    object is there. *)
Definition dispatch_message (api : bool) (e : DispatchError) : string :=
  if api then
    match findMetaError e with
    | Throw => "La transacción falló. Verifica los logs para más detalles."
    | Val (Some decodedError) =>
        let name := e_name decodedError in
        if String.eqb (e_section decodedError) "contracts" then
          if String.eqb name "OutOfGas" then
            "Error: La transacción se quedó sin gas. Intenta aumentar el límite de gas."
          else if String.eqb name "CodeNotFound" then
            "Error: Código del contrato no encontrado. Verifica que el contrato esté desplegado."
          else if String.eqb name "NotCallable" then
            "Error: El método del contrato no es invocable. Verifica los parámetros."
          else if String.eqb name "Trap" then
            "Error: El contrato ejecutó una trampa (trap). Verifica los parámetros de entrada."
          else if String.eqb name "StorageDepositLimitExceeded" then
            "Error: Límite de depósito de almacenamiento excedido."
          else "Error del contrato: " +:+ name +:+ ". "
               +:+ docs_text (e_docs decodedError)
        else if String.eqb (e_section decodedError) "system" then
          if String.eqb name "InvalidTransaction" then
            "Error: Transacción inválida. Verifica que tengas fondos suficientes."
          else "Error del sistema: " +:+ name +:+ ". "
               +:+ docs_text (e_docs decodedError)
        else "Error: " +:+ e_section decodedError +:+ "." +:+ name
    | Val None =>
        match error_text e with
        | Val errorStr => "Error desconocido: " +:+ errorStr
        | Throw => "La transacción falló. Verifica los logs para más detalles."
        end
    end
  else "La transacción falló en la cadena.".

(** [event && event.section === 'system' && event.method === 'ExtrinsicFailed'] *)
Definition extrinsic_failed (r : EventRecord) : bool :=
  match event r with
  | Some ev => String.eqb (section ev) "system"
               && String.eqb (method ev) "ExtrinsicFailed"
  | None => false
  end.

Definition set_blockNumber (n : num) (form : Form) : Form :=
  {| f_title := f_title form; f_description := f_description form;
     f_optionNames := f_optionNames form; f_maxOptions := f_maxOptions form;
     f_duration := f_duration form; f_blockNumber := Some n;
     f_blockHash := f_blockHash form;
     f_transactionHash := f_transactionHash form;
     f_chainMetadata := f_chainMetadata form |}.

Definition set_blockHash (h : string) (form : Form) : Form :=
  {| f_title := f_title form; f_description := f_description form;
     f_optionNames := f_optionNames form; f_maxOptions := f_maxOptions form;
     f_duration := f_duration form; f_blockNumber := f_blockNumber form;
     f_blockHash := Some h;
     f_transactionHash := f_transactionHash form;
     f_chainMetadata := f_chainMetadata form |}.

Definition set_transactionHash (t : string) (form : Form) : Form :=
  {| f_title := f_title form; f_description := f_description form;
     f_optionNames := f_optionNames form; f_maxOptions := f_maxOptions form;
     f_duration := f_duration form; f_blockNumber := f_blockNumber form;
     f_blockHash := f_blockHash form;
     f_transactionHash := Some t;
     f_chainMetadata := f_chainMetadata form |}.

(** The [catch] of the block reading: the hash of the transaction is
    recorded all the same; when that conversion throws too, the callback
    ends there ([false]). *)
Definition record_txHash (result : TxResult) (form : Form) : Form * bool :=
  match txHash result with
  | Val t => (set_transactionHash t form, true)
  | Throw => (form, false)
  end.

(** [if (result.status.isInBlock && api) { try { ... } catch { ... } }]:
    the variables of the closure afterwards, and whether the callback
    goes on. *)
Definition read_block (api : bool) (result : TxResult) (form : Form) : Form * bool :=
  if isInBlock result && api then
    match getBlock result with
    | Throw => record_txHash result form
    | Val (number, hash) =>
        match number with
        | Throw => record_txHash result form
        | Val n =>
            let form1 := set_blockNumber n form in
            match hash with
            | Throw => record_txHash result form1
            | Val h => record_txHash result (set_blockHash h form1)
            end
        end
    end
  else (form, true).

(** How a run of the callback ends. *)
Inductive Verdict : Type :=
| Rejected (errorMessage : string)   (* [setError], nothing else *)
| Ignored                            (* neither in a block nor finalized *)
| Aborted                            (* an exception leaves the callback *)
| Created (pollId : num).            (* [setSuccess(true)] *)

Record Reaction : Type := {
  verdict : Verdict;
  closure : Form;        (* the variables of the closure afterwards *)
  database : Idb;
  notified : bool        (* [onPollCreated] was called *)
}.

(** The callback; [onPollCreated] says whether the component was given
    one, [now] and [later] are the readings of the clock of the caching
    step. *)
Definition on_status (now later : Z) (api onPollCreated : bool) (chain : Chain)
           (result : TxResult) (form : Form) (db : Idb) : Reaction :=
  match dispatchError result with
  | Some e =>
      {| verdict := Rejected (dispatch_message api e); closure := form;
         database := db; notified := false |}
  | None =>
      if existsb extrinsic_failed (default [] (events result)) then
        {| verdict := Rejected "La transacción falló en la cadena. Verifica que tengas suficientes fondos y permisos.";
           closure := form; database := db; notified := false |}
      else if isInBlock result || isFinalized result then
        match read_block api result form with
        | (form1, false) =>
            {| verdict := Aborted; closure := form1; database := db;
               notified := false |}
        | (form1, true) =>
            if negb (prints result) then
              {| verdict := Aborted; closure := form1; database := db;
                 notified := false |}
            else
              let '(pollId, db') :=
                resolveAndCache now later form1 (default [] (events result))
                                chain db in
              {| verdict := Created pollId; closure := form1;
                 database := db'; notified := onPollCreated |}
        end
      else
        {| verdict := Ignored; closure := form; database := db;
           notified := false |}
  end.

End Submission.

(** ** Shapes and measures used by the properties of the code above *)

Module Shapes.
Import PollList Fixtures CreatePoll Database Confirmation Submission.

(** Encodings of a count [n] that prints as [s]. *)
Definition count_encodings (s : string) (n : Z) : list val :=
  [ codec (plain [("Ok", Str s)]);
    codec (plain [("ok", Str s)]);
    codec (plain [("Ok", Number (Num n))]);
    codec (plain [("ok", Number (Num n))]);
    codec (Number (Num n));
    codec (plain [("value", Str s)]);
    codec (Arr [Str s]);
    plain [("ok", Number (Num n))];
    plain [("Ok", Number (Num n))];
    plain [("Ok", Obj [] None (Some (Val (Num n))) None)];
    Obj [] None (Some (Val (Num n))) None;
    Number (Num n) ].

(** Those of them that carry the count as a text only. *)
Definition text_encodings (s : string) : list val :=
  [ codec (plain [("Ok", Str s)]);
    codec (plain [("ok", Str s)]);
    codec (plain [("value", Str s)]);
    codec (Arr [Str s]) ].

(** The thousands separator of [toHuman]. *)
Definition comma : ascii := ","%char.

(** Integers a double holds exactly. *)
Definition safe (z : Z) : bool := (- 2 ^ 53 <? z) && (z <? 2 ^ 53).

Definition safe_num (n : num) : bool :=
  match n with NaN => true | Num z => safe z end.

(** The characters of the numeric literals [Number] accepts (digits,
    signs, the point, the exponent mark, the letters of the radix
    prefixes, of the hexadecimal digits and of [Infinity]) and white
    space. *)
Definition numeric_char (c : ascii) : bool :=
  let n := nat_of_ascii c in
  ((48 <=? n) && (n <=? 57) || (n =? 43) || (n =? 45) || (n =? 46)
   || (97 <=? n) && (n <=? 102) || (65 <=? n) && (n <=? 70)
   || (n =? 120) || (n =? 88) || (n =? 111) || (n =? 79)
   || (n =? 73) || (n =? 110) || (n =? 105) || (n =? 116) || (n =? 121)
   || (9 <=? n) && (n <=? 13) || (n =? 32))%nat.

(** An ASCII character no numeric literal has: a text with one is [NaN]
    for [Number]. *)
Definition foreign_char (c : ascii) : bool :=
  (nat_of_ascii c <? 128)%nat && negb (numeric_char c).

(** A text on which [Number_str] is [Number]: it reads as an integer a
    double holds exactly, or it has a character that makes it [NaN]. *)
Definition exact_text (s : string) : bool :=
  match Number_str s with
  | Num z => safe z
  | NaN => existsb foreign_char (list_ascii_of_string s)
  end.

(** A value all of whose numbers are such integers and all of whose texts
    are such texts, whatever its methods return included. *)
Fixpoint exact (v : val) : bool :=
  match v with
  | Undef | Null | Bool _ => true
  | Number n => safe_num n
  | Str s => exact_text s
  | Arr items => forallb exact items
  | Obj props toHuman toNumber toStr =>
      forallb (fun p => exact (snd p)) props
      && match toHuman with Some (Val h) => exact h | _ => true end
      && match toNumber with Some (Val n) => safe_num n | _ => true end
      && match toStr with Some s => exact_text s | None => true end
  end.



(** The status updates in which the callback reaches the search of the
    identifier: no dispatch error, no [system.ExtrinsicFailed] event, in
    a block or finalized, and neither the reading of the block nor the
    printing of the result throws. *)
Definition reaches_search (api : bool) (result : TxResult) : bool :=
  match dispatchError result with Some _ => false | None => true end
  && negb (existsb extrinsic_failed (default [] (events result)))
  && (isInBlock result || isFinalized result)
  && (negb (isInBlock result && api)
      || match txHash result with Val _ => true | Throw => false end)
  && prints result.

(** A record with another [lastSynced]. *)
Definition restamp (now : Z) (view : PollMetadata) : PollMetadata :=
  {| pollId := pollId view; title := title view; description := description view;
     optionNames := optionNames view; maxOptions := maxOptions view;
     duration := duration view; endsAt := endsAt view; createdAt := createdAt view;
     blockNumber := blockNumber view; blockHash := blockHash view;
     transactionHash := transactionHash view; chainMetadata := chainMetadata view;
     totalVotes := totalVotes view; isActive := isActive view;
     creator := creator view; lastSynced := Some (Num now) |}.

(** Ticks of the confirmation effect that still await their count. *)
Definition awaiting_total (t : Tick) : bool :=
  match t with AwaitTotal => true | AwaitLoad _ => false end.

Definition pending_totals (w : Effect) : nat :=
  length (filter (fun t => awaiting_total t = true) (ticks w)).

Definition interval_fires (e : Event) : bool :=
  match e with IntervalFires => true | _ => false end.

(** Every call of [loadPolls] and every pending count belongs to a tick,
    and nothing has happened while the timeout is still armed. *)
Definition accounted (w : Effect) : Prop :=
  (length (loads w) + pending_totals w <= attempts w)%nat
  /\ (timeoutId_armed w = true ->
      checkInterval w = None /\ baseline_pending w = false
      /\ ticks w = [] /\ loads w = []).

End Shapes.

(** ** Receipts with events of other pallets *)

Module Samples.
Import CreatePoll.



(** The [system.ExtrinsicFailed] event of an extrinsic that failed. *)
Definition extrinsic_failure : EventRecord :=
  {| event := Some {| section := "system"; method := "ExtrinsicFailed";
                      identifier := None; data := Arr [] |};
     decodeEvent := Throw |}.

(** A status update for a transaction included in block 100, with the
    events given. *)
Definition included (events : list EventRecord) : Submission.TxResult :=
  {| Submission.dispatchError := None;
     Submission.events := Some events;
     Submission.isInBlock := true;
     Submission.isFinalized := false;
     Submission.getBlock := Val (Val (Num 100), Val "0xb10c");
     Submission.txHash := Val "0x7a";
     Submission.prints := true |}.

(** A status update that arrives before the transaction is in a block. *)
Definition broadcast : Submission.TxResult :=
  {| Submission.dispatchError := None;
     Submission.events := None;
     Submission.isInBlock := false;
     Submission.isFinalized := false;
     Submission.getBlock := Throw;
     Submission.txHash := Val "0x7a";
     Submission.prints := true |}.

(** A status update with a dispatch error of the [contracts] pallet. *)
Definition out_of_gas : Submission.TxResult :=
  {| Submission.dispatchError :=
       Some {| Submission.findMetaError :=
                 Val (Some {| Submission.e_section := "contracts";
                              Submission.e_name := "OutOfGas";
                              Submission.e_docs := None |});
               Submission.error_text := Val "Module" |};
     Submission.events := Some [Receipts.decoded_42];
     Submission.isInBlock := true;
     Submission.isFinalized := false;
     Submission.getBlock := Val (Val (Num 100), Val "0xb10c");
     Submission.txHash := Val "0x7a";
     Submission.prints := true |}.

End Samples.

(** ** [utils/logger.ts]: the in-memory log *)

Module Logging.

Inductive LogLevel : Type := INFO | SUCCESS | WARNING | ERROR | DEBUG.

Record LogEntry : Type := {
  id : string;
  timestamp : Z;
  level : LogLevel;
  message : string;
  data : val;                 (* [undefined] when the caller passes none *)
  source : option string
}.

(** A listener is known by its identity (the [Set] compares functions by
    reference); listeners only observe: they neither throw nor call the
    logger back. *)
Definition Listener : Type := nat.

Record Logger : Type := {
  logs : list LogEntry;
  listeners : list Listener     (* a [Set], in insertion order *)
}.

Definition maxLogs : nat := 1000.

(** [new Logger()] *)
Definition fresh : Logger := {| logs := []; listeners := [] |}.

(** [l.slice(-n)] for a positive [n]. *)
Definition slice_from_end {A : Type} (n : nat) (l : list A) : list A :=
  drop (length l - n) l.

Definition getEmoji (level : LogLevel) : string :=
  match level with
  | SUCCESS => "✅"
  | WARNING => "⚠️"
  | ERROR => "❌"
  | DEBUG => "🔍"
  | INFO => "📋"
  end.

(** What one call does besides updating the logger: the listeners called,
    in order, each with the copy of the log it receives, and the line
    written to the console with its second argument. *)
Record Effects : Type := {
  notified : list (Listener * list LogEntry);
  printed : option (string * val)
}.

(** [log(level, message, data, source)]; [first] and [now] are the two
    readings of the clock and [random] the suffix drawn for the
    identifier. *)
Definition log (first : Z) (random : string) (now : Z) (level : LogLevel)
           (message : string) (data : val) (source : option string)
           (lg : Logger) : Logger * Effects :=
  let entry := {| id := pretty first +:+ "-" +:+ random; timestamp := now;
                  level := level; message := message; data := data;
                  source := source |} in
  let pushed := (logs lg ++ [entry])%list in
  let kept := if (maxLogs <? length pushed)%nat
              then slice_from_end maxLogs pushed else pushed in
  let prefix := match source with
                | Some s => if negb (String.eqb s EmptyString)
                            then "[" +:+ s +:+ "]" else EmptyString
                | None => EmptyString
                end in
  ({| logs := kept; listeners := listeners lg |},
   {| notified := map (fun l => (l, kept)) (listeners lg);
      printed := Some (getEmoji level +:+ " " +:+ prefix +:+ " " +:+ message,
                       or_val data (Str EmptyString)) |}).

Definition getLogs (lg : Logger) : list LogEntry := logs lg.

Definition level_eqb (a b : LogLevel) : bool :=
  match a, b with
  | INFO, INFO | SUCCESS, SUCCESS | WARNING, WARNING
  | ERROR, ERROR | DEBUG, DEBUG => true
  | _, _ => false
  end.

Definition getLogsByLevel (lvl : LogLevel) (lg : Logger) : list LogEntry :=
  List.filter (fun e => level_eqb (level e) lvl) (logs lg).

Definition getLogsBySource (src : string) (lg : Logger) : list LogEntry :=
  List.filter (fun e => match source e with
                        | Some s => String.eqb s src
                        | None => false
                        end) (logs lg).

Definition clear (lg : Logger) : Logger * Effects :=
  ({| logs := []; listeners := listeners lg |},
   {| notified := map (fun l => (l, [])) (listeners lg); printed := None |}).

(** [subscribe(listener)] and the function it returns. *)
Definition subscribe (l : Listener) (lg : Logger) : Logger :=
  {| logs := logs lg;
     listeners := if bool_decide (l ∈ listeners lg) then listeners lg
                  else (listeners lg ++ [l])%list |}.

Definition unsubscribe (l : Listener) (lg : Logger) : Logger :=
  {| logs := logs lg;
     listeners := filter (fun x => x <> l) (listeners lg) |}.

Definition info first random now := log first random now INFO.
Definition success first random now := log first random now SUCCESS.
Definition warning first random now := log first random now WARNING.
Definition error first random now := log first random now ERROR.
Definition debug first random now := log first random now DEBUG.
Definition contract first random now message data :=
  log first random now INFO message data (Some "contract").
Definition database first random now message data :=
  log first random now INFO message data (Some "database").
Definition api first random now message data :=
  log first random now INFO message data (Some "api").
Definition chain first random now message data :=
  log first random now INFO message data (Some "chain").
Definition blockchain first random now message data :=
  log first random now INFO message data (Some "chain").

(** A session: the calls made on the logger, in order. *)
Inductive Call : Type :=
| Log (first : Z) (random : string) (now : Z) (level : LogLevel)
      (message : string) (data : val) (source : option string)
| Clear
| Subscribe (l : Listener)
| Unsubscribe (l : Listener).

Definition call (c : Call) (lg : Logger) : Logger * list (Listener * list LogEntry) :=
  match c with
  | Log first random now level message data source =>
      let '(lg', fx) := log first random now level message data source lg in
      (lg', notified fx)
  | Clear => let '(lg', fx) := clear lg in (lg', notified fx)
  | Subscribe l => (subscribe l lg, [])
  | Unsubscribe l => (unsubscribe l lg, [])
  end.

Fixpoint session (calls : list Call) (lg : Logger)
  : Logger * list (Listener * list LogEntry) :=
  match calls with
  | [] => (lg, [])
  | c :: rest =>
      let '(lg1, n1) := call c lg in
      let '(lg2, n2) := session rest lg1 in
      (lg2, (n1 ++ n2)%list)
  end.

(** The entries logged since the last [clear], without any bound. *)
Fixpoint since_clear (calls : list Call) (acc : list LogEntry) : list LogEntry :=
  match calls with
  | [] => acc
  | Log first random now level message data source :: rest =>
      since_clear rest
        (acc ++ [{| id := pretty first +:+ "-" +:+ random; timestamp := now;
                    level := level; message := message; data := data;
                    source := source |}])%list
  | Clear :: rest => since_clear rest []
  | _ :: rest => since_clear rest acc
  end.

Definition announces (c : Call) : bool :=
  match c with Log _ _ _ _ _ _ _ | Clear => true | _ => false end.

Definition is_unsubscribe (l : Listener) (c : Call) : bool :=
  match c with Unsubscribe x => Nat.eqb x l | _ => false end.

Definition is_subscribe (l : Listener) (c : Call) : bool :=
  match c with Subscribe x => Nat.eqb x l | _ => false end.

(** The notifications a listener received. *)
Definition received (l : Listener) (ns : list (Listener * list LogEntry))
  : list (list LogEntry) :=
  map snd (filter (fun n => fst n = l) ns).

(** The state of the log right after each [log] and each [clear]. *)
Fixpoint announced (calls : list Call) (lg : Logger) : list (list LogEntry) :=
  match calls with
  | [] => []
  | c :: rest =>
      let lg1 := fst (call c lg) in
      if announces c then logs lg1 :: announced rest lg1
      else announced rest lg1
  end.

End Logging.

(** ** [utils/database.ts]: listing the polls *)

Module Listing.
Import Database.

(** The order of the keys of an object store. *)
Definition by_key (a b : Z * PollMetadata) : Prop := a.1 <= b.1.

#[global] Instance by_key_dec : RelDecision by_key.
Proof. intros a b. unfold by_key. apply _. Defined.

(** [getAllPollMetadata]: [store.getAll()] returns the rows in the order
    of their keys; [request.result || []]. *)
Definition getAllPollMetadata (db : Idb) : res (list PollMetadata) :=
  if negb (opens db) then Throw
  else if negb (has_polls db) then Throw
  else if negb (reads db) then Throw
  else Val (snd <$> merge_sort by_key (map_to_list (polls db))).

End Listing.

(** ** [utils/database.ts]: the votes store *)

Module Votes.

(** [interface VoteRecord] *)
Record VoteRecord : Type := {
  pollId : num;
  optionIndex : num;
  timestamp : num;
  blockNumber : option num;
  transactionHash : option string
}.

(** The [votes] object store: its rows under the key path
    [['pollId', 'timestamp']], in the order of their keys; whether the
    store exists, and whether a read and a write request succeed. *)
Record VoteStore : Type := {
  base : Database.Idb;
  has_votes : bool;
  votes_read : bool;
  votes_write : bool;
  votes : list ((Z * Z) * VoteRecord)
}.

Definition with_votes (s : VoteStore) (rows : list ((Z * Z) * VoteRecord))
  : VoteStore :=
  {| base := base s; has_votes := has_votes s; votes_read := votes_read s;
     votes_write := votes_write s; votes := rows |}.

(** Array keys compare position by position. *)
Definition key_ltb (a b : Z * Z) : bool :=
  (a.1 <? b.1) || ((a.1 =? b.1) && (a.2 <? b.2)).

Definition key_eqb (a b : Z * Z) : bool := (a.1 =? b.1) && (a.2 =? b.2).

(** [store.put]: a row under an existing key is replaced. *)
Fixpoint put (k : Z * Z) (v : VoteRecord) (rows : list ((Z * Z) * VoteRecord))
  : list ((Z * Z) * VoteRecord) :=
  match rows with
  | [] => [(k, v)]
  | (k', v') :: rest =>
      if key_ltb k k' then (k, v) :: rows
      else if key_eqb k k' then (k, v) :: rest
      else (k', v') :: put k v rest
  end.

(** [saveVoteRecord] *)
Definition saveVoteRecord (vote : VoteRecord) (s : VoteStore) : res VoteStore :=
  if negb (Database.opens (base s)) then Throw
  else if negb (has_votes s) then Throw
  else
    match pollId vote, timestamp vote with
    | Num p, Num t =>
        if negb (votes_write s) then Throw
        else Val (with_votes s (put (p, t) vote (votes s)))
    | _, _ => Throw  (* not a valid key *)
    end.

(** The index [pollId] holds the rows by their [pollId] property, rows of
    one poll in the order of their keys. *)
Definition indexed (p : Z) (row : (Z * Z) * VoteRecord) : bool :=
  match pollId row.2 with Num q => q =? p | NaN => false end.

(** [getVotesForPoll]: [request.result || []]. *)
Definition getVotesForPoll (id : num) (s : VoteStore) : res (list VoteRecord) :=
  if negb (Database.opens (base s)) then Throw
  else if negb (has_votes s) then Throw
  else
    match id with
    | Num p =>
        if negb (votes_read s) then Throw
        else Val (snd <$> filter (fun row => indexed p row = true) (votes s))
    | NaN => Throw  (* not a valid key *)
    end.

(** The store right after the schema is created. *)
Definition no_votes : VoteStore :=
  {| base := Database.empty_db; has_votes := true; votes_read := true;
     votes_write := true; votes := [] |}.

(** The votes recorded by a sequence of calls, failed calls leaving the
    store as it was. *)
Fixpoint record_all (vs : list VoteRecord) (s : VoteStore) : VoteStore :=
  match vs with
  | [] => s
  | v :: rest =>
      match saveVoteRecord v s with
      | Val s' => record_all rest s'
      | Throw => record_all rest s
      end
  end.

(** Rows sit under the key read from them, in strictly ascending order. *)
Definition key_lt (a b : Z * Z) : Prop :=
  a.1 < b.1 \/ (a.1 = b.1 /\ a.2 < b.2).

Definition well_keyed (rows : list ((Z * Z) * VoteRecord)) : Prop :=
  StronglySorted key_lt (fst <$> rows)
  /\ Forall (fun row => pollId row.2 = Num row.1.1
                        /\ timestamp row.2 = Num row.1.2) rows.

End Votes.

(** ** Two votes on poll 1 cast in the same millisecond *)

Module Ballots.
Import Votes.

Definition ballot_a : VoteRecord :=
  {| pollId := Num 1; optionIndex := Num 0; timestamp := Num 20;
     blockNumber := None; transactionHash := None |}.

Definition ballot_b : VoteRecord :=
  {| pollId := Num 1; optionIndex := Num 1; timestamp := Num 20;
     blockNumber := Some (Num 7); transactionHash := None |}.

End Ballots.

(** ** [utils/contract-metadata.ts]: merging every poll of the contract *)

Module Batch.
Import Database ContractMetadata.

(** The address of the queries: [queryAddress], else the address of the
    first development account; the batch gives up without one. *)
Definition batch_address (c : Contract) (queryAddress : option string)
  : res string :=
  let given := match queryAddress with
               | Some a => if negb (String.eqb a EmptyString) then Some a else None
               | None => None
               end in
  let* address :=
    match given with
    | Some a => Val (Some a)
    | None =>
        let* devAccounts := getDevAccounts c in
        match devAccounts with a :: _ => Val (Some a) | [] => Val None end
    end in
  match address with
  | Some a => if negb (String.eqb a EmptyString) then Val a else Throw
  | None => Throw  (* 'No se pudo obtener dirección de query' *)
  end.

(** [for (let i = 1; i <= totalPolls; i++)] *)
Definition indices (totalPolls : num) : list Z :=
  match totalPolls with
  | Num n => seqZ 1 n
  | NaN => []
  end.

(** The loop: every poll is merged on its own, and the polls whose merge
    returns [null] are left out. [clock i] gives the two readings of the
    clock during the merge of poll [i]. *)
Fixpoint sync_each (clock : Z -> Z * Z) (c : Contract) (address : string)
         (ids : list Z) (db : Idb) : list PollMetadata * Idb :=
  match ids with
  | [] => ([], db)
  | i :: rest =>
      let '(metadata, db1) :=
        syncPollMetadata (clock i).1 (clock i).2 c (Num i) (Some address) db in
      let '(syncedPolls, db2) := sync_each clock c address rest db1 in
      (match metadata with
       | Some m => m :: syncedPolls
       | None => syncedPolls
       end, db2)
  end.

(** [syncAllPollsMetadata]; [getTotalPolls] is the query of the total. *)
Definition syncAllPollsMetadata (clock : Z -> Z * Z) (c : Contract)
           (getTotalPolls : string -> res val) (queryAddress : option string)
           (db : Idb) : list PollMetadata * Idb :=
  match (let* address := batch_address c queryAddress in
         let* totalResult := getTotalPolls address in
         let* totalPolls := totalPolls_of totalResult in
         Val (address, totalPolls)) with
  | Val (address, totalPolls) =>
      sync_each clock c address (indices totalPolls) db
  | Throw => ([], db)
  end.

(** The polls of [1..n] that the contract returns. *)
Definition readable (c : Contract) (address : string) (n : Z) : list Z :=
  filter (fun i => is_Some (getPollMetadataFromContract c (Num i) (Some address)))
         (seqZ 1 n).

End Batch.

(** ** A contract of three polls whose second poll cannot be read *)

Module Ledgers.
Import ContractMetadata Fixtures.

Definition contract_gap : Contract :=
  {| getPoll := fun _ n =>
       match n with
       | Num 1 => Val (answers (poll_tuple "1" "2"))
       | Num 3 => Val (answers (poll_tuple "3" "2"))
       | _ => Throw
       end;
     getAllTallies := fun _ _ => Val (answers (Arr [Str "3"; Str "4"]));
     getDevAccounts := Val [alice] |}.

Definition total_3 : string -> res val := fun _ => Val (answers (Str "3")).

Definition clock_5_6 : Z -> Z * Z := fun _ => (5, 6).

End Ledgers.

(** ** [PollList.tsx]: reading one poll and loading the list *)

Module Polls.
Import Database ContractMetadata.

(** Outcome of a call whose exception is inspected by the caller: what is
    caught is the [message] of the error, if it has one. *)
Inductive outcome (A : Type) : Type :=
| Returns (a : A)
| Raises (message : option string).
Global Arguments Returns {A} a.
Global Arguments Raises {A} message.

Definition forget {A : Type} (o : outcome A) : res A :=
  match o with Returns a => Val a | Raises _ => Throw end.

(** The contract as the component uses it: the two queries, the
    development accounts, and the message of the exception thrown while
    the result of a query is read (by its codec or by the engine). *)
Record Remote : Type := {
  r_getPoll : string -> num -> outcome val;
  r_getAllTallies : string -> num -> res val;
  r_getDevAccounts : res (list string);
  read_error : val -> option string
}.

(** The same contract as [contract-metadata.ts] is handed it. *)
Definition contract_of (r : Remote) : Contract :=
  {| getPoll := fun a n => forget (r_getPoll r a n);
     getAllTallies := r_getAllTallies r;
     getDevAccounts := r_getDevAccounts r |}.

(** [s.includes(needle)] *)
Fixpoint includes (needle s : string) : bool :=
  String.prefix needle s
  || match s with
     | String _ rest => includes needle rest
     | EmptyString => false
     end.

(** [error.message?.includes(needle)] as a condition. *)
Definition message_includes (needle : string) (message : option string) : bool :=
  match message with Some m => includes needle m | None => false end.

(** [!queryAddress] *)
Definition given (queryAddress : option string) : option string :=
  match queryAddress with
  | Some a => if negb (String.eqb a EmptyString) then Some a else None
  | None => None
  end.

(** [getVoteTallies]: every failure gives the empty list. *)
Definition getVoteTallies (r : Remote) (queryAddress : option string)
           (pollId : num) : list num :=
  catch
    match given queryAddress with
    | None => Val []
    | Some address =>
        let* result := r_getAllTallies r address pollId in
        let* output := human_output result in
        if negb (truthy output) then Val []
        else
          let* tallies := get "Ok" output in
          if negb (truthy tallies) then Val []
          else match tallies with
               | Arr l => Val (number_or0 <$> l)
               | _ => Val []
               end
    end
    [].

(** [getPoll]: [None] stands for [{ exists: false }]. The tallies come
    from [getVoteTallies], which does not throw, so the zeros of the
    inner [catch] are never produced. An error whose message names
    [AccountId] or [32 bytes] is swallowed, any other is thrown again. *)
Definition getPoll (r : Remote) (queryAddress : option string) (pollId : num)
  : outcome (option ContractPollData) :=
  match given queryAddress with
  | None => Returns None
  | Some address =>
      let attempt :=
        match r_getPoll r address pollId with
        | Raises m => Raises m
        | Returns result =>
            match
              (let* output := human_output result in
               if negb (truthy output) then Val None
               else
                 let* ok := get "Ok" output in
                 if negb (truthy ok) then Val None
                 else
                   let* fields := iterate ok in
                   let creatorAddress := creator_address (at_ 6 fields) in
                   let pollIdNum := number_or0 (at_ 1 fields) in
                   let voteTallies := getVoteTallies r queryAddress pollIdNum in
                   Val (Some
                     {| exists_ := is_true (at_ 0 fields);
                        id := pollIdNum;
                        c_title := string_or_empty (at_ 2 fields);
                        c_description := string_or_empty (at_ 3 fields);
                        merkleRoot := string_or_empty (at_ 4 fields);
                        c_maxOptions := number_or0 (at_ 5 fields);
                        c_creator := creatorAddress;
                        c_isActive := is_true (at_ 7 fields);
                        c_totalVotes := number_or0 (at_ 8 fields);
                        c_createdAt := number_or0 (at_ 9 fields);
                        c_endsAt := number_or0 (at_ 10 fields);
                        voteTallies := voteTallies |}))
            with
            | Val poll => Returns poll
            | Throw => Raises (read_error r result)
            end
        end in
      match attempt with
      | Returns poll => Returns poll
      | Raises m =>
          if message_includes "AccountId" m || message_includes "32 bytes" m
          then Returns None
          else Raises m
      end
  end.

(** [interface Poll] of the list. *)
Record Poll : Type := {
  p_id : num;
  p_title : string;
  p_description : string;
  p_maxOptions : num;
  p_totalVotes : num;
  p_isActive : bool;
  p_creator : string;
  p_createdAt : num;
  p_endsAt : num;
  p_voteTallies : list num;
  p_optionNames : option (list string)
}.

(** [a || b] on strings and on numbers. *)
Definition or_str (a b : string) : string :=
  if negb (String.eqb a EmptyString) then a else b.

Definition or_num (a b : num) : num := if num_truthy a then a else b.

(** [contractPollData?.f], with [d] for [undefined]. *)
Definition remote_or {A : Type} (contractPollData : option ContractPollData)
           (f : ContractPollData -> A) (d : A) : A :=
  match contractPollData with Some c => f c | None => d end.

(** The body of the loop for a poll that passed the test: the contract
    data are read again and merged into the cache, then the row of the
    cache supplies the option names and, where the contract left them
    empty, the title and the description. *)
Definition entry (now later : Z) (c : Contract) (address : string)
           (poll : ContractPollData) (db : Idb) : Poll * Idb :=
  let contractPollData := getPollMetadataFromContract c (id poll) (Some address) in
  let db1 :=
    match contractPollData with
    | Some _ => (syncPollMetadata now later c (id poll) (Some address) db).2
    | None => db
    end in
  let metadataTitle :=
    or_str (remote_or contractPollData c_title EmptyString) (c_title poll) in
  let metadataDescription :=
    or_str (remote_or contractPollData c_description EmptyString)
           (c_description poll) in
  let metadataEndsAt :=
    or_num (remote_or contractPollData c_endsAt NaN) (c_endsAt poll) in
  let metadataMaxOptions :=
    or_num (remote_or contractPollData c_maxOptions NaN) (c_maxOptions poll) in
  let metadataTotalVotes :=
    remote_or contractPollData c_totalVotes (c_totalVotes poll) in
  let metadataIsActive :=
    remote_or contractPollData c_isActive (c_isActive poll) in
  let metadataCreatedAt :=
    or_num (remote_or contractPollData c_createdAt NaN) (c_createdAt poll) in
  let metadataVoteTallies :=
    remote_or contractPollData voteTallies (voteTallies poll) in
  let metadata := catch (getPollMetadata (id poll) db1) None in
  let optionNames :=
    match metadata with
    | Some m => match optionNames m with [] => None | names => Some names end
    | None => None
    end in
  ({| p_id := id poll;
      p_title :=
        match metadata with
        | Some m => or_str metadataTitle (title m)
        | None => metadataTitle
        end;
      p_description :=
        match metadata with
        | Some m => or_str metadataDescription (description m)
        | None => metadataDescription
        end;
      p_maxOptions := or0 metadataMaxOptions;
      p_totalVotes := or0 metadataTotalVotes;
      p_isActive := metadataIsActive;
      p_creator := or_str (or_str (remote_or contractPollData c_creator EmptyString)
                                  (c_creator poll)) EmptyString;
      p_createdAt := or0 metadataCreatedAt;
      p_endsAt := or0 metadataEndsAt;
      p_voteTallies := metadataVoteTallies;
      p_optionNames := optionNames |}, db1).

(** [poll.exists && poll.id && poll.title && poll.description !== undefined] *)
Definition listed (poll : option ContractPollData) : bool :=
  match poll with
  | Some p => exists_ p && num_truthy (id p)
              && negb (String.eqb (c_title p) EmptyString)
  | None => false
  end.

(** The loop of [loadPolls] from poll [i] on; the first [getPoll] that
    throws ends it. *)
Fixpoint load_each (clock : Z -> Z * Z) (r : Remote) (address : string)
         (ids : list Z) (db : Idb) : outcome (list Poll) * Idb :=
  match ids with
  | [] => (Returns [], db)
  | i :: rest =>
      match getPoll r (Some address) (Num i) with
      | Raises m => (Raises m, db)
      | Returns poll =>
          if listed poll then
            match poll with
            | Some p =>
                let '(e, db1) :=
                  entry (clock i).1 (clock i).2 (contract_of r) address p db in
                match load_each clock r address rest db1 with
                | (Returns pollsData, db2) => (Returns (e :: pollsData), db2)
                | (Raises m, db2) => (Raises m, db2)
                end
            | None => load_each clock r address rest db
            end
          else load_each clock r address rest db
      end
  end.

(** An entry of the list that can be displayed and voted on. *)
Definition sane (e : Poll) : Prop :=
  (exists k, p_id e = Num k /\ k <> 0)
  /\ String.eqb (p_title e) EmptyString = false.

(** What [loadPolls] leaves on the screen: nothing new without an
    address, the list given to [setPolls], or the error given to
    [setError]. *)
Inductive Loaded : Type :=
| Idle
| Shown (pollsData : list Poll)
| Failed (message : string).

(** [String(err.message)] inside the template. *)
Definition message_text (message : option string) : string :=
  match message with Some m => m | None => "undefined" end.

Definition loadPolls (clock : Z -> Z * Z) (r : Remote)
           (getTotalPolls : string -> res val) (queryAddress : option string)
           (db : Idb) : Loaded * Idb :=
  match given queryAddress with
  | None => (Idle, db)
  | Some address =>
      let totalPolls := PollList.getTotalPolls queryAddress getTotalPolls in
      match load_each clock r address (Batch.indices totalPolls) db with
      | (Returns pollsData, db') => (Shown pollsData, db')
      | (Raises m, db') =>
          (Failed ("Error al cargar las encuestas: " +:+ message_text m), db')
      end
  end.

End Polls.

(** ** The same ledgers as the list of polls sees them *)

Module Remotes.
Import ContractMetadata Polls Fixtures.

(** Polls 1 and 3 can be read; the query of any other poll fails on the
    creator's address. *)
Definition remote_gap : Remote :=
  {| r_getPoll := fun _ n =>
       match n with
       | Num 1 => Returns (answers (poll_tuple "1" "2"))
       | Num 3 => Returns (answers (poll_tuple "3" "2"))
       | _ => Raises (Some "Invalid AccountId provided, expected 32 bytes, found 20")
       end;
     r_getAllTallies := fun _ _ => Val (answers (Arr [Str "3"; Str "4"]));
     r_getDevAccounts := Val [alice];
     read_error := fun _ => Some "output.Ok is not iterable" |}.

(** The node is unreachable. *)
Definition remote_down : Remote :=
  {| r_getPoll := fun _ _ => Raises (Some "disconnected");
     r_getAllTallies := fun _ _ => Throw;
     r_getDevAccounts := Val [alice];
     read_error := fun _ => None |}.


End Remotes.

(** ** [CreatePollForm]: the fields of the form *)

Module FormFields.
Import CreatePoll.

(** [parseInt(s)]: leading blanks, a sign, then the longest run of decimal
    digits, or of hexadecimal digits after [0x]. *)
Definition parseInt (s : string) : num :=
  let t := drop_spaces s in
  let '(neg, u) :=
    match t with
    | String "-" r => (true, r)
    | String "+" r => (false, r)
    | _ => (false, t)
    end in
  let digits :=
    match u with
    | String "0" (String "x" r) | String "0" (String "X" r) =>
        leading_digits hex_of 16 0 false r
    | _ => leading_digits digit_of 10 0 false u
    end in
  match digits with
  | Some z => Num (if neg then - z else z)
  | None => NaN
  end.

(** [n || d] *)
Definition or_default (n : num) (d : Z) : num := if num_truthy n then n else Num d.

(** The [onChange] handlers of the two numeric inputs: the value given
    to [setMaxOptions] and to [setDuration]. *)
Definition onMaxOptionsChange (value : string) : num := or_default (parseInt value) 2.




(** [optionNames[i] || `Opción ${i + 1}`] *)
Definition option_name (optionNames : list string) (i : nat) : string :=
  match optionNames !! i with
  | Some name => if negb (String.eqb name EmptyString) then name
                 else "Opción " +:+ pretty (Z.of_nat i + 1)
  | None => "Opción " +:+ pretty (Z.of_nat i + 1)
  end.

(** The effect on [maxOptions]:
    [Array.from({ length: maxOptions }, (_, i) => ...)]; a length that is
    not below 2^32 is a [RangeError]. *)
Definition resize (maxOptions : Z) (optionNames : list string) : res (list string) :=
  if 2 ^ 32 <=? maxOptions then Throw
  else Val (option_name optionNames <$> seq 0 (Z.to_nat maxOptions)).

(** The [onChange] of the input of option [index]. *)
Definition onOptionNameChange (index : nat) (value : string)
           (optionNames : list string) : list string :=
  <[index := value]> optionNames.

End FormFields.

(** ** [VoteModal.tsx]: loading the poll and guarding the vote *)

Module VoteModal.

(** The object given to [setPoll]. *)
Record PollView : Type := {
  exists_ : bool;
  id : num;
  title : string;
  description : string;
  maxOptions : num;
  isActive : bool;
  totalVotes : num
}.

(** The two queries of the dialog. *)
Record Queries : Type := {
  getPoll : string -> num -> res val;
  getVoteTally : string -> num -> Z -> res val
}.

(** The state of the component. *)
Record State : Type := {
  poll : option PollView;
  selectedOption : Z;
  loading : bool;
  voting : bool;
  error : option string;
  tallies : list num
}.

Definition initial : State :=
  {| poll := None; selectedOption := 0; loading := true; voting := false;
     error := None; tallies := [] |}.

Definition setPoll (p : PollView) (s : State) : State :=
  {| poll := Some p; selectedOption := selectedOption s; loading := loading s;
     voting := voting s; error := error s; tallies := tallies s |}.

Definition setTallies (t : list num) (s : State) : State :=
  {| poll := poll s; selectedOption := selectedOption s; loading := loading s;
     voting := voting s; error := error s; tallies := t |}.

Definition setError (e : option string) (s : State) : State :=
  {| poll := poll s; selectedOption := selectedOption s; loading := loading s;
     voting := voting s; error := e; tallies := tallies s |}.

Definition setLoading (b : bool) (s : State) : State :=
  {| poll := poll s; selectedOption := selectedOption s; loading := b;
     voting := voting s; error := error s; tallies := tallies s |}.

Definition setSelectedOption (i : Z) (s : State) : State :=
  {| poll := poll s; selectedOption := i; loading := loading s;
     voting := voting s; error := error s; tallies := tallies s |}.

(** One tally: the numeric conversion of the output when it has one. *)
Definition tally_of (tallyResult : val) : res num :=
  let* output := get "output" tallyResult in
  if truthy output && is_object output then
    let* m := has "toNumber" output in
    if (m : bool) then let* n := call_toNumber output in Val (or0 n)
    else Val (Num 0)
  else Val (Num 0).

(** [for (let i = 0; i < Number(maxOptions); i++)] *)
Definition options (maxOptions : num) : list Z :=
  match maxOptions with
  | Num n => seqZ 0 n
  | NaN => []
  end.

Fixpoint load_tallies (q : Queries) (address : string) (pollId : num)
         (indices : list Z) : res (list num) :=
  match indices with
  | [] => Val []
  | i :: rest =>
      let* tallyResult := getVoteTally q address pollId i in
      let* tally := tally_of tallyResult in
      let* talliesData := load_tallies q address pollId rest in
      Val (tally :: talliesData)
  end.

(** The [catch] and the [finally] of [loadPollData]. *)
Definition failed (s : State) : State :=
  setLoading false (setError (Some "Error al cargar la encuesta") s).

(** [loadPollData]: the poll is set before the tallies are read. *)
Definition loadPollData (q : Queries) (queryAddress : option string)
           (pollId : num) (s : State) : State :=
  match Polls.given queryAddress with
  | None => s
  | Some address =>
      match (let* result := getPoll q address pollId in
             ContractMetadata.human_output result) with
      | Throw => failed s
      | Val output =>
          let ok := get_opt "Ok" output in
          if negb (truthy ok) then setLoading false s
          else
            match ContractMetadata.iterate ok with
            | Throw => failed s
            | Val fields =>
                let at_ := ContractMetadata.at_ in
                let s1 :=
                  setPoll {| exists_ := ContractMetadata.is_true (at_ 0%nat fields);
                             id := ToNumber (at_ 1%nat fields);
                             title := ToString (at_ 2%nat fields);
                             description := ToString (at_ 3%nat fields);
                             maxOptions := ToNumber (at_ 5%nat fields);
                             isActive := ContractMetadata.is_true (at_ 7%nat fields);
                             totalVotes := ToNumber (at_ 8%nat fields) |} s in
                match load_tallies q address pollId
                        (options (ToNumber (at_ 5%nat fields))) with
                | Throw => failed s1
                | Val talliesData => setLoading false (setTallies talliesData s1)
                end
            end
      end
  end.

(** [selectedOption >= n] *)
Definition at_least (i : Z) (n : num) : bool :=
  match n with Num m => m <=? i | NaN => false end.

(** The guard of [handleVote]:
    [!poll || selectedOption < 0 || selectedOption >= poll.maxOptions];
    [true] when the vote goes on. *)
Definition vote_allowed (s : State) : bool :=
  match poll s with
  | None => false
  | Some p =>
      negb ((selectedOption s <? 0) || at_least (selectedOption s) (maxOptions p))
  end.

End VoteModal.

(** ** [utils/polkadot.ts], [utils/account-id.ts], [utils/ss58-util.ts]:
       accounts and addresses

    [decodeAddress] and [encodeAddress] belong to [@polkadot/util-crypto];
    the functions below are parameterized by them. *)

Module Accounts.
Import Polls.

(** An account as the extension lists it, and as the application keeps
    it. *)
Record Injected : Type := {
  i_address : string;
  i_name : option string;
  i_source : string
}.

Record Meta : Type := {
  name : option string;
  source : string
}.

Record AccountInfo : Type := {
  address : string;
  meta : Meta;
  isDevAccount : option bool
}.

(** Bytes are integers between 0 and 255. *)
Definition hex_digit (n : Z) : ascii :=
  ascii_of_nat (Z.to_nat (if n <? 10 then 48 + n else 87 + n)).

(** [Buffer.from(hex, 'hex')]: pairs of digits, up to the first pair that
    is not made of two hexadecimal digits. *)
Fixpoint hex_decode (hex : string) : list Z :=
  match hex with
  | String a (String b rest) =>
      match hex_of a, hex_of b with
      | Some x, Some y => (16 * x + y) :: hex_decode rest
      | _, _ => []
      end
  | _ => []
  end.

(** [Buffer.from(bytes).toString('hex')] *)
Fixpoint hex_encode (bytes : list Z) : string :=
  match bytes with
  | [] => EmptyString
  | b :: rest => String (hex_digit (b / 16)) (String (hex_digit (b mod 16))
                                                     (hex_encode rest))
  end.

(** [s.startsWith('0x') ? s.slice(2) : s] *)
Definition without_0x (s : string) : string :=
  match s with
  | String "0" (String "x" rest) => rest
  | _ => s
  end.

(** A lower-case hexadecimal digit. *)
Definition lower_hex (c : ascii) : bool :=
  let n := nat_of_ascii c in
  ((48 <=? n)%nat && (n <=? 57)%nat) || ((97 <=? n)%nat && (n <=? 102)%nat).

Section Codec.
Variable decodeAddress : string -> res (list Z).
Variable encodeAddress : list Z -> Z -> res string.

(** The first filter of [connectPolkadotExtension]: not a 42-character
    [0x] address, and decoding to 32 bytes. *)
Definition substrate (acc : Injected) : bool :=
  if String.prefix "0x" (i_address acc)
     && (String.length (i_address acc) =? 42)%nat
  then false
  else match decodeAddress (i_address acc) with
       | Val decoded => (length decoded =? 32)%nat
       | Throw => false
       end.

(** [encodeAddress(decodeAddress(address))], with the default format. *)
Definition normalized (address : string) : res string :=
  let* decoded := decodeAddress address in encodeAddress decoded 42.

(** The second filter: the accounts whose normalized address has not
    been seen before. *)
Fixpoint unseen (seen : list string) (accounts : list Injected)
  : list Injected :=
  match accounts with
  | [] => []
  | acc :: rest =>
      match normalized (i_address acc) with
      | Val n =>
          if bool_decide (n ∈ seen) then unseen seen rest
          else acc :: unseen (n :: seen) rest
      | Throw => unseen seen rest
      end
  end.

Definition account_of (acc : Injected) : AccountInfo :=
  {| address := i_address acc;
     meta := {| name := i_name acc; source := i_source acc |};
     isDevAccount := None |}.

(** [connectPolkadotExtension]; [web3Enable] gives the number of
    extensions found. Every error is thrown again under one prefix. *)
Definition connectPolkadotExtension (web3Enable : outcome nat)
           (web3Accounts : outcome (list Injected))
  : outcome (list AccountInfo) :=
  let body : outcome (list AccountInfo) :=
    match web3Enable with
    | Raises m => Raises m
    | Returns O =>
        Raises (Some "No Polkadot extension found. Please install Polkadot.js extension.")
    | Returns _ =>
        match web3Accounts with
        | Raises m => Raises m
        | Returns [] =>
            Raises (Some "No accounts found. Please create an account in Polkadot.js extension.")
        | Returns accounts =>
            match account_of <$> unseen [] (List.filter substrate accounts) with
            | [] =>
                Raises (Some "No se encontraron cuentas Substrate compatibles. Por favor, crea una cuenta Substrate (no Ethereum) en la extensión de Polkadot.js")
            | substrateAccounts => Returns substrateAccounts
            end
        end
    end in
  match body with
  | Returns l => Returns l
  | Raises m =>
      Raises (Some ("Error connecting to Polkadot extension: " +:+ message_text m))
  end.

(** [AccountId(ss58Format, nBytes)]: [decode], [encode] and [isValid]. *)
Definition getSs58AddressInfo (address : string) : bool * list Z :=
  match decodeAddress address with
  | Val decoded => (true, decoded)
  | Throw => (false, [])
  end.

Definition fromBase58ToBuffer (nBytes : nat) (address : string) : res (list Z) :=
  let '(isValid, publicKey) := getSs58AddressInfo address in
  if negb isValid then Throw          (* 'Invalid checksum' *)
  else if negb (length publicKey =? nBytes)%nat then Throw
  else Val publicKey.

Definition decode (nBytes : nat) (address : string) : res (list Z) :=
  fromBase58ToBuffer nBytes address.

Definition encode (ss58Format : Z) (nBytes : nat) (buffer : list Z) : res string :=
  if negb (length buffer =? nBytes)%nat then Throw
  else encodeAddress buffer ss58Format.

Definition isValid (nBytes : nat) (address : string) : bool :=
  match fromBase58ToBuffer nBytes address with
  | Val decoded => (length decoded =? nBytes)%nat
  | Throw => false
  end.

(** [h160ToAccountId32]: the bytes of the address followed by zeros. *)
Definition h160ToAccountId32 (h160 : string) (ss58Format : Z) : res string :=
  let hex := without_0x h160 in
  if negb (String.length hex =? 40)%nat then Throw
  else
    let bytes := hex_decode hex in
    let padded := (bytes ++ replicate (32 - length bytes) 0)%list in
    encodeAddress padded ss58Format.

(** [accountId32ToH160]: the first 20 bytes, in hexadecimal. *)
Definition accountId32ToH160 (accountId32 : string) : res string :=
  let* decoded := decodeAddress accountId32 in
  if (length decoded <? 20)%nat then Throw
  else Val ("0x" +:+ hex_encode (take 20 decoded)).

End Codec.

End Accounts.

(** ** A poll dialog and a codec to run the address functions on *)

Module Dialogs.
Import VoteModal Fixtures.

(** A codec whose numeric conversion is [n]. *)
Definition counted (n : Z) : val :=
  plain [("output", Obj [] None (Some (Val (Num n))) None)].

(** Poll 1 with two options, three votes on each. *)
Definition dialog : Queries :=
  {| getPoll := fun _ _ => Val (answers (poll_tuple "1" "2"));
     getVoteTally := fun _ _ _ => Val (counted 3) |}.

(** The same poll when the tally of the second option cannot be read. *)
Definition dialog_failing : Queries :=
  {| getPoll := fun _ _ => Val (answers (poll_tuple "1" "2"));
     getVoteTally := fun _ _ i => if i =? 1 then Throw else Val (counted 3) |}.

(** The dialog after an earlier load showed one vote on each option. *)
Definition shown_before : State :=
  {| poll := None; selectedOption := 0; loading := true; voting := false;
     error := None; tallies := [Num 1; Num 1] |}.

(** A codec that writes the bytes of a key in hexadecimal. *)
Definition in_range (b : Z) : bool := (0 <=? b) && (b <? 256).

Definition toy_encode (buffer : list Z) (ss58Format : Z) : res string :=
  if forallb in_range buffer then Val (Accounts.hex_encode buffer) else Throw.

Definition toy_decode (address : string) : res (list Z) :=
  Val (Accounts.hex_decode address).

End Dialogs.

(** * Properties *)

(** ** Conversions on concrete literals *)

Example Number_str_ex :
  Number_str "42" = Num 42 /\ Number_str " 7 " = Num 7 /\ Number_str EmptyString = Num 0
  /\ Number_str "0x2a" = Num 42 /\ Number_str "1,234" = NaN
  /\ Number_str "-5" = Num (-5) /\ Number_str "abc" = NaN.
Proof. repeat split; reflexivity. Qed.

Example parseInt16_ex :
  parseInt16 "2a" = Num 42 /\ parseInt16 "ff,1" = Num 255 /\ parseInt16 "xyz" = NaN
  /\ parseInt16 (replace_0x "0x10") = Num 16.
Proof. repeat split; reflexivity. Qed.

Example ToString_ex :
  ToString (Arr [Number (Num 1); Null; Str "a"]) = "1,,a"
  /\ ToString (Number (Num (-12))) = "-12".
Proof. split; vm_compute; reflexivity. Qed.

(** ** Decoding of the aggregate count *)

Section Decoding.
Import PollList Fixtures.

Lemma scan_values_none vs : has_numeric vs = false -> scan_values vs = Num 0.
Proof.
  induction vs as [|v vs IH]; simpl; [reflexivity|].
  destruct v; try assumption; try discriminate.
  intros [H1 H2]%orb_false_iff. rewrite H1. auto.
Qed.

Lemma scan_or_zero vs :
  scan_values vs
  = default (Num 0) (if has_numeric vs then Some (scan_values vs) else None).
Proof.
  destruct (has_numeric vs) eqn:E; [reflexivity|]. by apply scan_values_none.
Qed.

(** The first [try] is the first of the human-readable strategies whose
    shape test matches. *)
Lemma phase1_first_match output :
  catch (parse_human output) (Num 0)
  = default (Num 0)
      (first_match [strat_human_ok; strat_human_number; strat_human_scan] output).
Proof.
  unfold parse_human, first_match, strat_human_ok, strat_human_number,
    strat_human_scan, human_of.
  destruct (truthy output) eqn:Ht; [|reflexivity].
  destruct (obj_has "toHuman" output) as [[|]|] eqn:Hh; simpl; try reflexivity.
  destruct (call_toHuman output) as [h|] eqn:Hc; simpl; [|reflexivity].
  destruct h as [| |b|n|s|l|ps hh hn hs]; simpl; try reflexivity.
  - destruct b; reflexivity.
  - rewrite andb_false_r. reflexivity.
  - rewrite andb_false_r. reflexivity.
  - rewrite scan_or_zero. destruct (has_numeric l); reflexivity.
  - unfold key_of, has, get_opt.
    destruct (assoc "Ok" ps) as [v|] eqn:EOk; simpl.
    + reflexivity.
    + destruct (assoc "ok" ps) as [v|] eqn:Eok; simpl.
      * reflexivity.
      * rewrite scan_or_zero. destruct (has_numeric ps.*2); reflexivity.
Qed.

(** The second block is the first of the raw strategies whose shape test
    matches; an exception there leaves 0. *)
Lemma phase2_first_match output :
  truthy output = true ->
  catch (parse_raw output) (Num 0)
  = default (Num 0)
      (first_match [strat_raw_ok; strat_raw_toNumber; strat_raw_number] output).
Proof.
  intros Ht.
  unfold parse_raw, first_match, strat_raw_ok, strat_raw_toNumber, strat_raw_number.
  rewrite Ht.
  destruct output as [| |b|n|s|l|ps hh hn hs]; simpl in *;
    try discriminate; try reflexivity.
  unfold get_opt.
  destruct (assoc "ok" ps) as [v|] eqn:Eok; simpl; [reflexivity|].
  destruct (assoc "Ok" ps) as [v|] eqn:EOk; simpl; [reflexivity|].
  destruct (assoc "toNumber" ps) as [v|] eqn:En; simpl;
    destruct hn as [[n|]|]; simpl; try destruct (gt0 n); reflexivity.
Qed.

Lemma parse_total_two_phase result :
  catch (parse_total result) (Num 0)
  = match pick_output result with
    | Val output => decode_two_phase output
    | Throw => Num 0
    end.
Proof.
  unfold parse_total.
  destruct (pick_output result) as [output|]; simpl; [|reflexivity].
  unfold decode_two_phase.
  rewrite phase1_first_match.
  set (t := default (Num 0) (first_match _ output)).
  destruct (is0 t && truthy output) eqn:E; [|reflexivity].
  apply andb_true_iff in E as [_ Ht].
  rewrite <- (phase2_first_match output Ht).
  destruct (parse_raw output); reflexivity.
Qed.

Lemma getTotalPolls_decode (queryAddress : option string) query :
  getTotalPolls queryAddress query
  = match queryAddress with
    | None => Num 0
    | Some address =>
        if String.eqb address EmptyString then Num 0
        else match query address with
             | Throw => Num 0
             | Val result =>
                 match pick_output result with
                 | Throw => Num 0
                 | Val output => decode_two_phase output
                 end
             end
    end.
Proof.
  unfold getTotalPolls.
  destruct queryAddress as [address|]; [|reflexivity].
  destruct (String.eqb address EmptyString); [reflexivity|].
  destruct (query address) as [result|]; simpl; [|reflexivity].
  apply parse_total_two_phase.
Qed.

(** C2 (as amended): [getTotalPolls] tries the six strategies in the
    listed order, but in two phases and by shape. Among the human-readable
    strategies (1) Ok/ok extraction, (2) bare number, (3) scan, the first
    whose shape test matches is the only one that runs, whether or not it
    obtains a value; the raw strategies (4) ok/Ok key, (5) numeric
    conversion accepted only above 0, (6) plain number are consulted only
    when the first phase left the total at 0, and again only the first
    whose shape test matches runs. The answer is the total when it is
    positive and 0 otherwise; a missing address, a query that throws and
    an unreadable result give 0. *)
Theorem getTotalPolls_two_phase (queryAddress : option string) query :
  getTotalPolls queryAddress query
  = match queryAddress with
    | None => Num 0
    | Some address =>
        if String.eqb address EmptyString then Num 0
        else match query address with
             | Throw => Num 0
             | Val result =>
                 match pick_output result with
                 | Throw => Num 0
                 | Val output => decode_two_phase output
                 end
             end
    end.
Proof. apply getTotalPolls_decode. Qed.

(** C2 as stated fails: a single chain that moves on to the next strategy
    until one yields a definite value disagrees with the code, whether
    "definite" means any extracted value or a non-zero one. With a string
    under the raw [ok] key, strategy (4) matches and extracts nothing, and
    the code never tries the numeric conversion (5) that would give 7;
    with [{ Ok: "0" }] as human-readable form, strategy (1) yields 0 and
    the code still goes on to (5) and answers 7. *)
Lemma decode_chain_differs :
  getTotalPolls (Some alice) (respond raw_ok_string) = Num 0
  /\ decode_chain nonzero raw_ok_string = Num 7
  /\ getTotalPolls (Some alice) (respond zero_then_seven) = Num 7
  /\ decode_chain any_value zero_then_seven = Num 0.
Proof. repeat split; vm_compute; reflexivity. Qed.

(** Priority of the first phase: a positive total found in the
    human-readable form is the answer whatever the raw value offers. *)
Lemma human_total_wins output n :
  first_match [strat_human_ok; strat_human_number; strat_human_scan] output
  = Some n ->
  gt0 n = true -> decode_two_phase output = n.
Proof.
  intros Hm Hn. unfold decode_two_phase. rewrite Hm. simpl.
  destruct n as [|z]; [discriminate|]. simpl in *.
  replace (z =? 0) with false by (symmetry; apply Z.eqb_neq; lia).
  simpl. unfold clamp. simpl. rewrite Hn. reflexivity.
Qed.

Lemma clamp_first_match ss output :
  existsb (positive_yield output) ss = false ->
  clamp (default (Num 0) (first_match ss output)) = Num 0.
Proof.
  induction ss as [|s ss IH]; simpl; [reflexivity|].
  intros [Hs Hr]%orb_false_iff. unfold positive_yield in Hs.
  destruct (s output) as [n|]; simpl; [|auto].
  unfold clamp. rewrite Hs. reflexivity.
Qed.

Lemma decode_two_phase_unrecognized output :
  yields_positive output = false -> decode_two_phase output = Num 0.
Proof.
  unfold yields_positive, strategies. intros H.
  change [strat_human_ok; strat_human_number; strat_human_scan;
          strat_raw_ok; strat_raw_toNumber; strat_raw_number]
    with (app [strat_human_ok; strat_human_number; strat_human_scan]
              [strat_raw_ok; strat_raw_toNumber; strat_raw_number]) in H.
  rewrite existsb_app in H. apply orb_false_iff in H as [H1 H2].
  unfold decode_two_phase.
  destruct (_ && _); by apply clamp_first_match.
Qed.

(** C3 (as amended): when no strategy of the chain yields a positive
    count on the answer of the query -- an unrecognized shape, an explicit
    failure that carries no number, a query that throws, a missing
    address -- [getTotalPolls] returns the number 0 and throws nothing.
    The code has no separate failure value: 0 is also the answer for an
    empty ledger. *)
Theorem getTotalPolls_unrecognized queryAddress query :
  unrecognized queryAddress query ->
  getTotalPolls queryAddress query = Num 0.
Proof.
  intros H. rewrite getTotalPolls_decode.
  destruct queryAddress as [address|]; [|reflexivity].
  destruct (String.eqb address EmptyString); [reflexivity|].
  destruct (query address) as [result|] eqn:Hq; [|reflexivity].
  destruct (pick_output result) as [output|] eqn:Ho; [|reflexivity].
  apply decode_two_phase_unrecognized. eauto.
Qed.

Lemma getTotalPolls_unrecognized_witness :
  unrecognized (Some alice) (respond err_plain)
  /\ getTotalPolls (Some alice) (respond err_plain) = Num 0.
Proof.
  assert (H : unrecognized (Some alice) (respond err_plain)).
  { intros address result output _ [= <-] [= <-]. reflexivity. }
  split; [exact H|]. apply (getTotalPolls_unrecognized _ _ H).
Defined.

(** C3 as stated fails: the answer on a failure is a number. An
    unrecognized shape gives the number 0, the very answer of an empty
    ledger, and the codec of a failed call, whose numeric conversion is
    the index 1 of its [Err] variant, is decoded as the count 1. *)
Lemma decode_failure_is_a_number :
  yields_positive Undef = false
  /\ getTotalPolls (Some alice) (respond Undef) = Num 0
  /\ getTotalPolls (Some alice) (respond empty_ledger) = Num 0
  /\ explicit_failure err_codec = true
  /\ getTotalPolls (Some alice) (respond err_codec) = Num 1.
Proof. repeat split; vm_compute; reflexivity. Qed.

(** The answer is always a count: never [NaN], never negative. *)
Lemma getTotalPolls_count queryAddress query :
  exists z, 0 <= z /\ getTotalPolls queryAddress query = Num z.
Proof.
  assert (Hc : forall n, exists z, 0 <= z /\ clamp n = Num z).
  { intros [|z]; unfold clamp; simpl; [exists 0; split; [lia|done]|].
    destruct (0 <? z) eqn:E; [exists z|exists 0]; split; try done; lia. }
  rewrite getTotalPolls_decode.
  destruct queryAddress as [address|]; [|exists 0; split; [lia|done]].
  destruct (String.eqb address EmptyString); [exists 0; split; [lia|done]|].
  destruct (query address) as [result|]; [|exists 0; split; [lia|done]].
  destruct (pick_output result) as [output|]; [|exists 0; split; [lia|done]].
  unfold decode_two_phase. destruct (_ && _); apply Hc.
Qed.

End Decoding.

(** ** The cache and the merge *)

Section Cache.
Import Database Invariant ContractMetadata CreatePoll Merge Fixtures Receipts.

Lemma num_truthy_nonzero n :
  num_truthy n = true -> exists k, n = Num k /\ k <> 0.
Proof.
  destruct n as [|k]; simpl; [discriminate|].
  intros H. exists k. split; [done|]. apply negb_true_iff, Z.eqb_neq in H. done.
Qed.

(** A successful [savePollMetadata] wrote its normalized record under the
    non-zero [pollId]. *)
Lemma savePollMetadata_inv now metadata db db' :
  savePollMetadata now metadata db = Val db' ->
  exists k, pollId metadata = Num k /\ k <> 0
            /\ db' = with_polls db (<[k := dataToSave now metadata]> (polls db)).
Proof.
  unfold savePollMetadata.
  destruct (num_truthy (pollId metadata)) eqn:Hp; simpl; [|discriminate].
  destruct (opens db), (has_polls db), (writes db); simpl; try discriminate.
  apply num_truthy_nonzero in Hp as (k & Hk & Hk0). rewrite Hk.
  intros [= <-]. eauto.
Qed.

Lemma savePollMetadata_zero now metadata db :
  pollId metadata = Num 0 -> savePollMetadata now metadata db = Throw.
Proof. unfold savePollMetadata. intros ->. reflexivity. Qed.

Lemma savePollMetadata_keyed now metadata db db' :
  keyed db -> savePollMetadata now metadata db = Val db' -> keyed db'.
Proof.
  intros Hk (k & Hid & Hk0 & ->)%savePollMetadata_inv j row. simpl.
  destruct (decide (k = j)) as [<-|Hne].
  - rewrite lookup_insert_eq. intros [= <-]. simpl. done.
  - rewrite lookup_insert_ne by done. apply Hk.
Qed.

Lemma savePollMetadata_normalized now metadata db db' :
  normalized db -> savePollMetadata now metadata db = Val db' -> normalized db'.
Proof.
  intros Hn (k & Hid & Hk0 & ->)%savePollMetadata_inv j row. simpl.
  destruct (decide (k = j)) as [<-|Hne].
  - rewrite lookup_insert_eq. intros [= <-]. simpl.
    unfold or0. destruct (duration metadata) as [|z]; simpl; [done|].
    destruct (negb (z =? 0)); done.
  - rewrite lookup_insert_ne by done. apply Hn.
Qed.

Lemma savePollMetadata_healthy now metadata db :
  healthy db -> num_truthy (pollId metadata) = true ->
  exists k, pollId metadata = Num k
    /\ savePollMetadata now metadata db
       = Val (with_polls db (<[k := dataToSave now metadata]> (polls db))).
Proof.
  intros (Ho & Hp & Hr & Hw) Ht. unfold savePollMetadata.
  rewrite Ht, Ho, Hp, Hw. simpl.
  apply num_truthy_nonzero in Ht as (k & -> & _). eauto.
Qed.

Lemma updatePollMetadata_inv now id updates db db' :
  updatePollMetadata now id updates db = Val db' ->
  exists k existing,
    id = Num k /\ polls db !! k = Some existing
    /\ savePollMetadata now (spread existing updates id) db = Val db'.
Proof.
  unfold updatePollMetadata, getPollMetadata.
  destruct (opens db), (has_polls db), (reads db); simpl; try discriminate.
  destruct id as [|k]; simpl; [discriminate|].
  destruct (polls db !! k) as [existing|] eqn:He; [|discriminate].
  intros H. eauto.
Qed.


Lemma updatePollMetadata_keyed now id updates db db' :
  keyed db -> updatePollMetadata now id updates db = Val db' -> keyed db'.
Proof.
  intros Hk (k & existing & -> & He & Hs)%updatePollMetadata_inv.
  eapply savePollMetadata_keyed; eauto.
Qed.

Lemma cache_step_nonpositive now later form resolved db :
  gt0 resolved = false -> cache_step now later form resolved db = db.
Proof. unfold cache_step. intros ->. reflexivity. Qed.

Lemma cache_step_keyed now later form resolved db :
  keyed db -> keyed (cache_step now later form resolved db).
Proof.
  intros Hk. unfold cache_step. destruct (gt0 resolved); [|done].
  destruct (savePollMetadata _ _ _) eqn:Hs; [|done].
  eapply savePollMetadata_keyed; eauto.
Qed.

Lemma syncPollMetadata_keyed now later c syncId queryAddress db :
  keyed db -> keyed (syncPollMetadata now later c syncId queryAddress db).2.
Proof.
  intros Hk. unfold syncPollMetadata.
  destruct (getPollMetadataFromContract _ _ _); [|done].
  destruct (getPollMetadata _ _); [|done].
  destruct (savePollMetadata _ _ _) eqn:Hs; [|done].
  simpl. eapply savePollMetadata_keyed; eauto.
Qed.

Lemma keyed_empty : keyed empty_db.
Proof. intros k row H. simpl in H. rewrite lookup_empty in H. discriminate. Qed.

Lemma normalized_empty : normalized empty_db.
Proof. intros k row H. simpl in H. rewrite lookup_empty in H. discriminate. Qed.

Lemma keyed_db1 : keyed db1.
Proof.
  intros k row H. simpl in H. apply lookup_singleton_Some in H as [<- <-].
  split; [reflexivity|lia].
Qed.

Lemma normalized_db1 : normalized db1.
Proof.
  intros k row H. simpl in H. apply lookup_singleton_Some in H as [<- <-].
  discriminate.
Qed.

Lemma healthy_db1 : healthy db1.
Proof. repeat split. Qed.

Lemma updatePollMetadata_row now id updates db db' :
  updatePollMetadata now id updates db = Val db' ->
  exists k existing row,
    id = Num k /\ polls db !! k = Some existing
    /\ polls db' !! k = Some row
    /\ pollId row = id
    /\ updated now existing updates row
    /\ forall j, j <> k -> polls db' !! j = polls db !! j.
Proof.
  intros (k & existing & -> & He & Hs)%updatePollMetadata_inv.
  apply savePollMetadata_inv in Hs as (k' & Hid & Hk0 & ->). simpl in Hid.
  injection Hid as <-.
  exists k, existing, (dataToSave now (spread existing updates (Num k))).
  split; [done|]. split; [done|]. simpl. rewrite lookup_insert_eq.
  split; [done|]. split; [done|]. split.
  - unfold updated.
    destruct updates as [uid ut ud uo um udu ue uc ubn ubh uth ucm utv uia ucr uls].
    simpl. repeat split;
      match goal with
      | |- context [patched _ (Some <$> ?u)] => destruct u
      | |- context [patched _ ?u] => destruct u
      end; reflexivity.
  - intros j Hj. by rewrite lookup_insert_ne.
Qed.

Lemma savePollMetadata_row now metadata db db' :
  savePollMetadata now metadata db = Val db' ->
  exists k, pollId metadata = Num k /\ k <> 0
            /\ polls db' !! k = Some (dataToSave now metadata)
            /\ forall j, j <> k -> polls db' !! j = polls db !! j.
Proof.
  intros (k & Hid & Hk0 & ->)%savePollMetadata_inv. exists k.
  split; [done|]. split; [done|]. simpl. rewrite lookup_insert_eq.
  split; [done|]. intros j Hj. by rewrite lookup_insert_ne.
Qed.

(** C9: a record whose [pollId] is 0 is never persisted.
    [savePollMetadata] rejects a record whose [pollId] is 0; the caching
    step that follows a creation leaves the database untouched unless the
    resolved identifier is strictly positive; a successful
    [updatePollMetadata] replaces the row under its [pollId] argument, and
    only that row: the new row carries that very [pollId], whatever the
    updates carry, and every other field comes from the updates when they
    carry it and from the old row otherwise, so nothing is written under
    the [pollId] of the updates. So every writer ([savePollMetadata],
    [updatePollMetadata], the caching step, [syncPollMetadata]) keeps the
    store keyed: each row under its own [pollId], none under 0; and a
    successful [savePollMetadata] writes exactly the row of its non-zero
    [pollId]. *)
Theorem persistence_invariant now later metadata id updates form resolved
        c syncId queryAddress db :
  keyed db ->
  (pollId metadata = Num 0 -> savePollMetadata now metadata db = Throw)
  /\ (gt0 resolved = false -> cache_step now later form resolved db = db)
  /\ (forall db', updatePollMetadata now id updates db = Val db' ->
        exists k existing row,
          id = Num k /\ polls db !! k = Some existing
          /\ polls db' !! k = Some row
          /\ pollId row = id
          /\ updated now existing updates row
          /\ forall j, j <> k -> polls db' !! j = polls db !! j)
  /\ (forall db', savePollMetadata now metadata db = Val db' -> keyed db')
  /\ (forall db', updatePollMetadata now id updates db = Val db' -> keyed db')
  /\ keyed (cache_step now later form resolved db)
  /\ keyed (syncPollMetadata now later c syncId queryAddress db).2
  /\ (forall db', savePollMetadata now metadata db = Val db' ->
        exists k, pollId metadata = Num k /\ k <> 0
                  /\ polls db' !! k = Some (dataToSave now metadata)
                  /\ forall j, j <> k -> polls db' !! j = polls db !! j).
Proof.
  intros Hk. split; [apply savePollMetadata_zero|].
  split; [apply cache_step_nonpositive|].
  split; [apply updatePollMetadata_row|].
  split; [intros db'; by apply savePollMetadata_keyed|].
  split; [intros db'; by apply updatePollMetadata_keyed|].
  split; [by apply cache_step_keyed|].
  split; [by apply syncPollMetadata_keyed|apply savePollMetadata_row].
Qed.

(** The update of poll 1 that carries the identifier 9 and a new title:
    the row under 1 keeps the identifier 1 and takes the title, and
    nothing appears under 9. *)
Lemma persistence_invariant_witness :
  keyed db1
  /\ keyed (cache_step 5 6 Receipts.form (Num 42) db1)
  /\ keyed (syncPollMetadata 5 6 contract (Num 1) (Some alice) db1).2
  /\ exists db' row,
      updatePollMetadata 6 (Num 1) move_to_9 db1 = Val db'
      /\ u_pollId move_to_9 = Some (Num 9)
      /\ polls db' !! 1 = Some row
      /\ pollId row = Num 1
      /\ title row = "renamed"
      /\ updated 6 row1 move_to_9 row
      /\ polls db' !! 9 = None.
Proof.
  split; [exact keyed_db1|].
  pose proof (persistence_invariant 5 6 row1 (Num 1) no_updates Receipts.form
                (Num 42) contract (Num 1) (Some alice) db1 keyed_db1) as H.
  split; [apply H|]. split; [apply H|].
  pose proof (persistence_invariant 6 6 row1 (Num 1) move_to_9 Receipts.form
                (Num 42) contract (Num 1) (Some alice) db1 keyed_db1)
    as (_ & _ & Hu & _).
  destruct (updatePollMetadata 6 (Num 1) move_to_9 db1) as [db'|] eqn:E;
    [|discriminate E].
  destruct (Hu db' eq_refl) as (k & existing & row & Hid & He & Hr & Hp & Hup & Hf).
  injection Hid as <-. exists db', row.
  assert (Hl : polls db1 !! 1 = Some row1) by reflexivity.
  rewrite Hl in He. injection He as <-.
  split; [reflexivity|]. split; [reflexivity|]. split; [exact Hr|].
  split; [exact Hp|]. split; [apply Hup|]. split; [exact Hup|].
  rewrite Hf by lia. reflexivity.
Defined.

(** An update that tries to move poll 1 to identifier 9 leaves it under 1. *)
Example updatePollMetadata_ignores_pollId :
  match updatePollMetadata 6 (Num 1) move_to_9 db1 with
  | Val db' => (pollId <$> polls db' !! 1, pollId <$> polls db' !! 9)
  | Throw => (None, None)
  end = (Some (Num 1), None).
Proof. vm_compute. reflexivity. Qed.

Lemma syncedMetadata_remote now remote row :
  remote_fields (syncedMetadata now remote row) remote.
Proof. repeat split. Qed.

Lemma syncedMetadata_local now remote row :
  (forall l, row = Some l -> duration l <> NaN) ->
  local_fields (syncedMetadata now remote row) row.
Proof.
  intros Hd. destruct row as [l|]; simpl; repeat split.
  specialize (Hd l eq_refl). unfold or0.
  destruct (duration l) as [|z]; simpl; [done|].
  destruct (z =? 0) eqn:E; simpl; [|done]. apply Z.eqb_eq in E. by subst.
Qed.

(** The remote fetch gives [None] when the query throws and when the
    tuple says the poll does not exist. *)
Lemma getPoll_throws_None c syncId queryAddress address :
  resolve_address c queryAddress = Val address ->
  getPoll c address syncId = Throw ->
  getPollMetadataFromContract c syncId queryAddress = None.
Proof.
  intros Ha Hp. unfold getPollMetadataFromContract, getPollMetadataFromContract_body.
  rewrite Ha. simpl. rewrite Hp. reflexivity.
Qed.

Lemma poll_absent_None c syncId queryAddress address pollResult output ok fields :
  resolve_address c queryAddress = Val address ->
  getPoll c address syncId = Val pollResult ->
  human_output pollResult = Val output ->
  get "Ok" output = Val ok ->
  iterate ok = Val fields ->
  truthy (at_ 0 fields) = false ->
  getPollMetadataFromContract c syncId queryAddress = None.
Proof.
  intros Ha Hp Hh Hok Hi He.
  unfold getPollMetadataFromContract, getPollMetadataFromContract_body.
  rewrite Ha. simpl. rewrite Hp. simpl. rewrite Hh. simpl.
  destruct (truthy output); simpl; [|reflexivity].
  rewrite Hok. simpl. destruct (truthy ok); simpl; [|reflexivity].
  rewrite Hi. simpl. rewrite He. reflexivity.
Qed.

Lemma syncPollMetadata_missing now later c syncId queryAddress db :
  getPollMetadataFromContract c syncId queryAddress = None ->
  syncPollMetadata now later c syncId queryAddress db = (None, db).
Proof. intros Hr. unfold syncPollMetadata. rewrite Hr. reflexivity. Qed.

Lemma syncPollMetadata_merged now later c k queryAddress db remote :
  getPollMetadataFromContract c (Num k) queryAddress = Some remote ->
  healthy db -> normalized db -> num_truthy (id remote) = true ->
  exists view db',
    syncPollMetadata now later c (Num k) queryAddress db = (Some view, db')
    /\ remote_fields view remote
    /\ local_fields view (polls db !! k).
Proof.
  intros Hr Hh Hn Hid. unfold syncPollMetadata. rewrite Hr.
  assert (Hg : getPollMetadata (Num k) db = Val (polls db !! k)).
  { destruct Hh as (Ho & Hp & Hrd & Hw). unfold getPollMetadata.
    rewrite Ho, Hp, Hrd. reflexivity. }
  rewrite Hg.
  destruct (savePollMetadata_healthy later
              (syncedMetadata now remote (polls db !! k)) db Hh Hid)
    as (j & _ & ->).
  eexists _, _. split; [reflexivity|]. split.
  - apply syncedMetadata_remote.
  - apply syncedMetadata_local. intros l Hl. by apply (Hn k).
Qed.

(** C1 (as amended): if the remote fetch fails or reports that the poll
    does not exist, [syncPollMetadata] returns [None] whatever the cache
    holds. If it succeeds with an identifier that is a non-zero number,
    and the cache can be read and written, it returns a merged record
    whose title, description, maxOptions, isActive, totalVotes, creator,
    createdAt and endsAt are the remote values and whose optionNames,
    duration, blockNumber, blockHash, transactionHash and chainMetadata
    are those of the row persisted for that poll -- the empty list, 0 and
    absent when there is no such row. *)
Theorem syncPollMetadata_postcondition now later c k queryAddress db :
  (getPollMetadataFromContract c (Num k) queryAddress = None ->
   syncPollMetadata now later c (Num k) queryAddress db = (None, db))
  /\ (forall remote,
        getPollMetadataFromContract c (Num k) queryAddress = Some remote ->
        healthy db -> normalized db -> num_truthy (id remote) = true ->
        exists view db',
          syncPollMetadata now later c (Num k) queryAddress db = (Some view, db')
          /\ remote_fields view remote
          /\ local_fields view (polls db !! k)).
Proof.
  split.
  - apply syncPollMetadata_missing.
  - intros remote. apply syncPollMetadata_merged.
Qed.

(** Round trip: a record persisted by [savePollMetadata] and then merged
    with a remote record gives the remote values where the contract has
    the field and the persisted values elsewhere. *)
Lemma persist_then_merge t now later c k queryAddress db db1 record remote :
  healthy db -> normalized db -> pollId record = Num k ->
  savePollMetadata t record db = Val db1 ->
  getPollMetadataFromContract c (Num k) queryAddress = Some remote ->
  num_truthy (id remote) = true ->
  exists view db2,
    syncPollMetadata now later c (Num k) queryAddress db1 = (Some view, db2)
    /\ remote_fields view remote
    /\ local_fields view (Some (dataToSave t record)).
Proof.
  intros Hh Hn Hk Hs Hr Hid.
  pose proof (savePollMetadata_normalized _ _ _ _ Hn Hs) as Hn1.
  apply savePollMetadata_inv in Hs as (j & Hj & _ & ->).
  rewrite Hk in Hj. injection Hj as <-.
  destruct (syncPollMetadata_merged now later c k queryAddress
              (with_polls db (<[k := dataToSave t record]> (polls db)))
              remote Hr)
    as (view & db2 & Hsync & Hrf & Hlf); [exact Hh|exact Hn1|exact Hid|].
  simpl in Hlf. rewrite lookup_insert_eq in Hlf. eauto.
Qed.

Lemma syncPollMetadata_postcondition_witness :
  exists remote view db',
    getPollMetadataFromContract contract (Num 1) (Some alice) = Some remote
    /\ syncPollMetadata 5 6 contract (Num 1) (Some alice) db1 = (Some view, db')
    /\ remote_fields view remote
    /\ local_fields view (Some row1).
Proof.
  destruct (syncPollMetadata_postcondition 5 6 contract 1 (Some alice) db1)
    as [_ H].
  destruct (H _ eq_refl healthy_db1 normalized_db1 eq_refl)
    as (view & db' & Hs & Hr & Hl).
  eexists _, view, db'. split; [reflexivity|]. split; [exact Hs|].
  split; [exact Hr|exact Hl].
Defined.

(** The scenario of the description: remote poll 1 "T" with two options,
    local row with option names A, B and a duration of 3600. *)
Example syncPollMetadata_scenario :
  (fun v => (pollId v, title v, maxOptions v, optionNames v, duration v))
    <$> (syncPollMetadata 5 6 contract (Num 1) (Some alice) db1).1
  = Some (Num 1, "T", Num 2, ["A"; "B"], Num 3600).
Proof. vm_compute. reflexivity. Qed.

(** C1 as stated fails: a successful remote fetch does not always give a
    merged record. Poll 1234, whose identifier the human-readable form
    prints as "1,234", is fetched but its identifier converts to [NaN],
    which [savePollMetadata] rejects; and when the database does not
    open, the read of the local row fails. Both times the result is
    [None]. *)
Lemma syncPollMetadata_none_after_remote_success :
  getPollMetadataFromContract contract_poll_1234 (Num 1234) (Some alice) <> None
  /\ (syncPollMetadata 5 6 contract_poll_1234 (Num 1234) (Some alice) empty_db).1
     = None
  /\ getPollMetadataFromContract contract (Num 1) (Some alice) <> None
  /\ (syncPollMetadata 5 6 contract (Num 1) (Some alice) db_closed).1 = None.
Proof. repeat split; vm_compute; congruence. Qed.

(** C5 (as amended): when the remote fetch succeeds and the write-back of
    the merged record fails, [syncPollMetadata] returns [None] -- the
    merged record is dropped -- and leaves the database as it was; the
    failure is caught, not raised to the caller. *)
Theorem syncPollMetadata_write_failure now later c syncId queryAddress db
        remote row :
  getPollMetadataFromContract c syncId queryAddress = Some remote ->
  getPollMetadata syncId db = Val row ->
  savePollMetadata later (syncedMetadata now remote row) db = Throw ->
  syncPollMetadata now later c syncId queryAddress db = (None, db).
Proof.
  intros Hr Hg Hs. unfold syncPollMetadata. rewrite Hr, Hg, Hs. reflexivity.
Qed.

Lemma syncPollMetadata_write_failure_witness :
  syncPollMetadata 5 6 contract (Num 1) (Some alice) db_readonly
  = (None, db_readonly).
Proof.
  eapply (syncPollMetadata_write_failure 5 6 contract (Num 1) (Some alice)
            db_readonly); reflexivity.
Defined.

(** C5 as stated fails: poll 1 is fetched and its row is read, the
    database refuses the write, and the caller receives [None] instead of
    the merged record. *)
Lemma write_failure_drops_view :
  getPollMetadataFromContract contract (Num 1) (Some alice) <> None
  /\ getPollMetadata (Num 1) db_readonly = Val (Some row1)
  /\ (syncPollMetadata 5 6 contract (Num 1) (Some alice) db_readonly).1 = None.
Proof. repeat split; vm_compute; congruence. Qed.

Lemma getPollMetadataFromContract_read c syncId queryAddress address fields :
  poll_read c syncId queryAddress address fields ->
  getPollMetadataFromContract c syncId queryAddress
  = catch
      (let* voteTallies :=
         match read_tallies c address syncId with
         | Val t => Val t
         | Throw => zero_array (number_or0 (at_ 5 fields))
         end in
       Val (Some
         {| exists_ := is_true (at_ 0 fields);
            id := number_or0 (at_ 1 fields);
            c_title := string_or_empty (at_ 2 fields);
            c_description := string_or_empty (at_ 3 fields);
            merkleRoot := string_or_empty (at_ 4 fields);
            c_maxOptions := number_or0 (at_ 5 fields);
            c_creator := creator_address (at_ 6 fields);
            c_isActive := is_true (at_ 7 fields);
            c_totalVotes := number_or0 (at_ 8 fields);
            c_createdAt := number_or0 (at_ 9 fields);
            c_endsAt := number_or0 (at_ 10 fields);
            voteTallies := voteTallies |})) None.
Proof.
  intros (pollResult & output & ok & Ha & Hp & Hh & Hto & Hok & Htk & Hi & He).
  unfold getPollMetadataFromContract, getPollMetadataFromContract_body.
  rewrite Ha. simpl. rewrite Hp. simpl. rewrite Hh. simpl. rewrite Hto. simpl.
  rewrite Hok. simpl. rewrite Htk. simpl. rewrite Hi. simpl. rewrite He. simpl.
  reflexivity.
Qed.

(** C10 (as amended): when the read of a poll succeeds and the tallies
    query throws, [getPollMetadataFromContract] does not return [None]
    provided the maxOptions field converts to a valid array length [n]: it
    returns the record with maxOptions [n] and [n] zeros as tallies. When
    the tallies read does not throw, the tallies are what it gives -- the
    empty array when the answer has no [Ok] array -- and no zeros are
    made up. *)
Theorem tallies_failure c syncId queryAddress address fields :
  poll_read c syncId queryAddress address fields ->
  (forall n, getAllTallies c address syncId = Throw ->
     number_or0 (at_ 5 fields) = Num n -> 0 <= n < 2 ^ 32 ->
     exists r, getPollMetadataFromContract c syncId queryAddress = Some r
               /\ c_maxOptions r = Num n
               /\ voteTallies r = replicate (Z.to_nat n) (Num 0))
  /\ (forall t, read_tallies c address syncId = Val t ->
       exists r, getPollMetadataFromContract c syncId queryAddress = Some r
                 /\ voteTallies r = t).
Proof.
  intros Hread. rewrite (getPollMetadataFromContract_read _ _ _ _ _ Hread).
  split.
  - intros n Ht Hn Hb. unfold read_tallies. rewrite Ht. simpl. rewrite Hn.
    unfold zero_array.
    replace ((0 <=? n) && (n <? 2 ^ 32)) with true
      by (symmetry; apply andb_true_iff; split;
          [apply Z.leb_le|apply Z.ltb_lt]; lia).
    simpl. eexists. repeat split.
  - intros t Ht. rewrite Ht. simpl. eexists. repeat split.
Qed.

Lemma poll_read_sample :
  poll_read contract_tallies_throw (Num 1) (Some alice) alice
            (elements_of_tuple (poll_tuple "1" "2")).
Proof.
  unfold poll_read. eexists _, _, _.
  repeat split; reflexivity.
Qed.

Lemma tallies_failure_witness :
  exists r,
    getPollMetadataFromContract contract_tallies_throw (Num 1) (Some alice)
    = Some r
    /\ c_maxOptions r = Num 2 /\ voteTallies r = [Num 0; Num 0].
Proof.
  destruct (tallies_failure contract_tallies_throw (Num 1) (Some alice) alice
              _ poll_read_sample) as [H _].
  apply (H 2); [reflexivity|reflexivity|lia].
Defined.

(** When the conversion of maxOptions is not a valid length, the recovery
    itself throws and the poll is reported as missing. *)
Lemma bad_length_reports_missing c syncId queryAddress address fields :
  poll_read c syncId queryAddress address fields ->
  getAllTallies c address syncId = Throw ->
  zero_array (number_or0 (at_ 5 fields)) = Throw ->
  getPollMetadataFromContract c syncId queryAddress = None.
Proof.
  intros Hread Ht Hz. rewrite (getPollMetadataFromContract_read _ _ _ _ _ Hread).
  unfold read_tallies. rewrite Ht. simpl. rewrite Hz. reflexivity.
Qed.

(** C10 as stated fails: a tallies query that fails without throwing --
    it answers with no output -- leaves the tallies of the two-option
    poll empty, not two zeros; and when the tallies query throws for a
    poll whose maxOptions prints as "1,000", the poll is reported as
    missing. *)
Lemma tallies_not_zeros :
  (fun r => (c_maxOptions r, voteTallies r))
    <$> getPollMetadataFromContract contract_tallies_empty (Num 1) (Some alice)
  = Some (Num 2, [])
  /\ getPollMetadataFromContract contract_thousand_options (Num 1) (Some alice)
     = None.
Proof. split; vm_compute; reflexivity. Qed.

(** The copy of the parsing in [syncAllPollsMetadata] is not the chain of
    [getTotalPolls]: it converts a string under the raw [ok] key, and it
    ignores a human-readable form that is a bare number. *)
Example copies_of_the_parsing_disagree :
  totalPolls_of (plain [("output", raw_ok_string)]) = Val (Num 5)
  /\ PollList.getTotalPolls (Some alice) (PollList.respond raw_ok_string) = Num 0
  /\ totalPolls_of (plain [("output", codec (Number (Num 3)))]) = Val (Num 0)
  /\ PollList.getTotalPolls (Some alice)
       (PollList.respond (codec (Number (Num 3)))) = Num 3.
Proof. repeat split; vm_compute; reflexivity. Qed.

End Cache.

(** ** The confirmation effect *)

Section Watching.
Import Confirmation ConfirmationStates.

Lemma run_app e1 e2 w : run (e1 ++ e2)%list w = run e2 (run e1 w).
Proof. unfold run. apply foldl_app. Qed.

Lemma run_cons e es w : run (e :: es) w = run es (step w e).
Proof. reflexivity. Qed.

Lemma attempts_app a b :
  concat (attempt <$> (a ++ b)%list)
  = (concat (attempt <$> a) ++ concat (attempt <$> b))%list.
Proof. by rewrite fmap_app, concat_app. Qed.

Lemma run_baseline baseline :
  run [TimeoutFires; BaselineResolves baseline] start = waiting baseline 0.
Proof. reflexivity. Qed.

(** An attempt that sees no increase, before the last one: it reloads
    when its number is a multiple of 3 and the interval keeps ticking. *)
Lemma attempt_quiet baseline j c :
  c <= baseline -> (S j < maxAttempts)%nat ->
  run (attempt c) (waiting baseline j) = waiting baseline (S j).
Proof.
  intros Hc Hj. unfold attempt, run, waiting. cbn [foldl step ticking checkInterval].
  cbn [ticks app lookup list_lookup]. unfold decide_tick.
  cbn [previousTotalPolls attempts].
  replace (baseline <? c) with false by (symmetry; apply Z.ltb_ge; lia).
  replace (maxAttempts <=? S j)%nat with false
    by (symmetry; apply Nat.leb_gt; lia).
  cbn [every_third].
  destruct (S j mod 3 =? 0)%nat eqn:E; reflexivity.
Qed.

Lemma quiet_run baseline cs : forall j,
  Forall (fun c => c <= baseline) cs -> (j + length cs < maxAttempts)%nat ->
  run (concat (attempt <$> cs)) (waiting baseline j)
  = waiting baseline (j + length cs).
Proof.
  induction cs as [|c cs IH]; intros j Hall Hlen.
  - simpl. by rewrite Nat.add_0_r.
  - apply Forall_cons in Hall as [Hc Hall]. simpl in Hlen.
    rewrite fmap_cons, concat_cons, run_app.
    rewrite attempt_quiet by lia.
    rewrite IH by (done || lia). f_equal. simpl. lia.
Qed.

(** The attempt that sees the increase reloads and clears the interval. *)
Lemma attempt_increase baseline j c :
  baseline < c ->
  run (attempt c) (waiting baseline j)
  = {| timeoutId_armed := false; checkInterval := Some false;
       baseline_pending := false; attempts := S j;
       previousTotalPolls := c; ticks := [];
       loads := S j :: every_third j |}.
Proof.
  intros Hc. unfold attempt, run, waiting. cbn [foldl step ticking checkInterval].
  cbn [ticks app lookup list_lookup]. unfold decide_tick.
  cbn [previousTotalPolls attempts].
  replace (baseline <? c) with true by (symmetry; apply Z.ltb_lt; lia).
  reflexivity.
Qed.

(** The twentieth attempt without increase reloads and clears the
    interval. *)
Lemma attempt_last baseline c :
  c <= baseline ->
  run (attempt c) (waiting baseline 19)
  = {| timeoutId_armed := false; checkInterval := Some false;
       baseline_pending := false; attempts := 20;
       previousTotalPolls := baseline; ticks := [];
       loads := [20; 18; 15; 12; 9; 6; 3]%nat |}.
Proof.
  intros Hc. unfold attempt, run, waiting. cbn [foldl step ticking checkInterval].
  cbn [ticks app lookup list_lookup]. unfold decide_tick.
  cbn [previousTotalPolls attempts].
  replace (baseline <? c) with false by (symmetry; apply Z.ltb_ge; lia).
  reflexivity.
Qed.

Lemma step_inert w e : inert w -> step w e = w.
Proof.
  intros (Ht & Hi & Hb & Hk). destruct w as [t ci bp a p ts ls].
  simpl in *. subst. unfold ticking in Hi. simpl in Hi.
  destruct ci as [[|]|]; simpl in *; try discriminate;
    destruct e as [| | |i ?|i|]; simpl; try reflexivity;
    destruct i; reflexivity.
Qed.

(** Once nothing is armed or suspended, no event changes anything. *)
Lemma run_inert events w : inert w -> run events w = w.
Proof.
  intros Hw. induction events as [|e es IH]; [reflexivity|].
  rewrite run_cons, step_inert; done.
Qed.

Lemma every_third_small j : (j < 3)%nat -> every_third j = [].
Proof.
  intros H. destruct j as [|[|[|j]]]; try reflexivity. lia.
Qed.

(** C6 (as amended): in a serial run where the polled count first exceeds
    the baseline at attempt [k], [k] at most [maxAttempts], [loadPolls] is
    called at attempt [k] and, before it, at every attempt that is a
    multiple of 3 -- once only when [k] is at most 3; attempt [k] clears
    the interval, so no poll attempt follows it whatever the scheduler
    delivers next. *)
Theorem early_confirmation baseline quiet c rest :
  Forall (fun x => x <= baseline) quiet -> baseline < c ->
  (length quiet < maxAttempts)%nat ->
  let k := S (length quiet) in
  let w := run (serial baseline (quiet ++ c :: rest)%list) start in
  loads w = k :: every_third (length quiet)
  /\ attempts w = k /\ inert w
  /\ forall events, run events w = w.
Proof.
  intros Hq Hc Hlen k w.
  assert (Hw : w = {| timeoutId_armed := false; checkInterval := Some false;
                      baseline_pending := false; attempts := k;
                      previousTotalPolls := c; ticks := [];
                      loads := k :: every_third (length quiet) |}).
  { subst w. unfold serial.
    change (TimeoutFires :: BaselineResolves baseline :: ?l)
      with ([TimeoutFires; BaselineResolves baseline] ++ l)%list.
    rewrite run_app, run_baseline, attempts_app, run_app.
    rewrite quiet_run by (done || lia). simpl plus.
    rewrite fmap_cons, concat_cons, run_app, attempt_increase by done.
    apply run_inert. repeat split. }
  assert (Hi : inert w) by (rewrite Hw; repeat split).
  rewrite Hw at 1 2. repeat split; try apply Hi.
  intros events. by apply run_inert.
Qed.

Lemma early_confirmation_witness :
  let w := run (serial 5 [5; 5; 6; 9; 9]) start in
  loads w = [3]%nat /\ attempts w = 3%nat /\ inert w
  /\ forall events, run events w = w.
Proof.
  apply (early_confirmation 5 [5; 5] 6 [9; 9]).
  - repeat constructor; lia.
  - lia.
  - unfold maxAttempts. simpl. lia.
Defined.

(** C6 as stated fails: with baseline 5 and counts 5, 5, 5, 6 the count
    first rises at attempt 4 and [loadPolls] is called twice, at attempts
    3 and 4. And outside the serial runs an attempt can follow attempt
    [k]: the interval is cleared only after the reload of attempt 1 has
    completed, so a second attempt is made when the reload is slow. *)
Lemma early_confirmation_reloads_twice :
  loads (run (serial 5 [5; 5; 5; 6]) start) = [4; 3]%nat
  /\ length (loads (run (serial 5 [5; 5; 5; 6]) start)) <> 1%nat
  /\ loads (run slow_reload start) = [1]%nat
  /\ attempts (run slow_reload start) = 2%nat.
Proof. repeat split; vm_compute; (reflexivity || lia). Qed.

(** C7 (as amended): in a serial run where the polled count never exceeds
    the baseline, [loadPolls] is called at attempts 3, 6, 9, 12, 15 and 18
    and a last time at attempt [maxAttempts] = 20, which clears the
    interval: polling stops there. *)
Theorem timeout_confirmation baseline counts :
  Forall (fun x => x <= baseline) counts ->
  (maxAttempts <= length counts)%nat ->
  let w := run (serial baseline counts) start in
  loads w = [20; 18; 15; 12; 9; 6; 3]%nat
  /\ attempts w = maxAttempts /\ inert w
  /\ forall events, run events w = w.
Proof.
  intros Hq Hlen w.
  assert (Hsplit : counts = (take 19 counts ++ drop 19 counts)%list)
    by (symmetry; apply take_drop).
  destruct (drop 19 counts) as [|c rest] eqn:Hd.
  { apply (f_equal length) in Hd. rewrite length_drop in Hd. simpl in Hd.
    unfold maxAttempts in Hlen. lia. }
  assert (Hl19 : length (take 19 counts) = 19%nat).
  { rewrite length_take. unfold maxAttempts in Hlen. lia. }
  assert (Hq19 : Forall (fun x => x <= baseline) (take 19 counts))
    by (by apply Forall_take).
  assert (Hc : c <= baseline).
  { rewrite Hsplit in Hq. apply Forall_app in Hq as [_ Hq].
    by apply Forall_cons in Hq as [Hq _]. }
  assert (Hw : w = {| timeoutId_armed := false; checkInterval := Some false;
                      baseline_pending := false; attempts := 20;
                      previousTotalPolls := baseline; ticks := [];
                      loads := [20; 18; 15; 12; 9; 6; 3]%nat |}).
  { subst w. rewrite Hsplit. unfold serial.
    change (TimeoutFires :: BaselineResolves baseline :: ?l)
      with ([TimeoutFires; BaselineResolves baseline] ++ l)%list.
    rewrite run_app, run_baseline, attempts_app, run_app.
    rewrite quiet_run by (done || (rewrite Hl19; unfold maxAttempts; lia)).
    rewrite Hl19. simpl plus.
    rewrite fmap_cons, concat_cons, run_app, attempt_last by done.
    apply run_inert. repeat split. }
  assert (Hi : inert w) by (rewrite Hw; repeat split).
  rewrite Hw at 1 2. repeat split; try apply Hi.
  intros events. by apply run_inert.
Qed.

Lemma timeout_confirmation_witness :
  let w := run (serial 5 (replicate 25 5)) start in
  loads w = [20; 18; 15; 12; 9; 6; 3]%nat
  /\ attempts w = maxAttempts /\ inert w
  /\ forall events, run events w = w.
Proof.
  apply (timeout_confirmation 5 (replicate 25 5)).
  - apply Forall_replicate. lia.
  - rewrite length_replicate. unfold maxAttempts. lia.
Defined.

(** C7 as stated fails: with a count that stays at the baseline,
    [loadPolls] is called seven times, not once. And outside the serial
    runs the last reload need not be at attempt 20: when the count of the
    twentieth tick is slow, a twenty-first tick fires and each of the two
    reloads, at [attempts] = 21. *)
Lemma timeout_reloads_seven_times :
  length (loads (run (serial 5 (replicate 25 5)) start)) = 7%nat
  /\ loads (run slow_last_count start) = [21; 21; 18; 15; 12; 9; 6; 3]%nat.
Proof. split; vm_compute; reflexivity. Qed.

(** A cleanup that runs before the timeout fires silences the effect. *)
Lemma cleanup_before_timeout events :
  loads (run events (step start Cleanup)) = [].
Proof. rewrite run_inert; [reflexivity|repeat split]. Qed.

(** So does a cleanup that runs between two attempts. *)
Lemma cleanup_between_attempts baseline j events :
  loads (run events (step (waiting baseline j) Cleanup)) = every_third j.
Proof. rewrite run_inert; [reflexivity|repeat split]. Qed.

(** C8, the code at the failing schedules: the cleanup clears the timeout
    and the interval it finds, but when it runs while the timeout
    callback awaits the baseline there is no interval yet; the callback
    then arms one that nothing clears, and [loadPolls] is called seven
    times after the disposal. When it runs while the first tick awaits
    its count, that tick still calls [loadPolls] on resuming. *)
Theorem cleanup_race :
  loads (run cleanup_during_baseline start) = [20; 18; 15; 12; 9; 6; 3]%nat
  /\ loads (run cleanup_during_tick start) = [1]%nat.
Proof. split; vm_compute; reflexivity. Qed.

End Watching.

(** ** The identifier of the created poll *)

Section Resolving.
Import Database CreatePoll Receipts.

(** The candidates are numbers: [NaN] never leaves a strategy. *)
Lemma or0_number n : exists z, or0 n = Num z.
Proof.
  destruct n as [|z]; unfold or0; simpl; [by exists 0|].
  destruct (negb (z =? 0)); eauto.
Qed.

(** The topic strategy keeps searching after a candidate that is not
    positive: only a positive topic leaves the loop. *)
Lemma topics_of_data_break ev p q :
  topics_of_data ev p = (q, true) -> gt0 q = true.
Proof.
  unfold topics_of_data.
  destruct (is0 p && truthy (data ev)); [|discriminate].
  destruct (1 <? length _)%nat; [|discriminate].
  destruct (truthy _); [|discriminate].
  destruct (topic_number _) as [t|]; [|discriminate].
  intros [= <- <-]. reflexivity.
Qed.

Lemma fallback_block_break r p q :
  fallback_block r p = (q, true) -> gt0 q = true.
Proof.
  unfold fallback_block.
  destruct (event r) as [ev|]; [|discriminate].
  destruct (is0 p); [|discriminate].
  destruct (_ || _); [|discriminate].
  destruct (truthy (data ev)); [|discriminate].
  destruct (data ev) as [| |b|n|s|[|first l]|ps hh hn hs]; simpl;
    try discriminate.
  - intros [= <- <-]. reflexivity.
  - destruct (default Undef (assoc "topics" ps)); try discriminate.
    destruct (1 <? length _)%nat; [|discriminate].
    destruct (topic_number _) as [t|]; [|discriminate].
    intros [= <- <-]. reflexivity.
Qed.

(** The decoding strategy leaves the loop with whatever it found. *)
Lemma decode_block_break r p q :
  decoded_candidate r = Some q ->
  (exists ev, event r = Some ev
              /\ (String.eqb (section ev) "contracts"
                  && (String.eqb (method ev) "ContractEmitted"
                      || String.eqb (method ev) "ContractExecution")
                  || String.eqb (method ev) "PollCreated") = true) ->
  decode_block r p = (q, true).
Proof.
  intros Hd (ev & He & Hm). unfold decode_block. rewrite He, Hm, Hd.
  reflexivity.
Qed.

Lemma scan_events_decoded r rest p q :
  decoded_candidate r = Some q ->
  (exists ev, event r = Some ev
              /\ (String.eqb (section ev) "contracts"
                  && (String.eqb (method ev) "ContractEmitted"
                      || String.eqb (method ev) "ContractExecution")
                  || String.eqb (method ev) "PollCreated") = true) ->
  scan_events (r :: rest) p = q.
Proof.
  intros Hd Hev. simpl. rewrite (decode_block_break r p q Hd Hev). reflexivity.
Qed.

(** The fallback on the total replaces only an identifier that is 0, and
    only by a positive total. *)
Lemma total_fallback_cases chain p :
  total_fallback chain p = p
  \/ (p = Num 0 /\ gt0 (total_fallback chain p) = true).
Proof.
  unfold total_fallback. destruct (is0 p) eqn:Hp; [|by left].
  destruct (read_total chain) as [t|]; [|by left].
  destruct (gt0 t) eqn:Ht; [|by left].
  right. split; [|done]. destruct p as [|z]; [discriminate|].
  simpl in Hp. apply Z.eqb_eq in Hp. by subst.
Qed.

(** C4, the code at the failing receipt: the [ContractEmitted] event
    carries the identifier 42 as its second topic, and the topic strategy
    reads it when the event cannot be decoded; but when the ABI decodes
    the event with a first argument that converts to 0, the loop is left
    at once with 0, the topics are never read, a later event that decodes
    to 42 is never examined, and with the total unavailable the resolver
    returns 0. *)
Theorem decoded_zero_ends_search :
  topics_of_data emitted (Num 0) = (Num 42, true)
  /\ resolve [undecoded] chain_down = Num 42
  /\ resolve [decoded_zero] chain_down = Num 0
  /\ resolve [decoded_zero; decoded_42] chain_down = Num 0
  /\ resolve [decoded_zero] chain_7 = Num 7.
Proof. repeat split; vm_compute; reflexivity. Qed.

(** What is cached is keyed by a positive identifier. *)
Lemma cache_step_positive now later form resolved db :
  cache_step now later form resolved db <> db -> gt0 resolved = true.
Proof.
  unfold cache_step. destruct (gt0 resolved); [done|]. intros H. by destruct H.
Qed.

End Resolving.

(** * Further properties of the decoder *)

Section Separators.
Import PollList Fixtures Shapes.

(** A text with a comma is [NaN] for [Number_str]: no literal has one. *)
Lemma all_digits_comma dig base s :
  dig comma = None -> In comma (list_ascii_of_string s) ->
  forall acc, all_digits dig base acc s = None.
Proof.
  intros Hd. induction s as [|c s IH]; simpl; [done|].
  intros [Hc|Hin] acc.
  - subst c. by rewrite Hd.
  - destruct (dig c); [by apply IH|done].
Qed.

Lemma nonempty_digits_comma dig base s :
  dig comma = None -> In comma (list_ascii_of_string s) ->
  nonempty_digits dig base s = NaN.
Proof.
  intros Hd Hin. unfold nonempty_digits. destruct s as [|c s]; [done|].
  by rewrite all_digits_comma.
Qed.

Lemma drop_spaces_comma s :
  In comma (list_ascii_of_string s) ->
  In comma (list_ascii_of_string (drop_spaces s)).
Proof.
  induction s as [|c s IH]; simpl; [done|].
  intros [Hc|Hin]; [subst c; by left|].
  destruct (is_space c); [by apply IH|by right].
Qed.

Lemma rev_string_comma s :
  In comma (list_ascii_of_string s) ->
  In comma (list_ascii_of_string (rev_string s)).
Proof.
  intros Hin. unfold rev_string. rewrite list_ascii_of_string_of_list_ascii.
  by apply in_rev in Hin.
Qed.

Lemma trim_comma s :
  In comma (list_ascii_of_string s) -> In comma (list_ascii_of_string (trim s)).
Proof.
  intros Hin. unfold trim.
  by apply rev_string_comma, drop_spaces_comma, rev_string_comma, drop_spaces_comma.
Qed.

Lemma Number_str_comma s :
  In comma (list_ascii_of_string s) -> Number_str s = NaN.
Proof.
  intros Hin%trim_comma. unfold Number_str.
  assert (Hd : digit_of comma = None) by reflexivity.
  assert (Hh : hex_of comma = None) by reflexivity.
  destruct (trim s) as [|a r]; [done|].
  pose proof (nonempty_digits_comma digit_of 10 (String a r) Hd Hin) as Hwhole.
  destruct a as [b0 b1 b2 b3 b4 b5 b6 b7].
  destruct b0, b1, b2, b3, b4, b5, b6, b7; try exact Hwhole.
  - (* + *) destruct Hin as [Hin|Hin]; [discriminate|].
    by apply nonempty_digits_comma.
  - (* - *) destruct Hin as [Hin|Hin]; [discriminate|].
    by rewrite nonempty_digits_comma.
  - (* 0 *) destruct r as [|c r']; [exact Hwhole|].
    destruct c as [c0 c1 c2 c3 c4 c5 c6 c7].
    destruct c0, c1, c2, c3, c4, c5, c6, c7; try exact Hwhole;
      (destruct Hin as [Hin|[Hin|Hin]]; [discriminate|discriminate|];
       by apply nonempty_digits_comma).
Qed.

(** X1, [getTotalPolls]: with a query address at hand, when the text [s]
    reads as the integer [n] ([Number_str s = Num n]) and [0 < n < 2^53],
    each of the twelve encodings of the answer (under [Ok], [ok] or
    [value], as a text or as a number, human-readable or raw, a bare
    number, an array) gives [n]; and when [s] has a comma, as the
    human-readable form of a count of 1000 or more has, each of the four
    encodings of the text gives 0. *)
Theorem positive_count_encodings address s n :
  String.eqb address EmptyString = false ->
  (Number_str s = Num n -> 0 < n < 2 ^ 53 ->
   Forall (fun output => getTotalPolls (Some address) (respond output) = Num n)
          (count_encodings s n))
  /\ (In comma (list_ascii_of_string s) ->
      Forall (fun output => getTotalPolls (Some address) (respond output) = Num 0)
             (text_encodings s)).
Proof.
  intros Ha. split.
  - intros Hs [Hn _].
    assert (Hgt : (0 <? n) = true) by (apply Z.ltb_lt; lia).
    assert (Hz : (n =? 0) = false) by (apply Z.eqb_neq; lia).
    unfold count_encodings.
    repeat constructor; unfold getTotalPolls, respond; rewrite Ha;
      cbn -[Number_str]; rewrite ?Hs;
      unfold or0, is0, gt0, num_truthy, parse_human; cbn;
      repeat (rewrite ?Hz, ?Hgt; cbn); reflexivity.
  - intros Hs%Number_str_comma. unfold text_encodings.
    repeat constructor; unfold getTotalPolls, respond; rewrite Ha;
      cbn -[Number_str]; rewrite ?Hs; reflexivity.
Qed.

Lemma positive_count_encodings_witness :
  Forall (fun output => getTotalPolls (Some alice) (respond output) = Num 7)
         (count_encodings "7" 7)
  /\ Forall (fun output => getTotalPolls (Some alice) (respond output) = Num 0)
            (text_encodings "1,234").
Proof.
  split.
  - apply (positive_count_encodings alice "7" 7); [reflexivity|reflexivity|lia].
  - apply (positive_count_encodings alice "1,234" 0); [reflexivity|].
    simpl. right. left. reflexivity.
Defined.
End Separators.

Section Exactness.
Import PollList Fixtures Shapes.

Lemma exact_assoc k ps v :
  forallb (fun p => exact (snd p)) ps = true -> assoc k ps = Some v ->
  exact v = true.
Proof.
  induction ps as [|[k' x] ps IH]; simpl; [done|].
  intros [Hx Hps]%andb_true_iff. destruct (String.eqb k k'); [|by apply IH].
  by intros [= <-].
Qed.

Lemma exact_props ps h n s :
  exact (Obj ps h n s) = true ->
  forallb (fun p => exact (snd p)) ps = true
  /\ (forall x, h = Some (Val x) -> exact x = true)
  /\ (forall m, n = Some (Val m) -> safe_num m = true)
  /\ (forall t, s = Some t -> exact_text t = true).
Proof.
  simpl. intros [[[H1 H2]%andb_true_iff H3]%andb_true_iff H4]%andb_true_iff.
  split; [done|]. split; [by intros x ->|]. split; [by intros m ->|by intros t ->].
Qed.

Lemma exact_get k v x : exact v = true -> get k v = Val x -> exact x = true.
Proof.
  destruct v as [| |b|n|s|l|ps h n s]; simpl; try discriminate;
    try (by intros _ [= <-]).
  intros He [= <-]. destruct (assoc k ps) as [y|] eqn:E; [|done].
  apply exact_props in He as [Hps _]. by eapply exact_assoc.
Qed.

Lemma exact_get_opt k v : exact v = true -> exact (get_opt k v) = true.
Proof.
  destruct v as [| |b|n|s|l|ps h n s]; try done.
  intros He. unfold get_opt. destruct (assoc k ps) as [y|] eqn:E; [|done].
  apply exact_props in He as [Hps _]. by eapply exact_assoc.
Qed.

Lemma exact_call_toHuman v x :
  exact v = true -> call_toHuman v = Val x -> exact x = true.
Proof.
  destruct v as [| |b|n|s|l|ps [h|] n s]; try discriminate.
  intros He Hc. simpl in Hc. subst h. apply exact_props in He as (_ & H & _).
  by apply H.
Qed.

Lemma exact_call_toNumber v m :
  exact v = true -> call_toNumber v = Val m -> safe_num m = true.
Proof.
  destruct v as [| |b|n|s|l|ps h [n|] s]; try discriminate.
  intros He Hc. simpl in Hc. subst n. apply exact_props in He as (_ & _ & H & _).
  by apply H.
Qed.

Lemma exact_values v : exact v = true -> Forall (fun x => exact x = true) (values v).
Proof.
  destruct v as [| |b|n|s|l|ps h n s]; simpl; try constructor.
  - intros H. apply Forall_forall. intros x Hx.
    rewrite forallb_forall in H. apply H. by apply list_elem_of_In.
  - intros He. apply exact_props in He as [Hps _].
    apply Forall_fmap, Forall_forall. intros [k x] Hx. simpl.
    rewrite forallb_forall in Hps.
    apply (Hps (k, x)). by apply list_elem_of_In.
Qed.

Lemma safe_num_or0 n : safe_num n = true -> safe_num (or0 n) = true.
Proof. unfold or0. by destruct (num_truthy n). Qed.

Lemma exact_text_safe s : exact_text s = true -> safe_num (Number_str s) = true.
Proof. unfold exact_text. by destruct (Number_str s). Qed.

Lemma human_ok_value_safe okValue n :
  exact okValue = true -> human_ok_value okValue = Val n -> safe_num n = true.
Proof.
  intros He. unfold human_ok_value, obj_has.
  destruct okValue as [| |b|m|s|l|ps h m t]; simpl.
  - by intros [= <-].
  - by intros [= <-].
  - destruct b; by intros [= <-].
  - by intros [= <-].
  - intros [= <-]. apply safe_num_or0. by apply exact_text_safe.
  - by intros [= <-].
  - apply exact_props in He as (_ & _ & H & _).
    destruct (assoc "toNumber" ps) as [y|]; simpl;
      (destruct m as [[z|]|]; simpl; try discriminate; try (by intros [= <-]);
       intros [= <-]; apply safe_num_or0; by apply H).
Qed.

Lemma scan_values_safe vs :
  Forall (fun x => exact x = true) vs -> safe_num (scan_values vs) = true.
Proof.
  induction 1 as [|x vs Hx _ IH]; [done|].
  destruct x as [| |b|m|s|l|ps h m t]; simpl; try done.
  destruct (isNaN (Number_str s)); simpl; [done|]. by apply exact_text_safe.
Qed.

Lemma parse_human_safe output n :
  exact output = true -> parse_human output = Val n -> safe_num n = true.
Proof.
  intros He. unfold parse_human.
  destruct (truthy output); [|by intros [= <-]].
  destruct (obj_has "toHuman" output) as [[]|]; simpl;
    [|by intros [= <-]|discriminate].
  destruct (call_toHuman output) as [humanOutput|] eqn:Hc; simpl; [|discriminate].
  pose proof (exact_call_toHuman _ _ He Hc) as Hh.
  destruct (truthy humanOutput && is_object humanOutput).
  - destruct (has "Ok" humanOutput) as [[]|]; simpl; [| |discriminate].
    + destruct (get "Ok" humanOutput) as [okValue|] eqn:Hg; simpl; [|discriminate].
      apply human_ok_value_safe. by eapply exact_get.
    + destruct (has "ok" humanOutput) as [[]|]; simpl; [| |discriminate].
      * destruct (get "ok" humanOutput) as [okValue|] eqn:Hg; simpl; [|discriminate].
        apply human_ok_value_safe. by eapply exact_get.
      * destruct (is_number humanOutput).
        -- destruct humanOutput; intros [= <-]; done.
        -- intros [= <-]. by apply scan_values_safe, exact_values.
  - destruct (is_number humanOutput); [|by intros [= <-]].
    destruct humanOutput; intros [= <-]; done.
Qed.

Lemma raw_ok_value_safe okValue n :
  exact okValue = true -> raw_ok_value okValue = Val n -> safe_num n = true.
Proof.
  intros He. unfold raw_ok_value.
  destruct (is_number okValue).
  - destruct okValue; intros [= <-]; done.
  - destruct (obj_has "toNumber" okValue) as [[]|]; simpl;
      [|by intros [= <-]|discriminate].
    destruct (call_toNumber okValue) as [m|] eqn:Hc; simpl; [|discriminate].
    intros [= <-]. apply safe_num_or0. by eapply exact_call_toNumber.
Qed.

Lemma parse_raw_safe output n :
  exact output = true -> parse_raw output = Val n -> safe_num n = true.
Proof.
  intros He. unfold parse_raw.
  destruct (obj_has "ok" output) as [[]|]; simpl; [| |discriminate].
  { destruct (get "ok" output) as [okValue|] eqn:Hg; simpl; [|discriminate].
    apply raw_ok_value_safe. by eapply exact_get. }
  destruct (obj_has "Ok" output) as [[]|]; simpl; [| |discriminate].
  { destruct (get "Ok" output) as [okValue|] eqn:Hg; simpl; [|discriminate].
    apply raw_ok_value_safe. by eapply exact_get. }
  destruct (obj_has "toNumber" output) as [[]|]; simpl; [| |discriminate].
  { destruct (call_toNumber output) as [m|] eqn:Hc; simpl; [|discriminate].
    intros [= <-]. destruct (gt0 m); [by eapply exact_call_toNumber|done]. }
  destruct (is_number output); [|by intros [= <-]].
  destruct output; intros [= <-]; done.
Qed.

Lemma pick_output_exact result output :
  exact result = true -> pick_output result = Val output -> exact output = true.
Proof.
  intros He. unfold pick_output.
  destruct (get "output" result) as [o|] eqn:Hg; simpl; [|discriminate].
  intros [= <-]. destruct (_ && _).
  - by apply exact_get_opt, exact_get_opt.
  - by eapply exact_get.
Qed.

Lemma parse_total_safe result n :
  exact result = true -> parse_total result = Val n -> safe_num n = true.
Proof.
  intros He. unfold parse_total.
  destruct (pick_output result) as [output|] eqn:Hp; simpl; [|discriminate].
  pose proof (pick_output_exact _ _ He Hp) as Ho.
  assert (Hh : safe_num (catch (parse_human output) (Num 0)) = true).
  { destruct (parse_human output) as [m|] eqn:E; simpl; [|done].
    by eapply parse_human_safe. }
  destruct (is0 _ && truthy output).
  - destruct (parse_raw output) as [m|] eqn:E; simpl; [|discriminate].
    intros [= <-]. destruct (gt0 m); [by eapply parse_raw_safe|done].
  - simpl. intros [= <-]. by destruct (gt0 _).
Qed.

(** X2, [getTotalPolls]: when every answer of the query is [exact] (its
    numbers are [NaN] or integers of absolute value below [2^53], and
    each of its texts either reads as such an integer or has an ASCII
    character that no numeric literal has, so that [Number_str] and
    [Number] agree on it), the count returned is an integer [n] with
    [0 <= n < 2^53], whether or not an address is at hand. *)
Theorem getTotalPolls_is_a_count queryAddress query :
  (forall address result, query address = Val result -> exact result = true) ->
  exists n, 0 <= n < 2 ^ 53 /\ getTotalPolls queryAddress query = Num n.
Proof.
  intros Hq. destruct (getTotalPolls_count queryAddress query) as (z & Hz & Hn).
  exists z. split; [|done]. split; [done|].
  assert (Hs : safe_num (getTotalPolls queryAddress query) = true).
  { unfold getTotalPolls. destruct queryAddress as [address|]; [|done].
    destruct (String.eqb address EmptyString); [done|].
    destruct (query address) as [result|] eqn:E; simpl; [|done].
    destruct (parse_total result) as [m|] eqn:Ep; simpl; [|done].
    eapply parse_total_safe; [|exact Ep]. by eapply Hq. }
  rewrite Hn in Hs. simpl in Hs. unfold safe in Hs.
  apply andb_true_iff in Hs as [_ Hs]. by apply Z.ltb_lt in Hs.
Qed.

Lemma getTotalPolls_is_a_count_witness :
  exists n, 0 <= n < 2 ^ 53
            /\ getTotalPolls (Some alice) (respond (codec (plain [("Ok", Str "1,234")])))
               = Num n.
Proof.
  apply (getTotalPolls_is_a_count (Some alice)
           (respond (codec (plain [("Ok", Str "1,234")])))).
  intros address result [= <-]. reflexivity.
Defined.
End Exactness.

(** * The status callback of the creation form *)

Section MoreResolving.
Import Database Invariant CreatePoll Submission Receipts Shapes Samples Fixtures.








(** X5, the status callback of [handleSubmit]: a status update that does
    not reach the search (a dispatch error, a [system.ExtrinsicFailed]
    event, neither in a block nor finalized, or a throwing block reading
    or printing) leaves the database as it was, does not call
    [onPollCreated] and does not end in success: with a dispatch error it
    shows the message of that error, with a [system.ExtrinsicFailed]
    event the message of a failed transaction, in both cases leaving the
    variables of the closure alone; before inclusion it does nothing;
    otherwise an exception leaves it. *)
Theorem unreached_search_changes_nothing now later api onPollCreated chain
        result form db :
  reaches_search api result = false ->
  let out := on_status now later api onPollCreated chain result form db in
  database out = db
  /\ notified out = false
  /\ (forall p, verdict out <> Created p)
  /\ (forall e, dispatchError result = Some e ->
        verdict out = Rejected (dispatch_message api e) /\ closure out = form)
  /\ (dispatchError result = None ->
      existsb extrinsic_failed (default [] (events result)) = true ->
      verdict out = Rejected "La transacción falló en la cadena. Verifica que tengas suficientes fondos y permisos."
      /\ closure out = form)
  /\ (dispatchError result = None ->
      existsb extrinsic_failed (default [] (events result)) = false ->
      (isInBlock result || isFinalized result = false ->
       verdict out = Ignored /\ closure out = form)
      /\ (isInBlock result || isFinalized result = true ->
          verdict out = Aborted)).
Proof.
  intros Hr. cbn zeta. unfold on_status. unfold reaches_search in Hr.
  destruct (dispatchError result) as [e|].
  { simpl. do 3 (split; [done|]). split; [by intros ? [= <-]|]. done. }
  destruct (existsb extrinsic_failed (default [] (events result))) eqn:He.
  { simpl. do 3 (split; [done|]). done. }
  simpl in Hr.
  destruct (isInBlock result || isFinalized result) eqn:Hs.
  2:{ simpl. do 3 (split; [done|]). done. }
  simpl in Hr.
  assert (Hcase : (read_block api result form).2 = false \/ prints result = false).
  { destruct (prints result); [|by right]. left.
    rewrite andb_true_r in Hr. apply orb_false_iff in Hr as [Hr1 Hr2].
    apply negb_false_iff in Hr1. unfold read_block, record_txHash. rewrite Hr1.
    destruct (txHash result); [discriminate|].
    by destruct (getBlock result) as [[[n|] [h|]]|]. }
  destruct (read_block api result form) as [form1 ok]. simpl in Hcase.
  destruct ok.
  - destruct Hcase as [?|Hp]; [done|]. rewrite Hp. simpl.
    do 3 (split; [done|]). done.
  - simpl. do 3 (split; [done|]). done.
Qed.



Lemma unreached_search_changes_nothing_witness :
  (let out := on_status 5 6 true true chain_7
                (included [decoded_42; extrinsic_failure]) form db1 in
   database out = db1
   /\ notified out = false
   /\ verdict out = Rejected "La transacción falló en la cadena. Verifica que tengas suficientes fondos y permisos.")
  /\ (let out := on_status 5 6 true true chain_7 out_of_gas form db1 in
      database out = db1
      /\ verdict out = Rejected "Error: La transacción se quedó sin gas. Intenta aumentar el límite de gas.")
  /\ (let out := on_status 5 6 true true chain_7 broadcast form db1 in
      database out = db1 /\ verdict out = Ignored).
Proof.
  split; [|split].
  - destruct (unreached_search_changes_nothing 5 6 true true chain_7
                (included [decoded_42; extrinsic_failure]) form db1)
      as (Hdb & Hn & _ & _ & Hfailed & _); [reflexivity|].
    split; [exact Hdb|]. split; [exact Hn|].
    apply Hfailed; reflexivity.
  - destruct (unreached_search_changes_nothing 5 6 true true chain_7
                out_of_gas form db1)
      as (Hdb & _ & _ & Herror & _); [reflexivity|].
    split; [exact Hdb|]. apply (Herror _ eq_refl).
  - destruct (unreached_search_changes_nothing 5 6 true true chain_7
                broadcast form db1)
      as (Hdb & _ & _ & _ & _ & Hrest); [reflexivity|].
    split; [exact Hdb|]. apply Hrest; reflexivity.
Defined.
End MoreResolving.

(** * Further properties of the cache *)

Section MoreCache.
Import Database Invariant ContractMetadata Merge Fixtures Shapes.

(** X6, [savePollMetadata] and [getPollMetadata]: after a successful save
    on a readable database, reading the saved identifier returns the
    record as prepared for storage, and reading any other identifier
    returns what it returned before. *)
Theorem save_then_get now metadata db db' :
  savePollMetadata now metadata db = Val db' -> reads db = true ->
  getPollMetadata (pollId metadata) db' = Val (Some (dataToSave now metadata))
  /\ forall k, Num k <> pollId metadata ->
       getPollMetadata (Num k) db' = getPollMetadata (Num k) db.
Proof.
  intros Hs Hr. pose proof Hs as Hs'.
  apply savePollMetadata_inv in Hs as (j & Hj & Hj0 & ->).
  unfold savePollMetadata in Hs'.
  destruct (num_truthy (pollId metadata)); simpl in Hs'; [|discriminate].
  destruct (opens db) eqn:Ho; simpl in Hs'; [|discriminate].
  destruct (has_polls db) eqn:Hp; simpl in Hs'; [|discriminate].
  unfold getPollMetadata. simpl. rewrite Ho, Hp, Hr. simpl. rewrite Hj. split.
  - by rewrite lookup_insert_eq.
  - intros k Hk. rewrite lookup_insert_ne; [done|]. congruence.
Qed.

Lemma save_then_get_witness :
  let db' := with_polls empty_db (<[1 := dataToSave 6 row1]> (polls empty_db)) in
  getPollMetadata (Num 1) db' = Val (Some (dataToSave 6 row1))
  /\ forall k, Num k <> Num 1 ->
       getPollMetadata (Num k) db' = getPollMetadata (Num k) empty_db.
Proof.
  apply (save_then_get 6 row1 empty_db); reflexivity.
Defined.

Lemma or0_idem n : or0 (or0 n) = or0 n.
Proof.
  destruct n as [|z]; [reflexivity|]. unfold or0. simpl.
  destruct (z =? 0) eqn:E; simpl; [reflexivity|]. by rewrite E.
Qed.

(** X7, [syncPollMetadata]: merging is stable. When a merge of poll [k]
    has returned a view carrying the identifier [k], the row it stored is
    that view as prepared for storage, and a second merge against the same
    contract returns the same view, only with the time of the second
    merge as [lastSynced]. *)
Theorem sync_twice now1 later1 now2 later2 c k queryAddress db view db1 :
  syncPollMetadata now1 later1 c (Num k) queryAddress db = (Some view, db1) ->
  pollId view = Num k ->
  exists db2,
    syncPollMetadata now2 later2 c (Num k) queryAddress db1
    = (Some (restamp now2 view), db2)
    /\ getPollMetadata (Num k) db1 = Val (Some (dataToSave later1 view)).
Proof.
  unfold syncPollMetadata.
  destruct (getPollMetadataFromContract c (Num k) queryAddress) as [remote|];
    [|discriminate].
  destruct (getPollMetadata (Num k) db) as [row|] eqn:Hg; [|discriminate].
  destruct (savePollMetadata later1 _ db) as [d|] eqn:Hs; [|discriminate].
  intros [= <- <-] Hid.
  pose proof Hs as Hs'.
  apply savePollMetadata_inv in Hs as (j & Hj & Hj0 & ->).
  rewrite Hid in Hj. injection Hj as <-.
  unfold getPollMetadata in Hg |- *. cbn [with_polls opens has_polls reads polls].
  destruct (opens db) eqn:Ho; simpl in Hg; [|discriminate].
  destruct (has_polls db) eqn:Hp; simpl in Hg; [|discriminate].
  destruct (reads db) eqn:Hrd; simpl in Hg; [|discriminate].
  simpl. rewrite lookup_insert_eq.
  set (view := syncedMetadata now1 remote row) in *.
  assert (Hre : syncedMetadata now2 remote (Some (dataToSave later1 view))
                = restamp now2 view).
  { unfold restamp, view, syncedMetadata, dataToSave. simpl.
    f_equal. destruct row as [l|]; simpl; [|reflexivity].
    by rewrite !or0_idem. }
  rewrite Hre.
  unfold savePollMetadata in Hs' |- *. cbn [with_polls opens has_polls writes polls].
  change (pollId (restamp now2 view)) with (pollId view).
  destruct (num_truthy (pollId view)); simpl in Hs' |- *; [|discriminate].
  rewrite Ho, Hp in Hs' |- *. simpl in Hs' |- *.
  destruct (writes db); simpl in Hs' |- *; [|discriminate].
  change (id remote) with (pollId view). rewrite Hid. eauto.
Qed.

Lemma sync_twice_witness :
  exists view db1' db2,
    syncPollMetadata 5 6 contract (Num 1) (Some alice) db1 = (Some view, db1')
    /\ syncPollMetadata 7 8 contract (Num 1) (Some alice) db1'
       = (Some (restamp 7 view), db2)
    /\ getPollMetadata (Num 1) db1' = Val (Some (dataToSave 6 view)).
Proof.
  destruct (sync_twice 5 6 7 8 contract 1 (Some alice) db1 _ _ eq_refl eq_refl)
    as (db2 & H1 & H2).
  eexists _, _, db2. split; [reflexivity|]. split; [exact H1|exact H2].
Defined.

End MoreCache.

(** * Further properties of the confirmation effect *)

Section MoreWatching.
Import Confirmation ConfirmationStates Shapes.

Lemma count_insert (l : list Tick) i t :
  l !! i = Some AwaitTotal -> awaiting_total t = false ->
  S (length (filter (fun t => awaiting_total t = true) (<[i := t]> l)))
  = length (filter (fun t => awaiting_total t = true) l).
Proof.
  intros Hi Ht. rewrite <- (take_drop_middle l i AwaitTotal Hi) at 2.
  rewrite insert_take_drop by (by eapply lookup_lt_Some).
  rewrite !filter_app, !length_app, !filter_cons. simpl.
  repeat case_decide; simpl; try congruence; lia.
Qed.

Lemma count_delete_total (l : list Tick) i :
  l !! i = Some AwaitTotal ->
  S (length (filter (fun t => awaiting_total t = true) (delete i l)))
  = length (filter (fun t => awaiting_total t = true) l).
Proof.
  intros Hi. rewrite <- (take_drop_middle l i AwaitTotal Hi) at 2.
  rewrite delete_take_drop.
  rewrite !filter_app, !length_app, !filter_cons. simpl.
  repeat case_decide; simpl; try congruence; lia.
Qed.

Lemma count_delete_load (l : list Tick) i b :
  l !! i = Some (AwaitLoad b) ->
  length (filter (fun t => awaiting_total t = true) (delete i l))
  = length (filter (fun t => awaiting_total t = true) l).
Proof.
  intros Hi. rewrite <- (take_drop_middle l i _ Hi) at 2.
  rewrite delete_take_drop.
  rewrite !filter_app, !length_app, !filter_cons. simpl.
  repeat case_decide; simpl; try congruence; lia.
Qed.

Lemma step_accounted w e : accounted w -> accounted (step w e).
Proof.
  intros [Hc Ha]. unfold accounted, pending_totals in *.
  assert (Hsame :
    (length (loads w)
     + length (filter (fun t => awaiting_total t = true) (ticks w))
     <= attempts w)%nat
    /\ (timeoutId_armed w = true ->
        checkInterval w = None /\ baseline_pending w = false
        /\ ticks w = [] /\ loads w = [])) by (split; assumption).
  destruct e as [|total| |i total|i|]; cbn [step].
  - destruct (timeoutId_armed w) eqn:E; [|rewrite ?E; exact Hsame].
    destruct (Ha eq_refl) as (_ & _ & Ht & Hl). simpl.
    rewrite Ht, Hl. simpl. split; [lia|done].
  - destruct (baseline_pending w) eqn:E; [|rewrite ?E; exact Hsame]. simpl.
    split; [done|]. intros Harm. destruct (Ha Harm) as (_ & Hb & _). congruence.
  - destruct (ticking w) eqn:E; [|rewrite ?E; exact Hsame]. simpl.
    rewrite filter_app, length_app. simpl. split; [lia|].
    intros Harm. destruct (Ha Harm) as (Hn & _). unfold ticking in E.
    rewrite Hn in E. discriminate.
  - destruct (ticks w !! i) as [[|b]|] eqn:Hi; try exact Hsame.
    assert (Harm : timeoutId_armed w = false).
    { destruct (timeoutId_armed w); [|done].
      destruct (Ha eq_refl) as (_ & _ & Ht & _). rewrite Ht in Hi. done. }
    unfold decide_tick.
    destruct (_ <? _); [|destruct (_ <=? _)%nat; [|destruct (_ =? _)%nat]];
      simpl; (split; [|intros; congruence]).
    + pose proof (count_insert (ticks w) i (AwaitLoad true) Hi eq_refl). lia.
    + pose proof (count_insert (ticks w) i (AwaitLoad true) Hi eq_refl). lia.
    + pose proof (count_insert (ticks w) i (AwaitLoad false) Hi eq_refl). lia.
    + pose proof (count_delete_total (ticks w) i Hi). lia.
  - destruct (ticks w !! i) as [[|b]|] eqn:Hi; try exact Hsame. simpl.
    rewrite (count_delete_load _ _ _ Hi). split; [done|].
    intros Harm. destruct (Ha Harm) as (_ & _ & Ht & _). rewrite Ht in Hi. done.
  - simpl. split; [done|]. intros; congruence.
Qed.

Lemma step_attempts w e :
  accounted w ->
  (attempts (step w e) <= attempts w + (if interval_fires e then 1 else 0))%nat.
Proof.
  intros [_ Ha]. destruct e as [|total| |i total|i|]; cbn [step interval_fires].
  - destruct (timeoutId_armed w); simpl; lia.
  - destruct (baseline_pending w); simpl; lia.
  - destruct (ticking w); simpl; lia.
  - destruct (ticks w !! i) as [[|b]|]; try lia. unfold decide_tick.
    destruct (_ <? _); [|destruct (_ <=? _)%nat; [|destruct (_ =? _)%nat]];
      simpl; lia.
  - destruct (ticks w !! i) as [[|b]|]; simpl; lia.
  - simpl. lia.
Qed.

Lemma run_accounted events : forall w,
  accounted w ->
  accounted (run events w)
  /\ (attempts (run events w)
      <= attempts w + length (filter (fun e => interval_fires e = true) events))%nat.
Proof.
  induction events as [|e es IH]; intros w Hw.
  - simpl. split; [done|lia].
  - rewrite run_cons. pose proof (step_accounted w e Hw) as Hs.
    destruct (IH _ Hs) as [Hacc Hle]. split; [done|].
    pose proof (step_attempts w e Hw). rewrite filter_cons.
    destruct (decide (interval_fires e = true)) as [E|E].
    + rewrite E in *. simpl in *. lia.
    + apply not_true_is_false in E. rewrite E in *. simpl in *. lia.
Qed.

(** X8, the confirmation effect of [PollList]: under every schedule of
    events, serial or not, [loadPolls] is called at most once per attempt,
    and there are at most as many attempts as firings of the interval. *)
Theorem loads_bounded_by_ticks events :
  let w := run events start in
  (length (loads w) <= attempts w)%nat
  /\ (attempts w <= length (filter (fun e => interval_fires e = true) events))%nat.
Proof.
  assert (Hs : accounted start).
  { split; [unfold pending_totals; simpl; lia|]. intros _. repeat split. }
  destruct (run_accounted events start Hs) as [[Hc _] Hle].
  cbn zeta. change (attempts start) with 0%nat in Hle. split; lia.
Qed.

(** X9, the confirmation effect of [PollList]: a cleanup that arrives
    while nothing is awaited stops everything. Before the timeout has
    fired no attempt is ever made; between two attempts the calls of
    [loadPolls] and the number of attempts stay as they were, whatever
    events follow. *)
Theorem cleanup_outside_awaits baseline j events :
  loads (run events (step start Cleanup)) = []
  /\ attempts (run events (step start Cleanup)) = 0%nat
  /\ loads (run events (step (waiting baseline j) Cleanup)) = every_third j
  /\ attempts (run events (step (waiting baseline j) Cleanup)) = j.
Proof.
  rewrite !run_inert; repeat split.
Qed.

End MoreWatching.

(** * The logger *)

Section LoggerProofs.
Import Logging.

Lemma slice_from_end_length {A} n (l : list A) :
  length (slice_from_end n l) = (length l `min` n)%nat.
Proof. unfold slice_from_end. rewrite length_drop. lia. Qed.

Lemma slice_from_end_all {A} n (l : list A) :
  (length l <= n)%nat -> slice_from_end n l = l.
Proof.
  intros H. unfold slice_from_end.
  replace (length l - n)%nat with 0%nat by lia. reflexivity.
Qed.

Lemma slice_from_end_snoc {A} n (l : list A) e :
  (0 < n)%nat ->
  slice_from_end n (slice_from_end n l ++ [e]) = slice_from_end n (l ++ [e]).
Proof.
  intros Hn. unfold slice_from_end.
  rewrite !length_app, length_drop. simpl.
  destruct (decide (length l <= n)%nat) as [H|H].
  - replace (length l - n)%nat with 0%nat by lia. simpl.
    f_equal. lia.
  - replace (length l - (length l - n) + 1 - n)%nat with 1%nat by lia.
    replace (length l + 1 - n)%nat with (S (length l - n)) by lia.
    rewrite !drop_app_le by (rewrite ?length_drop; lia).
    f_equal. rewrite drop_drop. f_equal. lia.
Qed.

Lemma log_logs first random now lvl msg d src lg :
  (length (logs lg) <= maxLogs)%nat ->
  logs (log first random now lvl msg d src lg).1
  = slice_from_end maxLogs
      (logs lg ++ [{| id := pretty first +:+ "-" +:+ random; timestamp := now;
                      level := lvl; message := msg; data := d;
                      source := src |}]).
Proof.
  intros H. unfold log. cbn [fst logs].
  destruct (_ <? _)%nat eqn:E; [reflexivity|].
  apply Nat.ltb_ge in E. by rewrite slice_from_end_all.
Qed.

Lemma call_bounded c lg :
  (length (logs lg) <= maxLogs)%nat ->
  (length (logs (call c lg).1) <= maxLogs)%nat
  /\ Forall (fun n => length n.2 <= maxLogs)%nat (call c lg).2.
Proof.
  intros H. destruct c as [first random now lvl msg d src| |l|l]; simpl.
  - assert (Hk : (length (if (maxLogs <? length (logs lg ++ [{| id := pretty first +:+ "-" +:+ random; timestamp := now;
                      level := lvl; message := msg; data := d;
                      source := src |}]))%nat then slice_from_end maxLogs (logs lg ++ [{| id := pretty first +:+ "-" +:+ random; timestamp := now;
                      level := lvl; message := msg; data := d;
                      source := src |}]) else (logs lg ++ [{| id := pretty first +:+ "-" +:+ random; timestamp := now;
                      level := lvl; message := msg; data := d;
                      source := src |}])) <= maxLogs)%nat).
    { destruct (_ <? _)%nat eqn:E.
      - rewrite slice_from_end_length. lia.
      - by apply Nat.ltb_ge in E. }
    split; [exact Hk|]. apply Forall_map, Forall_forall. intros x _. exact Hk.
  - split; [lia|]. apply Forall_map, Forall_forall. intros x _. simpl. lia.
  - split; [done|constructor].
  - split; [done|constructor].
Qed.

Lemma session_cons c rest lg :
  session (c :: rest) lg
  = ((session rest (call c lg).1).1, (call c lg).2 ++ (session rest (call c lg).1).2)%list.
Proof.
  simpl. destruct (call c lg) as [lg1 n1]. simpl.
  by destruct (session rest lg1).
Qed.

Lemma session_bounded calls : forall lg,
  (length (logs lg) <= maxLogs)%nat ->
  (length (logs (session calls lg).1) <= maxLogs)%nat
  /\ Forall (fun n => length n.2 <= maxLogs)%nat (session calls lg).2.
Proof.
  induction calls as [|c rest IH]; intros lg H.
  - simpl. split; [done|constructor].
  - rewrite session_cons. cbn [fst snd].
    destruct (call_bounded c lg H) as [H1 H2].
    destruct (IH _ H1) as [H3 H4]. split; [done|]. by apply Forall_app.
Qed.

(** X10, [Logger]: whatever calls are made on a new logger, it never
    holds more than 1000 entries, and no listener is ever handed more
    than 1000. *)
Theorem log_is_bounded calls :
  (length (getLogs (session calls fresh).1) <= 1000)%nat
  /\ Forall (fun n => length n.2 <= 1000)%nat (session calls fresh).2.
Proof. apply (session_bounded calls fresh). simpl. lia. Qed.

Lemma session_logs calls : forall lg acc,
  (length (logs lg) <= maxLogs)%nat ->
  logs lg = slice_from_end maxLogs acc ->
  logs (session calls lg).1 = slice_from_end maxLogs (since_clear calls acc).
Proof.
  induction calls as [|c rest IH]; intros lg acc Hb Hacc; [done|].
  rewrite session_cons. cbn [fst].
  pose proof (call_bounded c lg Hb) as [Hb' _].
  destruct c as [first random now lvl msg d src| |l|l]; cbn [since_clear].
  - apply IH; [done|]. cbn [call].
    change ((let '(lg', fx) := log first random now lvl msg d src lg in (lg', notified fx)).1)
      with (log first random now lvl msg d src lg).1.
    rewrite log_logs by done. rewrite Hacc.
    apply slice_from_end_snoc. unfold maxLogs. lia.
  - apply IH; [done|]. reflexivity.
  - apply IH; done.
  - apply IH; done.
Qed.

(** X11, [Logger.log], [Logger.clear]: trimming at every call loses
    nothing that one trimming at the end would keep: the log is always
    the last 1000 of the entries logged since the last [clear], in the
    order they were logged. *)
Theorem log_keeps_latest calls :
  getLogs (session calls fresh).1
  = slice_from_end 1000 (since_clear calls []).
Proof.
  apply (session_logs calls fresh []); [simpl; lia|reflexivity].
Qed.


Lemma session_app pre post lg :
  (session (pre ++ post) lg).1 = (session post (session pre lg).1).1.
Proof.
  revert lg. induction pre as [|c rest IH]; intros lg; [done|].
  rewrite <- app_comm_cons, !session_cons. cbn [fst]. apply IH.
Qed.

Lemma received_app l a b :
  received l (a ++ b) = (received l a ++ received l b)%list.
Proof. unfold received. by rewrite filter_app, map_app. Qed.

Lemma received_present l (k : list LogEntry) ls :
  NoDup ls -> l ∈ ls -> received l (map (fun x => (x, k)) ls) = [k].
Proof.
  induction 1 as [|x ls Hx Hnd IH]; [by intros ?%elem_of_nil|].
  intros Hin. unfold received in *. simpl. rewrite filter_cons. simpl.
  case_decide as Hxl.
  - subst x. simpl. f_equal.
    clear IH Hin Hnd. induction ls as [|y ls IH]; [done|]. simpl.
    apply not_elem_of_cons in Hx as [Hy Hx]. rewrite filter_cons. simpl.
    case_decide; [congruence|]. by apply IH.
  - apply IH. apply elem_of_cons in Hin as [->|]; [done|done].
Qed.

Lemma received_absent l (k : list LogEntry) ls :
  l ∉ ls -> received l (map (fun x => (x, k)) ls) = [].
Proof.
  induction ls as [|y ls IH]; [done|]. intros [Hy Hx]%not_elem_of_cons.
  unfold received in *. simpl. rewrite filter_cons. simpl.
  case_decide; [congruence|]. by apply IH.
Qed.

Lemma call_listeners c lg :
  NoDup (listeners lg) ->
  NoDup (listeners (call c lg).1)
  /\ forall l,
      (l ∈ listeners lg -> is_unsubscribe l c = false ->
       l ∈ listeners (call c lg).1)
      /\ (l ∉ listeners lg -> is_subscribe l c = false ->
          l ∉ listeners (call c lg).1).
Proof.
  intros Hnd. destruct c as [first random now lvl msg d src| |x|x]; simpl.
  - split; [done|]. by intros l.
  - split; [done|]. by intros l.
  - case_bool_decide as Hx.
    + split; [done|]. by intros l.
    + split.
      * apply NoDup_app. split; [done|]. split; [|apply NoDup_singleton].
        intros y Hy Hy2%list_elem_of_singleton. by subst.
      * intros l. split.
        -- intros Hl _. apply elem_of_app. by left.
        -- intros Hl Hs. apply Nat.eqb_neq in Hs.
           intros [?|Hy%list_elem_of_singleton]%elem_of_app; [done|by subst].
  - split; [by apply NoDup_filter|]. intros l. split.
    + intros Hl Hu. apply list_elem_of_filter. split; [|done].
      apply Nat.eqb_neq in Hu. congruence.
    + intros Hl _ Hin. by apply list_elem_of_filter in Hin as [_ Hin].
Qed.

Lemma session_listeners calls : forall lg,
  NoDup (listeners lg) -> NoDup (listeners (session calls lg).1).
Proof.
  induction calls as [|c rest IH]; intros lg H; [done|].
  rewrite session_cons. cbn [fst]. apply IH. by apply call_listeners.
Qed.

Lemma call_received c lg l :
  NoDup (listeners lg) ->
  (l ∈ listeners lg ->
   received l (call c lg).2
   = if announces c then [logs (call c lg).1] else [])
  /\ (l ∉ listeners lg -> received l (call c lg).2 = []).
Proof.
  intros Hnd. destruct c as [first random now lvl msg d src| |x|x]; simpl.
  - split; intros Hl; [by apply received_present|by apply received_absent].
  - split; intros Hl; [by apply received_present|by apply received_absent].
  - done.
  - done.
Qed.

Lemma heard_while_subscribed post l : forall lg,
  NoDup (listeners lg) -> l ∈ listeners lg ->
  Forall (fun c => is_unsubscribe l c = false) post ->
  received l (session post lg).2 = announced post lg.
Proof.
  induction post as [|c rest IH]; intros lg Hnd Hl Hpost; [done|].
  apply Forall_cons in Hpost as [Hc Hrest].
  rewrite session_cons. cbn [snd announced]. rewrite received_app.
  destruct (call_listeners c lg Hnd) as [Hnd' Hmem].
  destruct (Hmem l) as [Hkeep _].
  destruct (call_received c lg l Hnd) as [Hrc _]. rewrite (Hrc Hl).
  rewrite IH; [|done|by apply Hkeep|done]. by destruct (announces c).
Qed.

Lemma silent_while_unsubscribed post l : forall lg,
  NoDup (listeners lg) -> l ∉ listeners lg ->
  Forall (fun c => is_subscribe l c = false) post ->
  received l (session post lg).2 = [].
Proof.
  induction post as [|c rest IH]; intros lg Hnd Hl Hpost; [done|].
  apply Forall_cons in Hpost as [Hc Hrest].
  rewrite session_cons. cbn [snd]. rewrite received_app.
  destruct (call_listeners c lg Hnd) as [Hnd' Hmem].
  destruct (Hmem l) as [_ Hout].
  destruct (call_received c lg l Hnd) as [_ Hrc]. rewrite (Hrc Hl).
  rewrite IH; [done|done|by apply Hout|done].
Qed.

(** X12, [Logger.subscribe]: from its subscription on and as long as it
    is not unsubscribed, a listener is called exactly once for each [log]
    and each [clear], in order, with the log as it is right after that
    call; subscribing it again in between does not make it hear twice. *)
Theorem listeners_hear_each_change pre post l :
  Forall (fun c => is_unsubscribe l c = false) post ->
  let lg := (session (pre ++ [Subscribe l]) fresh).1 in
  received l (session post lg).2 = announced post lg.
Proof.
  intros Hpost lg. apply heard_while_subscribed; [| |done].
  - apply session_listeners. apply NoDup_nil_2.
  - unfold lg. rewrite session_app. simpl.
    case_bool_decide; [done|]. apply elem_of_app. right. by apply list_elem_of_singleton.
Qed.

Lemma listeners_hear_each_change_witness :
  let lg := (session ([Subscribe 1%nat; Subscribe 2%nat] ++ [Subscribe 1%nat]) fresh).1 in
  received 1%nat
    (session [Log 5 "a" 5 INFO "m" Undef None; Unsubscribe 2%nat; Subscribe 1%nat; Clear]
             lg).2
  = announced [Log 5 "a" 5 INFO "m" Undef None; Unsubscribe 2%nat; Subscribe 1%nat; Clear]
              lg.
Proof.
  apply (listeners_hear_each_change [Subscribe 1%nat; Subscribe 2%nat]
           [Log 5 "a" 5 INFO "m" Undef None; Unsubscribe 2%nat; Subscribe 1%nat; Clear]
           1%nat).
  repeat constructor.
Defined.

(** X13, the function returned by [Logger.subscribe]: once unsubscribed,
    and until it is subscribed again, a listener is never called. *)
Theorem unsubscribed_hear_nothing pre post l :
  Forall (fun c => is_subscribe l c = false) post ->
  received l (session post (session (pre ++ [Unsubscribe l]) fresh).1).2 = [].
Proof.
  intros Hpost. apply silent_while_unsubscribed; [| |done].
  - apply session_listeners. apply NoDup_nil_2.
  - rewrite session_app. simpl.
    by intros [H _]%list_elem_of_filter.
Qed.

Lemma unsubscribed_hear_nothing_witness :
  received 1%nat
    (session [Log 5 "a" 5 INFO "m" Undef None; Subscribe 2%nat; Clear]
       (session ([Subscribe 1%nat; Subscribe 2%nat] ++ [Unsubscribe 1%nat]) fresh).1).2
  = [].
Proof.
  apply (unsubscribed_hear_nothing [Subscribe 1%nat; Subscribe 2%nat]
           [Log 5 "a" 5 INFO "m" Undef None; Subscribe 2%nat; Clear] 1%nat).
  repeat constructor.
Defined.

End LoggerProofs.

(** * The list of cached polls *)

Section ListingProofs.
Import Database Invariant Listing Fixtures.

Lemma sorted_strict (l : list (Z * PollMetadata)) :
  StronglySorted by_key l -> NoDup (l.*1) ->
  StronglySorted (fun a b => a.1 < b.1) l.
Proof.
  induction 1 as [|a l Hs IH Ha]; intros Hnd; [constructor|].
  rewrite fmap_cons in Hnd. apply NoDup_cons in Hnd as [Hnot Hnd].
  constructor; [by apply IH|].
  apply Forall_forall. intros b Hb.
  rewrite Forall_forall in Ha. specialize (Ha b Hb). unfold by_key in Ha.
  assert (a.1 <> b.1).
  { intros E. apply Hnot. rewrite E. by apply list_elem_of_fmap_2. }
  lia.
Qed.

(** X14, [getAllPollMetadata]: on a readable database whose rows sit
    under their own identifier, the list returned has one entry per row
    of the store, contains exactly the rows of the store, and is in
    strictly ascending order of [pollId]; no identifier occurs twice. *)
Theorem getAllPollMetadata_lists db :
  opens db = true -> has_polls db = true -> reads db = true -> keyed db ->
  exists rows,
    getAllPollMetadata db = Val rows
    /\ length rows = size (polls db)
    /\ (forall row, row ∈ rows <-> exists k, polls db !! k = Some row)
    /\ StronglySorted
         (fun a b => exists x y, pollId a = Num x /\ pollId b = Num y /\ x < y)
         rows.
Proof.
  intros Ho Hp Hr Hk. unfold getAllPollMetadata. rewrite Ho, Hp, Hr. simpl.
  eexists. split; [reflexivity|].
  set (l := merge_sort by_key (map_to_list (polls db))).
  assert (Hperm : l ≡ₚ map_to_list (polls db)) by apply merge_sort_Permutation.
  assert (Hin : forall k row, (k, row) ∈ l <-> polls db !! k = Some row).
  { intros k row. rewrite Hperm. apply elem_of_map_to_list. }
  split; [|split].
  - rewrite length_fmap, Hperm. apply length_map_to_list.
  - intros row. rewrite list_elem_of_fmap. split.
    + intros [[k r] [-> H]]. exists k. by apply Hin.
    + intros [k H]. exists (k, row). split; [done|]. by apply Hin.
  - assert (Hs : StronglySorted (fun a b => a.1 < b.1) l).
    { apply sorted_strict.
      - apply StronglySorted_merge_sort.
        + intros a b c. unfold by_key. lia.
        + intros a b. unfold by_key. lia.
      - rewrite Hperm. apply NoDup_fst_map_to_list. }
    assert (Hall : Forall (fun a => pollId a.2 = Num a.1) l).
    { apply Forall_forall. intros [k row] H. apply Hin in H.
      by destruct (Hk k row H). }
    clear Hperm Hin. induction Hs as [|a l Hs IH Ha]; [constructor|].
    apply Forall_cons in Hall as [Ha1 Hall]. rewrite fmap_cons.
    constructor; [by apply IH|].
    apply Forall_fmap, Forall_forall. intros b Hb. simpl.
    rewrite Forall_forall in Ha, Hall. exists a.1, b.1.
    split; [done|]. split; [by apply Hall|by apply Ha].
Qed.

Lemma getAllPollMetadata_lists_witness :
  exists rows,
    getAllPollMetadata db1 = Val rows
    /\ length rows = size (polls db1)
    /\ (forall row, row ∈ rows <-> exists k, polls db1 !! k = Some row)
    /\ StronglySorted
         (fun a b => exists x y, pollId a = Num x /\ pollId b = Num y /\ x < y)
         rows.
Proof.
  apply (getAllPollMetadata_lists db1); [reflexivity..|exact keyed_db1].
Defined.

End ListingProofs.

(** * The votes store *)

Section VotesProofs.
Import Ballots.
Import Votes.

Lemma key_ltb_lt a b : key_ltb a b = true <-> key_lt a b.
Proof. unfold key_ltb, key_lt. destruct a, b; simpl. lia. Qed.

Lemma key_eqb_eq a b : key_eqb a b = true <-> a = b.
Proof.
  unfold key_eqb. destruct a as [a1 a2], b as [b1 b2]; simpl.
  rewrite andb_true_iff, !Z.eqb_eq. split; [by intros [-> ->]|by intros [= -> ->]].
Qed.

Lemma key_lt_trans a b c : key_lt a b -> key_lt b c -> key_lt a c.
Proof. unfold key_lt. lia. Qed.

Lemma put_keys k v rows x :
  x ∈ (put k v rows).*1 -> x = k \/ x ∈ rows.*1.
Proof.
  induction rows as [|[k' v'] rest IH]; simpl.
  - intros ?%list_elem_of_singleton. by left.
  - destruct (key_ltb k k'); [|destruct (key_eqb k k') eqn:E].
    + rewrite fmap_cons. simpl. intros [->|H]%elem_of_cons; [by left|by right].
    + apply key_eqb_eq in E as <-. rewrite !fmap_cons. simpl. by right.
    + rewrite !fmap_cons. simpl. intros [->|H]%elem_of_cons.
      * right. apply elem_of_cons. by left.
      * destruct (IH H) as [->|H']; [by left|].
        right. apply elem_of_cons. by right.
Qed.

Lemma put_well_keyed k v rows :
  pollId v = Num k.1 -> timestamp v = Num k.2 ->
  well_keyed rows -> well_keyed (put k v rows).
Proof.
  intros Hp Ht [Hs Hk]. induction rows as [|[k' v'] rest IH]; simpl.
  - split; [repeat constructor|]. by repeat constructor.
  - rewrite fmap_cons in Hs. apply StronglySorted_cons in Hs as [Hall Hs].
    apply Forall_cons in Hk as [[Hk1 Hk2] Hk]. simpl in *.
    destruct (key_ltb k k') eqn:Elt; [|destruct (key_eqb k k') eqn:Eeq].
    + apply key_ltb_lt in Elt. split.
      * rewrite !fmap_cons. simpl. apply StronglySorted_cons. split.
        -- constructor; [done|]. eapply Forall_impl; [exact Hall|].
           intros y Hy. by eapply key_lt_trans.
        -- by apply StronglySorted_cons.
      * by repeat constructor.
    + apply key_eqb_eq in Eeq as <-. split.
      * rewrite fmap_cons. simpl. by apply StronglySorted_cons.
      * by constructor.
    + destruct (IH Hs Hk) as [Hs' Hk']. split; [|by constructor].
      rewrite fmap_cons. simpl. apply StronglySorted_cons. split; [|done].
      apply Forall_forall. intros y Hy.
      destruct (put_keys _ _ _ _ Hy) as [->|Hy'].
      * assert (key_ltb k k' = false) by done.
        assert (k <> k') by (intros E%key_eqb_eq; congruence).
        destruct (decide (key_lt k k')) as [H1|H1];
          [apply key_ltb_lt in H1; congruence|].
        unfold key_lt in *. destruct k, k'; simpl in *.
        destruct (decide (z = z1)); [|lia].
        destruct (decide (z0 = z2)); [congruence|lia].
      * rewrite Forall_forall in Hall. by apply Hall.
Qed.

Lemma put_put k v1 v2 rows : put k v2 (put k v1 rows) = put k v2 rows.
Proof.
  assert (Hir : key_ltb k k = false).
  { unfold key_ltb. destruct k; simpl. by rewrite !Z.ltb_irrefl, andb_false_r. }
  assert (Hrf : key_eqb k k = true) by by apply key_eqb_eq.
  induction rows as [|[k' v'] rest IH]; simpl.
  - by rewrite Hir, Hrf.
  - destruct (key_ltb k k') eqn:Elt; [|destruct (key_eqb k k') eqn:Eeq]; simpl.
    + by rewrite Hir, Hrf.
    + by rewrite Hir, Hrf.
    + by rewrite Elt, Eeq, IH.
Qed.

Lemma put_elem k v rows : (k, v) ∈ put k v rows.
Proof.
  induction rows as [|[k' v'] rest IH]; simpl; [apply elem_of_cons; by left|].
  destruct (key_ltb k k'); [apply elem_of_cons; by left|].
  destruct (key_eqb k k'); [apply elem_of_cons; by left|].
  apply elem_of_cons. by right.
Qed.

Lemma put_other q k v rows :
  pollId v = Num k.1 -> k.1 <> q ->
  Forall (fun row => pollId row.2 = Num row.1.1) rows ->
  filter (fun row => indexed q row = true) (put k v rows)
  = filter (fun row => indexed q row = true) rows.
Proof.
  intros Hv Hq Hk.
  assert (Hno : forall w, pollId w = Num k.1 -> indexed q (k, w) <> true).
  { intros w Hw. unfold indexed. simpl. rewrite Hw.
    intros ?%Z.eqb_eq. done. }
  induction Hk as [|[k' v'] rest Hk' Hk IH]; simpl.
  - rewrite filter_cons. case_decide; [by destruct (Hno v)|done].
  - destruct (key_ltb k k'); [|destruct (key_eqb k k') eqn:E].
    + rewrite (filter_cons _ (k, v)). case_decide; [by destruct (Hno v)|done].
    + apply key_eqb_eq in E as <-. rewrite !filter_cons. simpl in Hk'.
      pose proof (Hno v Hv). pose proof (Hno v' Hk').
      repeat case_decide; done.
    + rewrite !filter_cons, IH. done.
Qed.

(** X15, [saveVoteRecord] and [getVotesForPoll]: after a vote is saved,
    the votes of its poll contain it, all carry the identifier of that
    poll, and come in strictly ascending order of timestamp; the votes of
    every other poll are as before, and the rows of the store still sit
    under the key read from them. *)
Theorem vote_round_trip vote s s' p :
  well_keyed (votes s) -> votes_read s = true ->
  saveVoteRecord vote s = Val s' -> pollId vote = Num p ->
  well_keyed (votes s')
  /\ exists l,
      getVotesForPoll (Num p) s' = Val l
      /\ vote ∈ l
      /\ Forall (fun x => pollId x = Num p) l
      /\ StronglySorted
           (fun a b => exists x y,
              timestamp a = Num x /\ timestamp b = Num y /\ x < y) l
      /\ forall q, q <> p ->
           getVotesForPoll (Num q) s' = getVotesForPoll (Num q) s.
Proof.
  intros Hwk Hrd Hsave Hp. unfold saveVoteRecord in Hsave.
  destruct (Database.opens (base s)) eqn:Ho; simpl in Hsave; [|discriminate].
  destruct (has_votes s) eqn:Hv; simpl in Hsave; [|discriminate].
  rewrite Hp in Hsave.
  destruct (timestamp vote) as [|t] eqn:Ht; [discriminate|].
  destruct (votes_write s); simpl in Hsave; [|discriminate].
  injection Hsave as <-.
  assert (Hwk' : well_keyed (put (p, t) vote (votes s))) by by apply put_well_keyed.
  split; [exact Hwk'|].
  unfold getVotesForPoll. cbn [with_votes base has_votes votes_read votes].
  rewrite Ho, Hv, Hrd. simpl. eexists. split; [reflexivity|].
  destruct Hwk' as [Hs' Hk']. split; [|split; [|split]].
  - apply list_elem_of_fmap. exists ((p, t), vote). split; [done|].
    apply list_elem_of_filter. split; [|apply put_elem].
    unfold indexed. simpl. rewrite Hp. apply Z.eqb_refl.
  - apply Forall_fmap, Forall_forall. intros [k x] [Hi _]%list_elem_of_filter.
    unfold indexed in Hi. simpl in *. destruct (pollId x) as [|y]; [done|].
    apply Z.eqb_eq in Hi. by subst.
  - revert Hs' Hk'. generalize (put (p, t) vote (votes s)). intros rows.
    induction rows as [|[k x] rest IH]; intros Hs' Hk'; [constructor|].
    rewrite fmap_cons in Hs'. apply StronglySorted_cons in Hs' as [Hall Hs'].
    apply Forall_cons in Hk' as [[Hkp Hkt] Hk']. simpl in *.
    rewrite filter_cons. case_decide as Hi; [|by apply IH].
    rewrite fmap_cons. constructor; [by apply IH|].
    apply Forall_fmap, Forall_forall.
    intros [k2 x2] [Hi2 Hin]%list_elem_of_filter. simpl.
    rewrite Forall_forall in Hall. rewrite Forall_forall in Hk'.
    destruct (Hk' _ Hin) as [Hkp2 Hkt2]. simpl in *.
    exists k.2, k2.2. split; [done|]. split; [done|].
    assert (Hlt : key_lt k k2) by (apply Hall; by apply (list_elem_of_fmap_2 fst _ (k2, x2))).
    unfold indexed in Hi, Hi2. simpl in *. rewrite Hkp in Hi. rewrite Hkp2 in Hi2.
    apply Z.eqb_eq in Hi, Hi2. unfold key_lt in Hlt. lia.
  - intros q Hq. f_equal. f_equal.
    apply put_other; [done|simpl; congruence|].
    destruct Hwk as [_ Hk]. eapply Forall_impl; [exact Hk|]. by intros ? [? _].
Qed.

Lemma vote_round_trip_witness :
  well_keyed (votes (with_votes no_votes (put (1, 20) ballot_b (votes no_votes))))
  /\ exists l,
      getVotesForPoll (Num 1)
        (with_votes no_votes (put (1, 20) ballot_b (votes no_votes))) = Val l
      /\ ballot_b ∈ l
      /\ Forall (fun x => pollId x = Num 1) l
      /\ StronglySorted
           (fun a b => exists x y,
              timestamp a = Num x /\ timestamp b = Num y /\ x < y) l
      /\ forall q, q <> 1 ->
           getVotesForPoll (Num q)
             (with_votes no_votes (put (1, 20) ballot_b (votes no_votes)))
           = getVotesForPoll (Num q) no_votes.
Proof.
  apply (vote_round_trip ballot_b no_votes _ 1); try reflexivity.
  split; constructor.
Defined.

(** X16, [saveVoteRecord]: the store keeps one vote per poll and
    timestamp. Saving a second vote with the poll and the timestamp of a
    vote just saved leaves the store exactly as if the first had never
    been saved. *)
Theorem vote_same_instant v1 v2 s s1 s2 :
  saveVoteRecord v1 s = Val s1 -> saveVoteRecord v2 s1 = Val s2 ->
  pollId v1 = pollId v2 -> timestamp v1 = timestamp v2 ->
  saveVoteRecord v2 s = Val s2.
Proof.
  unfold saveVoteRecord. intros H1 H2 Hp Ht. rewrite Hp, Ht in H1.
  destruct (Database.opens (base s)) eqn:Ho; simpl in *; [|discriminate].
  destruct (has_votes s) eqn:Hv; simpl in *; [|discriminate].
  destruct (pollId v2) as [|p]; [discriminate|].
  destruct (timestamp v2) as [|t]; [discriminate|].
  destruct (votes_write s) eqn:Hw; simpl in *; [|discriminate].
  injection H1 as <-. cbn [with_votes base has_votes votes_write votes] in H2.
  rewrite Ho, Hv, Hw in H2. simpl in H2. injection H2 as <-.
  unfold with_votes. simpl. by rewrite put_put.
Qed.

Lemma vote_same_instant_witness :
  saveVoteRecord ballot_b no_votes
  = Val (with_votes no_votes [((1, 20), ballot_b)]).
Proof.
  apply (vote_same_instant ballot_a ballot_b no_votes
           (with_votes no_votes [((1, 20), ballot_a)])); reflexivity.
Defined.

Lemma record_all_well_keyed vs : forall s,
  well_keyed (votes s) -> well_keyed (votes (record_all vs s)).
Proof.
  induction vs as [|v rest IH]; intros s H; [done|]. simpl.
  destruct (saveVoteRecord v s) as [s'|] eqn:E; [|by apply IH].
  apply IH. unfold saveVoteRecord in E.
  destruct (negb _); [discriminate|]. destruct (negb _); [discriminate|].
  destruct (pollId v) as [|p] eqn:Hp; [discriminate|].
  destruct (timestamp v) as [|t] eqn:Ht; [discriminate|].
  destruct (negb _); [discriminate|]. injection E as <-.
  by apply put_well_keyed.
Qed.

End VotesProofs.

(** * The batch merge *)

Section BatchProofs.
Import Database Invariant ContractMetadata Batch Fixtures Ledgers.

Lemma syncPollMetadata_inv now later c syncId queryAddress db m db' :
  syncPollMetadata now later c syncId queryAddress db = (Some m, db') ->
  exists k, pollId m = Num k /\ k <> 0
            /\ db' = with_polls db (<[k := dataToSave later m]> (polls db)).
Proof.
  unfold syncPollMetadata.
  destruct (getPollMetadataFromContract _ _ _); [|discriminate].
  destruct (getPollMetadata _ _); [|discriminate].
  destruct (savePollMetadata _ _ _) eqn:Hs; [|discriminate].
  intros [= <- <-]. by apply savePollMetadata_inv in Hs.
Qed.

Lemma syncPollMetadata_none now later c syncId queryAddress db db' :
  syncPollMetadata now later c syncId queryAddress db = (None, db') -> db' = db.
Proof.
  unfold syncPollMetadata.
  destruct (getPollMetadataFromContract _ _ _); [|by intros [= <-]].
  destruct (getPollMetadata _ _); [|by intros [= <-]].
  destruct (savePollMetadata _ _ _) eqn:Hs; [discriminate|by intros [= <-]].
Qed.

Lemma sync_each_sound clock c address ids : forall db,
  keyed db ->
  let out := sync_each clock c address ids db in
  keyed out.2
  /\ (length out.1 <= length ids)%nat
  /\ (forall k, is_Some (polls db !! k) -> is_Some (polls out.2 !! k))
  /\ Forall (fun m => exists k, pollId m = Num k /\ k <> 0
                                /\ is_Some (polls out.2 !! k)) out.1.
Proof.
  induction ids as [|i rest IH]; intros db Hk; cbn zeta.
  - simpl. split; [done|]. split; [lia|]. split; [done|constructor].
  - cbn [sync_each].
    destruct (syncPollMetadata _ _ c (Num i) (Some address) db) as [metadata db1] eqn:Hs.
    assert (Hk1 : keyed db1).
    { pose proof (syncPollMetadata_keyed (clock i).1 (clock i).2 c (Num i)
                    (Some address) db Hk) as H. by rewrite Hs in H. }
    specialize (IH db1 Hk1). cbn zeta in IH.
    destruct (sync_each clock c address rest db1) as [more db2].
    destruct IH as (Hk2 & Hlen & Hmono & Hall). cbn [fst snd] in *.
    destruct metadata as [m|].
    + apply syncPollMetadata_inv in Hs as (k & Hid & Hk0 & ->).
      split; [done|]. split; [simpl; lia|]. split.
      * intros j Hj. apply Hmono. simpl.
        destruct (decide (k = j)) as [<-|Hne];
          [rewrite lookup_insert_eq; eauto|by rewrite lookup_insert_ne].
      * constructor; [|done]. exists k. split; [done|]. split; [done|].
        apply Hmono. simpl. rewrite lookup_insert_eq. eauto.
    + apply syncPollMetadata_none in Hs as ->.
      split; [done|]. split; [simpl; lia|]. done.
Qed.

(** X17, [syncAllPollsMetadata]: whatever the contract and the total
    query answer, a batch run on a database whose rows sit under their own
    identifier leaves it so, removes no row, and returns only records
    that carry a non-zero identifier under which the database now holds a
    row. *)
Theorem syncAllPollsMetadata_sound clock c getTotalPolls queryAddress db :
  keyed db ->
  let out := syncAllPollsMetadata clock c getTotalPolls queryAddress db in
  keyed out.2
  /\ (forall k, is_Some (polls db !! k) -> is_Some (polls out.2 !! k))
  /\ Forall (fun m => exists k, pollId m = Num k /\ k <> 0
                                /\ is_Some (polls out.2 !! k)) out.1.
Proof.
  intros Hk. cbn zeta. unfold syncAllPollsMetadata.
  destruct (let* address := batch_address c queryAddress in _) as [[address totalPolls]|].
  - destruct (sync_each_sound clock c address (indices totalPolls) db Hk)
      as (H1 & _ & H2 & H3). done.
  - simpl. split; [done|]. split; [done|constructor].
Qed.

Lemma syncAllPollsMetadata_sound_witness :
  let out := syncAllPollsMetadata clock_5_6 contract_gap total_3 (Some alice) db1 in
  keyed out.2
  /\ (forall k, is_Some (polls db1 !! k) -> is_Some (polls out.2 !! k))
  /\ Forall (fun m => exists k, pollId m = Num k /\ k <> 0
                                /\ is_Some (polls out.2 !! k)) out.1.
Proof.
  apply (syncAllPollsMetadata_sound clock_5_6 contract_gap total_3 (Some alice) db1).
  exact keyed_db1.
Defined.

Lemma healthy_with_polls db rows : healthy db -> healthy (with_polls db rows).
Proof. by intros (? & ? & ? & ?). Qed.

Lemma sync_each_ids clock c address ids : forall db,
  healthy db ->
  (forall i r, i ∈ ids ->
     getPollMetadataFromContract c (Num i) (Some address) = Some r ->
     id r = Num i /\ i <> 0) ->
  pollId <$> (sync_each clock c address ids db).1
  = Num <$> filter (fun i => is_Some (getPollMetadataFromContract c (Num i)
                                        (Some address))) ids.
Proof.
  induction ids as [|i rest IH]; intros db Hh Hid; [done|].
  cbn [sync_each]. rewrite filter_cons.
  destruct (syncPollMetadata _ _ c (Num i) (Some address) db) as [metadata db1] eqn:Hs.
  assert (Hh1 : healthy db1).
  { destruct metadata as [m|].
    - apply syncPollMetadata_inv in Hs as (k & _ & _ & ->).
      by apply healthy_with_polls.
    - by apply syncPollMetadata_none in Hs as ->. }
  specialize (IH db1 Hh1).
  destruct (sync_each clock c address rest db1) as [more db2]. cbn [fst] in *.
  assert (IH' := IH (fun j r Hj => Hid j r (proj2 (elem_of_cons _ _ _) (or_intror Hj)))).
  clear IH. unfold syncPollMetadata in Hs.
  destruct (getPollMetadataFromContract c (Num i) (Some address)) as [r|] eqn:Hr.
  - destruct (Hid i r) as [Hi Hi0]; [apply elem_of_cons; by left|done|].
    assert (Hg : getPollMetadata (Num i) db = Val (polls db !! i)).
    { destruct Hh as (Ho & Hp & Hrd & Hw). unfold getPollMetadata.
      rewrite Ho, Hp, Hrd. reflexivity. }
    rewrite Hg in Hs.
    destruct (savePollMetadata_healthy (clock i).2
                (syncedMetadata (clock i).1 r (polls db !! i)) db Hh)
      as (k & Hk & Hsave).
    { simpl. rewrite Hi. simpl. apply negb_true_iff, Z.eqb_neq. done. }
    rewrite Hsave in Hs. injection Hs as <- <-.
    case_decide as Hsome; [|destruct Hsome; eauto].
    rewrite !fmap_cons, <- IH'. simpl. by rewrite Hi.
  - injection Hs as <- <-. case_decide as Hsome; [by destruct Hsome|done].
Qed.

(** X18, [syncAllPollsMetadata]: the polls are merged independently. On
    a healthy database, when the total reads [n] and the contract returns
    each poll under the identifier it was asked for, the batch returns,
    in ascending order, exactly the polls of [1..n] that the contract
    returns: a poll that cannot be read is left out and the polls after
    it are still merged. *)
Theorem syncAllPollsMetadata_isolated clock c getTotalPolls queryAddress db
        address n :
  healthy db ->
  batch_address c queryAddress = Val address ->
  (let* totalResult := getTotalPolls address in totalPolls_of totalResult)
  = Val (Num n) ->
  (forall i r, 1 <= i <= n ->
     getPollMetadataFromContract c (Num i) (Some address) = Some r ->
     id r = Num i) ->
  pollId <$> (syncAllPollsMetadata clock c getTotalPolls queryAddress db).1
  = Num <$> readable c address n.
Proof.
  intros Hh Ha Ht Hid. unfold syncAllPollsMetadata. rewrite Ha. simpl.
  destruct (getTotalPolls address) as [totalResult|]; [|discriminate].
  simpl in Ht |- *. rewrite Ht. simpl.
  apply sync_each_ids; [done|].
  intros i r Hi Hr. apply elem_of_seqZ in Hi.
  split; [apply Hid; [lia|done]|lia].
Qed.

Lemma syncAllPollsMetadata_isolated_witness :
  pollId <$> (syncAllPollsMetadata clock_5_6 contract_gap total_3 (Some alice) db1).1
  = Num <$> readable contract_gap alice 3.
Proof.
  apply (syncAllPollsMetadata_isolated clock_5_6 contract_gap total_3
           (Some alice) db1 alice 3).
  - exact healthy_db1.
  - reflexivity.
  - reflexivity.
  - intros i r Hi Hr.
    assert (Hcases : i = 1 \/ i = 2 \/ i = 3) by lia.
    destruct Hcases as [ -> | [ -> | -> ] ]; vm_compute in Hr;
      try discriminate; injection Hr as <-; reflexivity.
Defined.

End BatchProofs.

(** * The list of polls *)

Section PollsProofs.
Import Database Invariant ContractMetadata Polls Fixtures Ledgers Remotes.

(** X19, [getVoteTallies] of [PollList]: with an address it reads the
    tallies exactly as the tallies block of
    [getPollMetadataFromContract] does, and where that block fails it
    returns the empty list. *)
Theorem getVoteTallies_reads r address n :
  String.eqb address EmptyString = false ->
  getVoteTallies r (Some address) n
  = catch (read_tallies (contract_of r) address n) [].
Proof.
  intros Ha. unfold getVoteTallies, read_tallies, given. rewrite Ha. simpl.
  destruct (r_getAllTallies r address n) as [result|]; [|reflexivity]. simpl.
  destruct (human_output result) as [output|]; [|reflexivity]. simpl.
  destruct (truthy output) eqn:Ht; [|reflexivity]. simpl.
  destruct (get "Ok" output) as [tallies|]; [|reflexivity]. simpl.
  destruct tallies as [| |[]|n0|s|l|ps hh hn hs]; simpl; try reflexivity.
  - by destruct (num_truthy n0).
  - by destruct (negb _).
Qed.

Lemma getVoteTallies_reads_witness :
  getVoteTallies remote_gap (Some alice) (Num 1)
  = catch (read_tallies (contract_of remote_gap) alice (Num 1)) [].
Proof. apply (getVoteTallies_reads remote_gap alice (Num 1)). reflexivity. Defined.

(** X20, [getPoll] of [PollList]: an error it throws never names
    [AccountId] or [32 bytes] (those are answered with
    [{ exists: false }]); it is the error of the query, or the error
    thrown while the result is read, passed on unchanged. *)
Theorem getPoll_raises_only_foreign r queryAddress n m :
  getPoll r queryAddress n = Raises m ->
  message_includes "AccountId" m = false
  /\ message_includes "32 bytes" m = false
  /\ exists address,
      given queryAddress = Some address
      /\ (r_getPoll r address n = Raises m
          \/ exists result, r_getPoll r address n = Returns result
                            /\ m = read_error r result).
Proof.
  unfold getPoll. destruct (given queryAddress) as [address|]; [|discriminate].
  destruct (r_getPoll r address n) as [result|m0] eqn:Hq.
  - match goal with |- context [match ?e with Val _ => _ | Throw => _ end] =>
      destruct e end; [discriminate|].
    destruct (_ || _) eqn:E; [discriminate|]. intros [= <-].
    apply orb_false_iff in E as [E1 E2]. eauto 10.
  - destruct (_ || _) eqn:E; [discriminate|]. intros [= <-].
    apply orb_false_iff in E as [E1 E2]. eauto 10.
Qed.

Lemma getPoll_raises_only_foreign_witness :
  message_includes "AccountId" (Some "disconnected") = false
  /\ message_includes "32 bytes" (Some "disconnected") = false
  /\ exists address,
      given (Some alice) = Some address
      /\ (r_getPoll remote_down address (Num 1) = Raises (Some "disconnected")
          \/ exists result, r_getPoll remote_down address (Num 1) = Returns result
                            /\ Some "disconnected" = read_error remote_down result).
Proof.
  apply (getPoll_raises_only_foreign remote_down (Some alice) (Num 1)
           (Some "disconnected")).
  reflexivity.
Defined.

Lemma entry_keyed now later c address poll db :
  keyed db -> keyed (entry now later c address poll db).2.
Proof.
  intros Hk. unfold entry. cbn [snd].
  destruct (getPollMetadataFromContract _ _ _); [|done].
  by apply syncPollMetadata_keyed.
Qed.

Lemma or_str_nonempty a b :
  String.eqb b EmptyString = false -> String.eqb (or_str a b) EmptyString = false.
Proof.
  intros Hb. unfold or_str. destruct (String.eqb a EmptyString) eqn:E; simpl; done.
Qed.

Lemma or_str_nonempty_l a b :
  String.eqb a EmptyString = false -> or_str a b = a.
Proof. intros Ha. unfold or_str. by rewrite Ha. Qed.

Lemma entry_listed now later c address poll db :
  listed (Some poll) = true ->
  let e := (entry now later c address poll db).1 in
  (exists k, p_id e = Num k /\ k <> 0)
  /\ String.eqb (p_title e) EmptyString = false.
Proof.
  unfold listed. intros [[He Hi]%andb_true_iff Ht%negb_true_iff]%andb_true_iff.
  cbn zeta. unfold entry. cbn [fst p_id p_title]. split.
  - apply num_truthy_nonzero in Hi as (k & Hk & Hk0). eauto.
  - set (t := or_str _ (c_title poll)).
    assert (Hne : String.eqb t EmptyString = false) by by apply or_str_nonempty.
    destruct (catch _ None); [|done]. by rewrite or_str_nonempty_l.
Qed.

Lemma load_each_sound clock r address ids : forall db,
  keyed db ->
  keyed (load_each clock r address ids db).2
  /\ forall l, (load_each clock r address ids db).1 = Returns l ->
       (length l <= length ids)%nat /\ Forall sane l.
Proof.
  induction ids as [|i rest IH]; intros db Hk.
  - simpl. split; [done|]. intros l [= <-]. split; [done|constructor].
  - cbn [load_each].
    destruct (getPoll r (Some address) (Num i)) as [poll|m]; [|by split].
    destruct (listed poll) eqn:Hl.
    + destruct poll as [p|]; [|discriminate].
      destruct (entry _ _ _ _ p db) as [e db1] eqn:He.
      assert (Hk1 : keyed db1).
      { pose proof (entry_keyed (clock i).1 (clock i).2 (contract_of r)
                      address p db Hk) as H. by rewrite He in H. }
      pose proof (entry_listed (clock i).1 (clock i).2 (contract_of r)
                    address p db Hl) as Hs. rewrite He in Hs. cbn in Hs.
      destruct (IH db1 Hk1) as [Hk2 Hall].
      destruct (load_each clock r address rest db1) as [[l|m] db2].
      * split; [done|]. intros l' [= <-].
        destruct (Hall l eq_refl) as [Hlen Hf]. split; [simpl; lia|].
        by constructor.
      * by split.
    + destruct (IH db Hk) as [Hk2 Hall]. split; [done|].
      intros l Hl'. destruct (Hall l Hl') as [Hlen Hf]. split; [simpl; lia|done].
Qed.

(** X21, [loadPolls]: every poll it hands to [setPolls] has a non-zero
    numeric identifier and a non-empty title, there are at most as many
    as the total read from the contract, and whatever the outcome the
    rows of the cache still sit under their own identifier. *)
Theorem loadPolls_shows_sane_polls clock r getTotalPolls queryAddress db :
  keyed db ->
  let out := loadPolls clock r getTotalPolls queryAddress db in
  keyed out.2
  /\ forall l, out.1 = Shown l ->
       Forall (fun e => (exists k, p_id e = Num k /\ k <> 0)
                        /\ String.eqb (p_title e) EmptyString = false) l
       /\ exists n, PollList.getTotalPolls queryAddress getTotalPolls = Num n
                    /\ Z.of_nat (length l) <= n.
Proof.
  intros Hk. cbn zeta. unfold loadPolls.
  destruct (given queryAddress) as [address|]; [|by split].
  destruct (getTotalPolls_count queryAddress getTotalPolls) as (n & Hn & ->).
  destruct (load_each_sound clock r address (Batch.indices (Num n)) db Hk)
    as [Hk' Hall].
  destruct (load_each _ _ _ _ _) as [[l|m] db']; [|by split].
  split; [done|]. intros l' [= <-]. destruct (Hall l eq_refl) as [Hlen Hf].
  split; [exact Hf|]. exists n. split; [done|].
  simpl in Hlen. rewrite length_seqZ in Hlen. lia.
Qed.

Lemma loadPolls_shows_sane_polls_witness :
  let out := loadPolls clock_5_6 remote_gap total_3 (Some alice) db1 in
  keyed out.2
  /\ forall l, out.1 = Shown l ->
       Forall (fun e => (exists k, p_id e = Num k /\ k <> 0)
                        /\ String.eqb (p_title e) EmptyString = false) l
       /\ exists n, PollList.getTotalPolls (Some alice) total_3 = Num n
                    /\ Z.of_nat (length l) <= n.
Proof.
  apply (loadPolls_shows_sane_polls clock_5_6 remote_gap total_3 (Some alice) db1).
  exact keyed_db1.
Defined.

Lemma load_each_returns clock r address ids : forall db,
  (forall i, i ∈ ids -> exists v, getPoll r (Some address) (Num i) = Returns v) ->
  exists l, (load_each clock r address ids db).1 = Returns l.
Proof.
  induction ids as [|i rest IH]; intros db Hall; [by exists []|].
  cbn [load_each].
  destruct (Hall i) as [v ->]; [apply elem_of_cons; by left|].
  assert (Hrest : forall i, i ∈ rest ->
            exists v, getPoll r (Some address) (Num i) = Returns v).
  { intros j Hj. apply Hall. apply elem_of_cons. by right. }
  destruct (listed v); [destruct v as [p|]|]; try by apply IH.
  destruct (entry _ _ _ _ p db) as [e db1].
  destruct (IH db1 Hrest) as [l Hl].
  destruct (load_each clock r address rest db1) as [[l'|m] db2];
    [by eexists|discriminate].
Qed.

Lemma load_each_raises clock r address pre j post m : forall db,
  (forall i, i ∈ pre -> exists v, getPoll r (Some address) (Num i) = Returns v) ->
  getPoll r (Some address) (Num j) = Raises m ->
  (load_each clock r address (pre ++ j :: post) db).1 = Raises m.
Proof.
  induction pre as [|i rest IH]; intros db Hall Hj.
  - simpl. by rewrite Hj.
  - rewrite <- app_comm_cons. cbn [load_each].
    destruct (Hall i) as [v ->]; [apply elem_of_cons; by left|].
    assert (Hrest : forall i, i ∈ rest ->
              exists v, getPoll r (Some address) (Num i) = Returns v).
    { intros k Hk. apply Hall. apply elem_of_cons. by right. }
    destruct (listed v); [destruct v as [p|]|]; try by apply IH.
    destruct (entry _ _ _ _ p db) as [e db1].
    pose proof (IH db1 Hrest Hj) as H.
    destruct (load_each clock r address (rest ++ j :: post) db1) as [[l'|m'] db2];
      [discriminate|]. simpl in H. injection H as ->. reflexivity.
Qed.

(** X22, [loadPolls]: the list is all or nothing. When [getPoll] returns
    for every poll up to the total, a list is shown; when it throws for
    some poll, every poll before it having returned, no list is shown
    and the error displayed carries the message of that exception. *)
Theorem loadPolls_all_or_nothing clock r getTotalPolls address db n :
  String.eqb address EmptyString = false ->
  PollList.getTotalPolls (Some address) getTotalPolls = Num n ->
  ((forall i, 1 <= i <= n ->
      exists v, getPoll r (Some address) (Num i) = Returns v) ->
   exists l, (loadPolls clock r getTotalPolls (Some address) db).1 = Shown l)
  /\ (forall j m,
        1 <= j <= n ->
        (forall i, 1 <= i < j ->
           exists v, getPoll r (Some address) (Num i) = Returns v) ->
        getPoll r (Some address) (Num j) = Raises m ->
        (loadPolls clock r getTotalPolls (Some address) db).1
        = Failed ("Error al cargar las encuestas: " +:+ message_text m)).
Proof.
  intros Ha Hn. unfold loadPolls, given. rewrite Ha, Hn. simpl. split.
  - intros Hall.
    destruct (load_each_returns clock r address (seqZ 1 n) db) as [l Hl].
    { intros i Hi%elem_of_seqZ. apply Hall. lia. }
    destruct (load_each _ _ _ _ _) as [[l'|m] db']; [by eexists|discriminate].
  - intros j m Hj Hpre Hraise.
    assert (Hsplit : seqZ 1 n = (seqZ 1 (j - 1) ++ j :: seqZ (j + 1) (n - j))%list).
    { replace n with ((j - 1) + (1 + (n - j))) at 1 by lia.
      rewrite seqZ_app by lia. f_equal.
      replace (1 + (j - 1)) with j by lia.
      rewrite seqZ_cons by lia. f_equal. f_equal; lia. }
    rewrite Hsplit.
    assert (H : (load_each clock r address
                   (seqZ 1 (j - 1) ++ j :: seqZ (j + 1) (n - j)) db).1
                = Raises m).
    { apply load_each_raises; [|done].
      intros i Hi%elem_of_seqZ. apply Hpre. lia. }
    destruct (load_each _ _ _ _ _) as [[l'|m'] db']; [discriminate|].
    simpl in H. by injection H as ->.
Qed.

Lemma loadPolls_all_or_nothing_witness :
  ((forall i, 1 <= i <= 3 ->
      exists v, getPoll remote_down (Some alice) (Num i) = Returns v) ->
   exists l, (loadPolls clock_5_6 remote_down total_3 (Some alice) db1).1 = Shown l)
  /\ (forall j m,
        1 <= j <= 3 ->
        (forall i, 1 <= i < j ->
           exists v, getPoll remote_down (Some alice) (Num i) = Returns v) ->
        getPoll remote_down (Some alice) (Num j) = Raises m ->
        (loadPolls clock_5_6 remote_down total_3 (Some alice) db1).1
        = Failed ("Error al cargar las encuestas: " +:+ message_text m)).
Proof.
  apply (loadPolls_all_or_nothing clock_5_6 remote_down total_3 alice db1 3);
    reflexivity.
Defined.



End PollsProofs.

(** * The fields of the creation form *)

Section FormFieldsProofs.
Import Database CreatePoll FormFields.



Lemma option_name_nonempty names i :
  String.eqb (option_name names i) EmptyString = false.
Proof.
  unfold option_name. destruct (names !! i) as [name|]; [|reflexivity].
  destruct (String.eqb name EmptyString) eqn:E; simpl; [reflexivity|done].
Qed.

Lemma option_name_kept names i name :
  names !! i = Some name -> String.eqb name EmptyString = false ->
  option_name names i = name.
Proof. intros H E. unfold option_name. by rewrite H, E. Qed.

(** X25, the effect on [maxOptions] of [CreatePollForm]: below 2^32 the
    effect returns exactly [maxOptions] names (none for a negative
    number), none of them empty; a name already entered at a position is
    kept, running the effect again changes nothing, and the slice cached
    at submit is the whole list. *)
Theorem resize_fills_the_names maxOptions optionNames :
  maxOptions < 2 ^ 32 ->
  exists names,
    resize maxOptions optionNames = Val names
    /\ length names = Z.to_nat maxOptions
    /\ Forall (fun name => String.eqb name EmptyString = false) names
    /\ (forall i name, (i < Z.to_nat maxOptions)%nat ->
          optionNames !! i = Some name ->
          String.eqb name EmptyString = false -> names !! i = Some name)
    /\ resize maxOptions names = Val names
    /\ slice0 maxOptions names = names.
Proof.
  intros Hlt. unfold resize.
  replace (2 ^ 32 <=? maxOptions) with false by (symmetry; apply Z.leb_gt; lia).
  eexists. split; [reflexivity|].
  set (names := option_name optionNames <$> seq 0 (Z.to_nat maxOptions)).
  assert (Hlen : length names = Z.to_nat maxOptions).
  { unfold names. by rewrite length_fmap, length_seq. }
  assert (Hne : Forall (fun name => String.eqb name EmptyString = false) names).
  { unfold names. apply Forall_fmap, Forall_forall. intros i _. simpl.
    apply option_name_nonempty. }
  assert (Hget : forall i, (i < Z.to_nat maxOptions)%nat ->
            names !! i = Some (option_name optionNames i)).
  { intros i Hi. unfold names. rewrite list_lookup_fmap.
    rewrite lookup_seq_lt by done. reflexivity. }
  split; [done|]. split; [done|]. split; [|split].
  - intros i name Hi Hn E. rewrite Hget by done. f_equal.
    by apply option_name_kept.
  - f_equal. apply list_eq. intros i.
    destruct (decide (i < Z.to_nat maxOptions)%nat) as [Hi|Hi].
    + rewrite list_lookup_fmap, lookup_seq_lt by done. simpl.
      rewrite (Hget i Hi). f_equal. apply option_name_kept; [by apply Hget|].
      apply option_name_nonempty.
    + rewrite list_lookup_fmap, lookup_seq_ge by lia. simpl.
      symmetry. apply lookup_ge_None. lia.
  - unfold slice0. destruct (0 <=? maxOptions) eqn:E.
    + apply take_ge. lia.
    + apply Z.leb_gt in E. rewrite take_ge; [done|].
      destruct names; [simpl; lia|]. simpl in Hlen. lia.
Qed.

Lemma resize_fills_the_names_witness :
  exists names,
    resize 3 ["A"; EmptyString] = Val names
    /\ length names = Z.to_nat 3
    /\ Forall (fun name => String.eqb name EmptyString = false) names
    /\ (forall i name, (i < Z.to_nat 3)%nat ->
          ["A"; EmptyString] !! i = Some name ->
          String.eqb name EmptyString = false -> names !! i = Some name)
    /\ resize 3 names = Val names
    /\ slice0 3 names = names.
Proof. apply (resize_fills_the_names 3 ["A"; EmptyString]). lia. Defined.

End FormFieldsProofs.

(** * The vote dialog *)

Section VoteModalProofs.
Import VoteModal Fixtures Dialogs.

Lemma tally_of_number tallyResult t : tally_of tallyResult = Val t -> t <> NaN.
Proof.
  unfold tally_of. destruct (get "output" tallyResult) as [output|]; [|discriminate].
  simpl. destruct (truthy output && is_object output); [|by intros [= <-]].
  destruct (has "toNumber" output) as [[]|]; simpl; try discriminate;
    [|by intros [= <-]].
  destruct (call_toNumber output) as [n|]; [|discriminate]. simpl.
  intros [= <-]. destruct (or0_number n) as [z ->]. done.
Qed.

Lemma load_tallies_returns q address pollId indices :
  (forall i, i ∈ indices ->
     exists tallyResult t, getVoteTally q address pollId i = Val tallyResult
                           /\ tally_of tallyResult = Val t) ->
  exists talliesData,
    load_tallies q address pollId indices = Val talliesData
    /\ length talliesData = length indices
    /\ Forall (fun t => t <> NaN) talliesData.
Proof.
  induction indices as [|i rest IH]; intros Hall.
  - exists []. by repeat split.
  - destruct (Hall i) as (tr & t & Hq & Ht); [apply elem_of_cons; by left|].
    destruct IH as (l & Hl & Hlen & Hf).
    { intros j Hj. apply Hall. apply elem_of_cons. by right. }
    exists (t :: l). cbn [load_tallies]. rewrite Hq. simpl. rewrite Ht. simpl.
    rewrite Hl. simpl. split; [done|]. split; [by rewrite Hlen|].
    constructor; [by eapply tally_of_number|done].
Qed.

Lemma load_tallies_throws q address pollId pre j post :
  getVoteTally q address pollId j = Throw ->
  load_tallies q address pollId (pre ++ j :: post) = Throw.
Proof.
  intros Hj. induction pre as [|i rest IH]; simpl.
  - by rewrite Hj.
  - destruct (getVoteTally q address pollId i); [|done]. simpl.
    destruct (tally_of a); [|done]. simpl. by rewrite IH.
Qed.

(** X26, [loadPollData] and [handleVote] of [VoteModal]: when the poll
    is read and every tally query returns, the poll is set, the error
    is untouched and no tally is [NaN]. When [maxOptions] converts to a
    number [m] there are [m] tallies and the guard lets through exactly
    the options from 0 to [m - 1]; when it does not convert (a count
    printed with a thousands separator) no tally is loaded and the guard
    lets every non-negative option through. *)
Theorem vote_guard_after_load q address pollId s result output fields :
  String.eqb address EmptyString = false ->
  getPoll q address pollId = Val result ->
  ContractMetadata.human_output result = Val output ->
  get_opt "Ok" output = Arr fields ->
  (forall i, exists tallyResult t,
      getVoteTally q address pollId i = Val tallyResult
      /\ tally_of tallyResult = Val t) ->
  let s' := loadPollData q (Some address) pollId s in
  exists view,
    poll s' = Some view
    /\ maxOptions view = ToNumber (ContractMetadata.at_ 5 fields)
    /\ error s' = error s
    /\ Forall (fun t => t <> NaN) (tallies s')
    /\ match maxOptions view with
       | Num m =>
           length (tallies s') = Z.to_nat m
           /\ forall sel, vote_allowed (setSelectedOption sel s') = true
                          <-> 0 <= sel < m
       | NaN =>
           tallies s' = []
           /\ forall sel, vote_allowed (setSelectedOption sel s') = true
                          <-> 0 <= sel
       end.
Proof.
  intros Ha Hq Hh Hok Hall. cbn zeta. unfold loadPollData, Polls.given.
  rewrite Ha. simpl. rewrite Hq. simpl. rewrite Hh, Hok. simpl.
  set (n := ToNumber (ContractMetadata.at_ 5 fields)).
  destruct (load_tallies_returns q address pollId (options n))
    as (l & Hl & Hlen & Hf); [intros i _; apply Hall|].
  rewrite Hl. simpl. eexists. split; [reflexivity|]. simpl.
  split; [done|]. split; [done|]. split; [done|].
  unfold vote_allowed. simpl. fold n. destruct n as [|m]; simpl in *.
  - split; [by destruct l|]. intros sel. rewrite orb_false_r, negb_true_iff.
    rewrite Z.ltb_ge. done.
  - rewrite length_seqZ in Hlen. split; [done|]. intros sel.
    rewrite negb_true_iff, orb_false_iff, Z.ltb_ge, Z.leb_gt. done.
Qed.

Lemma vote_guard_after_load_witness :
  let s' := loadPollData dialog (Some alice) (Num 1) initial in
  exists view,
    poll s' = Some view
    /\ maxOptions view
       = ToNumber (ContractMetadata.at_ 5 (elements_of_tuple (poll_tuple "1" "2")))
    /\ error s' = error initial
    /\ Forall (fun t => t <> NaN) (tallies s')
    /\ match maxOptions view with
       | Num m =>
           length (tallies s') = Z.to_nat m
           /\ forall sel, vote_allowed (setSelectedOption sel s') = true
                          <-> 0 <= sel < m
       | NaN =>
           tallies s' = []
           /\ forall sel, vote_allowed (setSelectedOption sel s') = true
                          <-> 0 <= sel
       end.
Proof.
  apply (vote_guard_after_load dialog alice (Num 1) initial
           (answers (poll_tuple "1" "2"))
           (plain [("Ok", poll_tuple "1" "2")])
           (elements_of_tuple (poll_tuple "1" "2"))); try reflexivity.
  intros i. by exists (counted 3), (Num 3).
Defined.

(** X27, [loadPollData] of [VoteModal]: the poll is set before the
    tallies are read. When the query of one tally throws, the poll is
    shown all the same, the tallies on display are the ones of the
    previous load, the error is set and the loading ends. *)
Theorem tally_failure_keeps_old_tallies q address pollId s result output fields m j :
  String.eqb address EmptyString = false ->
  getPoll q address pollId = Val result ->
  ContractMetadata.human_output result = Val output ->
  get_opt "Ok" output = Arr fields ->
  ToNumber (ContractMetadata.at_ 5 fields) = Num m ->
  0 <= j < m -> getVoteTally q address pollId j = Throw ->
  let s' := loadPollData q (Some address) pollId s in
  (exists view, poll s' = Some view /\ maxOptions view = Num m)
  /\ tallies s' = tallies s
  /\ error s' = Some "Error al cargar la encuesta"
  /\ loading s' = false.
Proof.
  intros Ha Hq Hh Hok Hm Hj Ht. cbn zeta. unfold loadPollData, Polls.given.
  rewrite Ha. simpl. rewrite Hq. simpl. rewrite Hh, Hok. simpl.
  rewrite Hm. simpl.
  assert (Hsplit : seqZ 0 m = (seqZ 0 j ++ j :: seqZ (j + 1) (m - j - 1))%list).
  { replace m with (j + (1 + (m - j - 1))) at 1 by lia.
    rewrite seqZ_app by lia. f_equal.
    rewrite seqZ_cons by lia. f_equal. f_equal; lia. }
  rewrite Hsplit, load_tallies_throws by done. simpl.
  split; [eexists; split; [reflexivity|done]|]. done.
Qed.

Lemma tally_failure_keeps_old_tallies_witness :
  let s' := loadPollData dialog_failing (Some alice) (Num 1) shown_before in
  (exists view, poll s' = Some view /\ maxOptions view = Num 2)
  /\ tallies s' = tallies shown_before
  /\ error s' = Some "Error al cargar la encuesta"
  /\ loading s' = false.
Proof.
  apply (tally_failure_keeps_old_tallies dialog_failing alice (Num 1) shown_before
           (answers (poll_tuple "1" "2"))
           (plain [("Ok", poll_tuple "1" "2")])
           (elements_of_tuple (poll_tuple "1" "2")) 2 1); try reflexivity.
  lia.
Defined.

End VoteModalProofs.

(** * Accounts of the extension *)

Section AccountsProofs.
Import Polls Accounts.
Variable decodeAddress : string -> res (list Z).
Variable encodeAddress : list Z -> Z -> res string.

Lemma filter_sublist {A} (f : A -> bool) (l : list A) :
  sublist (List.filter f l) l.
Proof.
  induction l as [|x l IH]; simpl; [constructor|].
  destruct (f x); by constructor.
Qed.

Lemma unseen_spec accounts : forall seen,
  sublist (Accounts.unseen decodeAddress encodeAddress seen accounts) accounts
  /\ exists ns,
      Forall2 (fun acc n => Accounts.normalized decodeAddress encodeAddress (i_address acc) = Val n)
              (Accounts.unseen decodeAddress encodeAddress seen accounts) ns
      /\ NoDup ns
      /\ (forall n, n ∈ ns -> n ∉ seen)
      /\ (forall acc n, acc ∈ accounts -> Accounts.normalized decodeAddress encodeAddress (i_address acc) = Val n ->
            n ∈ seen \/ n ∈ ns).
Proof.
  induction accounts as [|acc rest IH]; intros seen.
  - split; [constructor|]. exists []. split; [constructor|].
    split; [constructor|]. split; [by intros n ?%elem_of_nil|].
    by intros acc n ?%elem_of_nil.
  - cbn [Accounts.unseen].
    destruct (Accounts.normalized decodeAddress encodeAddress (i_address acc)) as [n|] eqn:Hn.
    + case_bool_decide as Hseen.
      * destruct (IH seen) as (Hsub & ns & Hf & Hnd & Hout & Hall).
        split; [by constructor|]. exists ns. repeat split; try done.
        intros a m [->|Ha]%elem_of_cons Hm; [|by eapply Hall].
        left. congruence.
      * destruct (IH (n :: seen)) as (Hsub & ns & Hf & Hnd & Hout & Hall).
        split; [by constructor|]. exists (n :: ns). repeat split.
        -- by constructor.
        -- constructor; [|done]. intros Hin. apply (Hout n Hin).
           apply elem_of_cons. by left.
        -- intros m [->|Hm]%elem_of_cons; [done|].
           intros Hs. apply (Hout m Hm). apply elem_of_cons. by right.
        -- intros a m [->|Ha]%elem_of_cons Hm.
           ++ right. apply elem_of_cons. left. congruence.
           ++ destruct (Hall a m Ha Hm) as [[->|Hs]%elem_of_cons|Hs].
              ** right. apply elem_of_cons. by left.
              ** by left.
              ** right. apply elem_of_cons. by right.
    + destruct (IH seen) as (Hsub & ns & Hf & Hnd & Hout & Hall).
      split; [by constructor|]. exists ns. repeat split; try done.
      intros a m [->|Ha]%elem_of_cons Hm; [congruence|by eapply Hall].
Qed.

Lemma substrate_decodes acc :
  Accounts.substrate decodeAddress acc = true ->
  exists d, decodeAddress (i_address acc) = Val d /\ length d = 32%nat.
Proof.
  unfold Accounts.substrate. destruct (_ && _); [discriminate|].
  destruct (decodeAddress (i_address acc)) as [d|]; [|discriminate].
  intros H%Nat.eqb_eq. eauto.
Qed.

(** X28, [connectPolkadotExtension]: the accounts it returns are a
    non-empty selection of the accounts of the extension, in their
    order; each decodes to 32 bytes; no two of them have the same
    normalized address, and every Substrate account of the extension has
    its normalized address among them. Whatever goes wrong, the error
    thrown starts with [Error connecting to Polkadot extension: ]. *)
Theorem connectPolkadotExtension_accounts web3Enable web3Accounts :
  match connectPolkadotExtension decodeAddress encodeAddress
          web3Enable web3Accounts with
  | Returns l =>
      exists accounts kept ns,
        web3Accounts = Returns accounts
        /\ l = account_of <$> kept /\ l <> []
        /\ sublist kept accounts
        /\ Forall (fun acc => exists d, decodeAddress (i_address acc) = Val d
                                        /\ length d = 32%nat) kept
        /\ Forall2 (fun acc n => Accounts.normalized decodeAddress encodeAddress (i_address acc) = Val n) kept ns
        /\ NoDup ns
        /\ (forall acc n, acc ∈ accounts -> Accounts.substrate decodeAddress acc = true ->
              Accounts.normalized decodeAddress encodeAddress (i_address acc) = Val n -> n ∈ ns)
  | Raises m =>
      exists text,
        m = Some ("Error connecting to Polkadot extension: " +:+ text)
  end.
Proof.
  unfold connectPolkadotExtension.
  destruct web3Enable as [[|k]|m]; [by eexists|..|by eexists].
  destruct web3Accounts as [[|acc accounts]|m]; [by eexists|..|by eexists].
  set (all := acc :: accounts).
  destruct (unseen_spec (List.filter (Accounts.substrate decodeAddress) all) [])
    as (Hsub & ns & Hf & Hnd & _ & Hall).
  destruct (account_of <$> Accounts.unseen decodeAddress encodeAddress [] (List.filter (Accounts.substrate decodeAddress) all))
    as [|a l] eqn:E; [by eexists|].
  exists all, (Accounts.unseen decodeAddress encodeAddress [] (List.filter (Accounts.substrate decodeAddress) all)), ns.
  split; [done|]. split; [done|]. split; [done|]. split.
  { etrans; [exact Hsub|apply filter_sublist]. }
  split.
  { apply Forall_forall. intros x Hx. apply substrate_decodes.
    eapply elem_of_sublist in Hx; [|exact Hsub].
    apply list_elem_of_In, List.filter_In in Hx. apply Hx. }
  split; [done|]. split; [done|].
  intros x n Hx Hs Hn. destruct (Hall x n) as [?%elem_of_nil|?]; try done.
  apply list_elem_of_In, List.filter_In. split; [by apply list_elem_of_In|done].
Qed.

End AccountsProofs.

(** * Addresses *)

Section HexProofs.
Import Accounts.

Lemma lower_hex_digit c :
  lower_hex c = true ->
  exists x, hex_of c = Some x /\ 0 <= x < 16 /\ hex_digit x = c.
Proof.
  destruct c as [[] [] [] [] [] [] [] []]; intros H; vm_compute in H;
    try discriminate H; eexists;
    (split; [vm_compute; reflexivity|split; [lia|reflexivity]]).
Qed.

Lemma hex_digit_inv x :
  0 <= x < 16 -> hex_of (hex_digit x) = Some x.
Proof.
  intros H.
  assert (Hc : x = 0 \/ x = 1 \/ x = 2 \/ x = 3 \/ x = 4 \/ x = 5 \/ x = 6
               \/ x = 7 \/ x = 8 \/ x = 9 \/ x = 10 \/ x = 11 \/ x = 12
               \/ x = 13 \/ x = 14 \/ x = 15) by lia.
  repeat (destruct Hc as [->|Hc]; [reflexivity|]). by subst.
Qed.

Lemma hex_decode_encode bytes :
  Forall (fun b => 0 <= b < 256) bytes -> hex_decode (hex_encode bytes) = bytes.
Proof.
  induction 1 as [|b rest Hb _ IH]; [reflexivity|].
  cbn [hex_encode hex_decode].
  rewrite !hex_digit_inv.
  - rewrite IH. f_equal. pose proof (Z.div_mod b 16). lia.
  - apply Z.mod_pos_bound. lia.
  - split; [apply Z.div_pos; lia|apply Z.div_lt_upper_bound; lia].
Qed.

Lemma hex_encode_decode n : forall hex,
  String.length hex = (2 * n)%nat ->
  Forall (fun c => lower_hex c = true) (list_ascii_of_string hex) ->
  hex_encode (hex_decode hex) = hex
  /\ length (hex_decode hex) = n
  /\ Forall (fun b => 0 <= b < 256) (hex_decode hex).
Proof.
  induction n as [|n IH]; intros hex Hlen Hall.
  - destruct hex; [by repeat split|discriminate].
  - destruct hex as [|a [|b rest]]; try (simpl in Hlen; lia).
    simpl in Hall. apply Forall_cons in Hall as [Ha Hall].
    apply Forall_cons in Hall as [Hb Hall].
    destruct (lower_hex_digit a Ha) as (x & Hx & Hxr & Hxd).
    destruct (lower_hex_digit b Hb) as (y & Hy & Hyr & Hyd).
    destruct (IH rest) as (Hr & Hl & Hf); [simpl in Hlen; lia|done|].
    cbn [hex_decode]. rewrite Hx, Hy. cbn [hex_encode length].
    replace ((16 * x + y) / 16) with x by (apply Z.div_unique with y; lia).
    replace ((16 * x + y) mod 16) with y by (apply Z.mod_unique with x; lia).
    rewrite Hxd, Hyd, Hr, Hl. split; [done|]. split; [done|].
    constructor; [lia|done].
Qed.

End HexProofs.

Section AddressProofs.
Import Accounts.
Variable decodeAddress : string -> res (list Z).
Variable encodeAddress : list Z -> Z -> res string.

(** X29, [h160ToAccountId32] and [accountId32ToH160]: for an address of
    40 lower-case hexadecimal digits, with or without [0x], and a codec
    whose decoding inverts its encoding, converting to an account and
    back returns the address with its [0x]; the account decodes to the
    20 bytes of the address followed by 12 zeros. *)
Theorem h160_round_trip h160 ss58Format accountId32 :
  String.length (without_0x h160) = 40%nat ->
  Forall (fun c => lower_hex c = true) (list_ascii_of_string (without_0x h160)) ->
  (forall buffer address,
      encodeAddress buffer ss58Format = Val address ->
      decodeAddress address = Val buffer) ->
  h160ToAccountId32 encodeAddress h160 ss58Format = Val accountId32 ->
  accountId32ToH160 decodeAddress accountId32 = Val ("0x" +:+ without_0x h160)
  /\ exists key,
      decodeAddress accountId32 = Val (key ++ replicate 12 0)%list
      /\ length key = 20%nat.
Proof.
  intros Hlen Hall Hcodec. unfold h160ToAccountId32, accountId32ToH160.
  rewrite Hlen. simpl negb. cbv iota.
  destruct (hex_encode_decode 20 (without_0x h160) Hlen Hall) as (Hr & Hl & Hf).
  rewrite Hl. change (32 - 20)%nat with 12%nat.
  intros He. apply Hcodec in He. rewrite He. simpl bind.
  rewrite length_app, Hl. simpl.
  rewrite take_app_length' by done. rewrite Hr. split; [done|]. eauto.
Qed.

(** X30, [AccountId(ss58Format, nBytes)]: [isValid] holds exactly for
    the addresses [decode] accepts; what [decode] returns has [nBytes]
    bytes, is what [decodeAddress] returns, and is never refused by
    [encode]. *)
Theorem AccountId_codec nBytes ss58Format address :
  (isValid decodeAddress nBytes address = true
   <-> exists buffer, decode decodeAddress nBytes address = Val buffer)
  /\ forall buffer,
       decode decodeAddress nBytes address = Val buffer ->
       length buffer = nBytes
       /\ decodeAddress address = Val buffer
       /\ encode encodeAddress ss58Format nBytes buffer
          = encodeAddress buffer ss58Format.
Proof.
  unfold isValid, decode, encode, fromBase58ToBuffer, getSs58AddressInfo.
  destruct (decodeAddress address) as [d|]; simpl.
  - destruct (length d =? nBytes)%nat eqn:E; simpl.
    + rewrite E. apply Nat.eqb_eq in E. split; [split; eauto|].
      intros b [= <-]. rewrite (proj2 (Nat.eqb_eq _ _) E). done.
    + split; [split; [done|by intros [? ?]]|done].
  - split; [split; [done|by intros [? ?]]|done].
Qed.

End AddressProofs.

Section AddressExamples.
Import Accounts Dialogs.

Lemma toy_codec_inverts buffer address :
  toy_encode buffer 42 = Val address -> toy_decode address = Val buffer.
Proof.
  unfold toy_encode, toy_decode. destruct (forallb in_range buffer) eqn:E;
    [|discriminate].
  intros [= <-]. f_equal. apply hex_decode_encode.
  apply Forall_forall. intros b Hb.
  rewrite forallb_forall in E. specialize (E b (proj1 (list_elem_of_In _ _) Hb)).
  unfold in_range in E. apply andb_true_iff in E as [E1 E2].
  apply Z.leb_le in E1. apply Z.ltb_lt in E2. lia.
Qed.

Lemma h160_round_trip_witness :
  accountId32ToH160 toy_decode
    "00112233445566778899aabbccddeeff00112233000000000000000000000000"
  = Val ("0x" +:+ without_0x "0x00112233445566778899aabbccddeeff00112233")
  /\ exists key,
      toy_decode "00112233445566778899aabbccddeeff00112233000000000000000000000000"
      = Val (key ++ replicate 12 0)%list
      /\ length key = 20%nat.
Proof.
  apply (h160_round_trip toy_decode toy_encode
           "0x00112233445566778899aabbccddeeff00112233" 42).
  - reflexivity.
  - repeat constructor.
  - exact toy_codec_inverts.
  - reflexivity.
Defined.

End AddressExamples.
